(** * JDAT: block model, grammar, registry and per-block encryption

    A shallow embedding of [src/files/jdat.py] and [src/files/crypto.py].

    Python [str] values are modelled as lists of 8-bit code points
    ([list ascii], the Latin-1 range of Unicode); on that range the
    character classes below are exactly the ones Python uses
    ([str.isspace], the regex classes [\s], [\S], [\d], and the line
    boundaries of [str.splitlines]).  Python [bytes] are [list byte].
    Python [int] values are [Z]; [int()] on a run of digits raises past
    the interpreter's limit of 4300 digits and is modelled with that
    raise, and properties about text written by [to_jdat] bound the
    kinds it formats in the same way.
    Objects mutated in place are modelled by explicit state passing. *)

From Stdlib Require Import List Ascii String Bool Arith ZArith NArith Lia.
From Stdlib.Strings Require Import Byte.
From Stdlib Require Import DecimalN.
Import ListNotations.

Set Implicit Arguments.

(** ** Python strings *)

Module PyStr.

Definition str := list ascii.

(** A literal of the source text. *)
Definition lit (s : string) : str := list_ascii_of_string s.

Definition NL : ascii := "010"%char.

Definition code (c : ascii) : nat := nat_of_ascii c.

(** [str.isspace] on one character / the regex class [\s]. *)
Definition isspace (c : ascii) : bool :=
  let n := code c in
  ((9 <=? n) && (n <=? 13)) || ((28 <=? n) && (n <=? 32))
  || (n =? 133) || (n =? 160).

(** The regex class [\S]. *)
Definition nonspace (c : ascii) : bool := negb (isspace c).

(** The regex class [\d]. *)
Definition isdigit (c : ascii) : bool :=
  let n := code c in (48 <=? n) && (n <=? 57).

(** Line boundaries recognised by [str.splitlines]. *)
Definition is_linebreak (c : ascii) : bool :=
  let n := code c in
  ((10 <=? n) && (n <=? 13)) || ((28 <=? n) && (n <=? 30)) || (n =? 133).

Fixpoint str_eqb (a b : str) : bool :=
  match a, b with
  | [], [] => true
  | x :: a', y :: b' => Ascii.eqb x y && str_eqb a' b'
  | _, _ => false
  end.

(** [s.lstrip()], [s.rstrip()], [s.strip()]. *)
Fixpoint lstrip (s : str) : str :=
  match s with
  | c :: s' => if isspace c then lstrip s' else s
  | [] => []
  end.

Definition rstrip (s : str) : str := rev (lstrip (rev s)).

Definition strip (s : str) : str := rstrip (lstrip s).

(** [sep.join(parts)]. *)
Fixpoint join (sep : str) (parts : list str) : str :=
  match parts with
  | [] => []
  | [p] => p
  | p :: ps => p ++ sep ++ join sep ps
  end.

(** [s.splitlines()]: [cur] is the current line, reversed.  A carriage
    return directly followed by a line feed is one boundary; no empty
    last line is produced when the text ends with a boundary. *)
Fixpoint splitlines_from (cur : str) (s : str) : list str :=
  match s with
  | [] => match cur with [] => [] | _ => [rev cur] end
  | c :: s' =>
      if is_linebreak c then
        rev cur ::
          match s' with
          | d :: s'' =>
              if (code c =? 13) && (code d =? 10)
              then splitlines_from [] s''
              else splitlines_from [] s'
          | [] => splitlines_from [] s'
          end
      else splitlines_from (c :: cur) s'
  end.

Definition splitlines (s : str) : list str := splitlines_from [] s.

(** [ch in s]. *)
Definition contains_char (ch : ascii) (s : str) : bool :=
  existsb (Ascii.eqb ch) s.

(** [s.partition(ch)]: the text before the first [ch], and the text
    after it; when [ch] does not occur, the whole text and nothing. *)
Fixpoint partition (ch : ascii) (s : str) : str * str :=
  match s with
  | [] => ([], [])
  | c :: s' =>
      if Ascii.eqb c ch then ([], s')
      else let (a, b) := partition ch s' in (c :: a, b)
  end.

(** [s.startswith(p)], returning what follows the prefix. *)
Fixpoint strip_prefix (p s : str) : option str :=
  match p with
  | [] => Some s
  | x :: p' =>
      match s with
      | y :: s' => if Ascii.eqb x y then strip_prefix p' s' else None
      | [] => None
      end
  end.

(** [p in s] for a text [p]. *)
Fixpoint occurs (p s : str) : bool :=
  match strip_prefix p s with
  | Some _ => true
  | None => match s with [] => false | _ :: s' => occurs p s' end
  end.

(** [int(digits)] for a run of decimal digits, and [str(n)] for a
    natural number. *)
Fixpoint uint_of_digits (s : str) : Decimal.uint :=
  match s with
  | [] => Decimal.Nil
  | c :: s' =>
      let d := uint_of_digits s' in
      match code c - 48 with
      | 0 => Decimal.D0 d | 1 => Decimal.D1 d | 2 => Decimal.D2 d
      | 3 => Decimal.D3 d | 4 => Decimal.D4 d | 5 => Decimal.D5 d
      | 6 => Decimal.D6 d | 7 => Decimal.D7 d | 8 => Decimal.D8 d
      | _ => Decimal.D9 d
      end
  end.

Fixpoint digits_of_uint (d : Decimal.uint) : str :=
  match d with
  | Decimal.Nil => []
  | Decimal.D0 d => "0"%char :: digits_of_uint d
  | Decimal.D1 d => "1"%char :: digits_of_uint d
  | Decimal.D2 d => "2"%char :: digits_of_uint d
  | Decimal.D3 d => "3"%char :: digits_of_uint d
  | Decimal.D4 d => "4"%char :: digits_of_uint d
  | Decimal.D5 d => "5"%char :: digits_of_uint d
  | Decimal.D6 d => "6"%char :: digits_of_uint d
  | Decimal.D7 d => "7"%char :: digits_of_uint d
  | Decimal.D8 d => "8"%char :: digits_of_uint d
  | Decimal.D9 d => "9"%char :: digits_of_uint d
  end.

Definition int_of_digits (s : str) : Z := Z.of_N (N.of_uint (uint_of_digits s)).

(** [str(z)] as an f-string renders an [int]. *)
Definition str_of_int (z : Z) : str :=
  match z with
  | Zneg p => "-"%char :: digits_of_uint (N.to_uint (Npos p))
  | _ => digits_of_uint (N.to_uint (Z.to_N z))
  end.

(** [sys.int_info.default_max_str_digits]: the interpreter converts
    between [int] and [str] up to that many decimal digits. *)
Definition int_max_str_digits : nat := 4300.

(** [int(s)] accepts the run of digits [s] (leading zeros count);
    [str(z)] accepts [z] (the sign does not count).  Otherwise they raise
    [ValueError]. *)
Definition int_accepts (s : str) : bool := List.length s <=? int_max_str_digits.

Definition str_accepts (z : Z) : bool := int_accepts (str_of_int (Z.abs z)).

End PyStr.
Import PyStr.

(** ** The fragment of Python's [re] used by the parser

    A backtracking matcher with Python's priorities: a greedy
    repetition tries the longest run first, a lazy one the shortest, an
    optional group is tried before it is skipped, and the first
    alternative that lets the rest of the pattern succeed wins.
    Repetition is over one character class, which is all the two
    patterns of [_parse] need. *)

Module Re.

Inductive regex : Type :=
| Lit (l : str)                                        (* literal text *)
| Rep (cls : ascii -> bool) (min : nat) (greedy : bool)  (* cls{min,} or cls{min,}? *)
| Opt (r : regex)                                      (* (r)? *)
| Group (i : nat) (r : regex)                          (* i-th capture group *)
| Seq (r1 r2 : regex).

Infix ";;" := Seq (at level 61, right associativity).

(** Captured groups of the match under construction, latest first. *)
Definition caps := list (nat * str).

Section Matcher.
Variable R : Type.

Fixpoint rep_greedy (cls : ascii -> bool) (min : nat) (s : str)
         (k : str -> option R) : option R :=
  let stop := if min =? 0 then k s else None in
  match s with
  | c :: s' =>
      if cls c then
        match rep_greedy cls (pred min) s' k with
        | Some r => Some r
        | None => stop
        end
      else stop
  | [] => stop
  end.

Fixpoint rep_lazy (cls : ascii -> bool) (min : nat) (s : str)
         (k : str -> option R) : option R :=
  let more :=
    match s with
    | c :: s' => if cls c then rep_lazy cls (pred min) s' k else None
    | [] => None
    end in
  match min with
  | 0 => match k s with Some r => Some r | None => more end
  | S _ => more
  end.

Fixpoint run (r : regex) (s : str) (g : caps)
         (k : str -> caps -> option R) : option R :=
  match r with
  | Lit l =>
      match strip_prefix l s with Some s' => k s' g | None => None end
  | Rep cls min greedy =>
      (if greedy then rep_greedy else rep_lazy) cls min s (fun s' => k s' g)
  | Opt r1 =>
      match run r1 s g k with Some x => Some x | None => k s g end
  | Group i r1 =>
      run r1 s g
          (fun s' g' => k s' ((i, firstn (List.length s - List.length s') s) :: g'))
  | Seq r1 r2 => run r1 s g (fun s' g' => run r2 s' g' k)
  end.
End Matcher.

(** [pattern.match(text, pos)]: the groups of the match that starts at
    the head of [s], and the text after the match. *)
Definition match_at (r : regex) (s : str) : option (caps * str) :=
  run r s [] (fun s' g => Some (g, s')).

(** [m.group(i)]; [None] when the group took no part in the match. *)
Fixpoint group (g : caps) (i : nat) : option str :=
  match g with
  | [] => None
  | (j, x) :: g' => if i =? j then Some x else group g' i
  end.

(** [pattern.finditer(text)]: leftmost matches, none overlapping.
    [skip] counts the characters still covered by the previous match.
    Neither pattern of [_parse] matches the empty text, so no match is
    looked for at the end of the text. *)
Fixpoint finditer_from (r : regex) (s : str) (skip : nat) : list caps :=
  match s with
  | [] => []
  | _ :: s' =>
      match skip with
      | S n => finditer_from r s' n
      | 0 =>
          match match_at r s with
          | Some (g, rest) =>
              g :: finditer_from r s' (List.length s - List.length rest - 1)
          | None => finditer_from r s' 0
          end
      end
  end.

Definition finditer (r : regex) (s : str) : list caps := finditer_from r s 0.

Definition any (_ : ascii) : bool := true.

End Re.
Import Re.

(** ** [class JDATBlock] *)

Module JDATBlock.

(** A Python [dict] from text to text: insertion-ordered, keys unique. *)
Definition dict := list (str * str).

Fixpoint dict_get (d : dict) (k : str) : option str :=
  match d with
  | [] => None
  | (k', v) :: d' => if str_eqb k' k then Some v else dict_get d' k
  end.

(** [d[k] = v]: overwrite in place, or append a new key. *)
Fixpoint dict_set (d : dict) (k v : str) : dict :=
  match d with
  | [] => [(k, v)]
  | (k', v') :: d' =>
      if str_eqb k' k then (k', v) :: d' else (k', v') :: dict_set d' k v
  end.

Record t : Type := mk {
  name : str;
  link : str;
  type : Z;
  content : str;
  encrypted : bool;
  _data : option dict
}.

(** [JDATBlock(name, link, btype, content, encrypted)]. *)
Definition __init__ (n l : str) (btype : Z) (c : str) (enc : bool) : t :=
  mk n l btype c enc None.

Definition set_content (b : t) (c : str) : t :=
  mk (name b) (link b) (type b) c (encrypted b) (_data b).
Definition set_encrypted (b : t) (e : bool) : t :=
  mk (name b) (link b) (type b) (content b) e (_data b).
Definition set_data (b : t) (d : option dict) : t :=
  mk (name b) (link b) (type b) (content b) (encrypted b) d.

(** The body of the [for] loop of [parse_data]. *)
Definition parse_line (data : dict) (line : str) : dict :=
  let line := strip line in
  match line with
  | [] => data
  | _ =>
      if contains_char ":"%char line then
        let (key, value) := partition ":"%char line in
        dict_set data (strip key) (strip value)
      else data
  end.

Definition parse_content (c : str) : dict :=
  fold_left parse_line (splitlines (strip c)) [].

(** [parse_data]: the mapping returned, and the block afterwards (the
    cache may have been filled). *)
Definition parse_data (self : t) : dict * t :=
  if negb (type self =? 1)%Z then ([], self)
  else match _data self with
       | Some d => (d, self)
       | None =>
           let data := parse_content (content self) in
           (data, set_data self (Some data))
       end.

(** [get(key, default)]; Python's [None] is [None]. *)
Definition get (self : t) (key : str) (default : option str)
  : option str * t :=
  let (d, self) := parse_data self in
  (match dict_get d key with Some v => Some v | None => default end, self).

Definition render_line (kv : str * str) : str :=
  lit "  " ++ fst kv ++ lit ": " ++ snd kv.

Definition _rebuild_content (self : t) : t :=
  match _data self with
  | Some d =>
      if (type self =? 1)%Z
      then set_content self (join [NL] (map render_line d))
      else self
  | None => self
  end.

Definition set (self : t) (key value : str) : t :=
  let (d, self) := parse_data self in
  let d := dict_set d key value in
  let self := set_data self (Some d) in
  _rebuild_content self.

(** [to_jdat]: the text of the block, and the block afterwards (a
    structured block has its content rebuilt). *)
Definition to_jdat (self : t) : str * t :=
  let head := lit "(n:" ++ name self ++ lit " l:" ++ link self
                  ++ lit " t:" ++ str_of_int (type self) in
  if encrypted self then
    (head ++ lit " encrypted{" ++ [NL] ++ content self ++ [NL] ++ lit "})", self)
  else if (type self =? 1)%Z then
    let self := _rebuild_content self in
    (head ++ lit " {" ++ [NL] ++ content self ++ [NL] ++ lit "})", self)
  else
    (head ++ lit "{" ++ [NL] ++ content self ++ [NL] ++ lit "})", self).

End JDATBlock.

(** ** Exceptions and results *)

Module Py.

Inductive exn : Type :=
| ValueError (msg : string)
| FileNotFoundError (path : option str)
| InvalidTag                (* cryptography.exceptions.InvalidTag *)
| binascii_Error            (* binascii.Error, raised by b64decode *)
| UnicodeDecodeError
| OSError.

(** What a call does: it returns a value or raises. *)
Inductive outcome (A : Type) : Type :=
| Return (a : A)
| Raise (e : exn).
Arguments Return {A} a.
Arguments Raise {A} e.

Definition bind {A B} (m : outcome A) (f : A -> outcome B) : outcome B :=
  match m with
  | Return a => f a
  | Raise e => Raise e
  end.

(** [int(s)] on a run of decimal digits. *)
Definition int_limit_error (s : str) : exn :=
  ValueError ("Exceeds the limit (4300 digits) for integer string conversion: value has "
              ++ string_of_list_ascii (str_of_int (Z.of_nat (List.length s)))
              ++ " digits; use sys.set_int_max_str_digits() to increase the limit").

Definition int_from_str (s : str) : outcome Z :=
  if int_accepts s then Return (int_of_digits s) else Raise (int_limit_error s).

(** [try: body  except Exception: raise e]. *)
Definition try_except_raise {A} (body : outcome A) (e : exn) : outcome A :=
  match body with
  | Return a => Return a
  | Raise _ => Raise e
  end.

End Py.
Import Py.

Notation "x <- m ;;; k" := (Py.bind m (fun x => k))
  (at level 62, m at next level, right associativity).

(** ** [class JDATCrypto] *)

Module JDATCrypto.

Definition bytes := list byte.

(** The library calls of [crypto.py], with the part of their contract
    the module relies on: [hashlib.sha256], [AESGCM] of the
    [cryptography] package, the UTF-8 codec and [base64]. *)
Class Library : Type := {
  (** [hashlib.sha256(m).digest()] *)
  sha256 : bytes -> bytes;
  sha256_length : forall m, List.length (sha256 m) = 32;
  (** [AESGCM(key).encrypt(nonce, data, None)] and
      [AESGCM(key).decrypt(nonce, data, None)] *)
  aesgcm_encrypt : bytes -> bytes -> bytes -> outcome bytes;
  aesgcm_decrypt : bytes -> bytes -> bytes -> outcome bytes;
  aesgcm_encrypt_decrypt :
    forall key nonce data,
      List.length key = 32 -> List.length nonce = 12 ->
      exists ct, aesgcm_encrypt key nonce data = Return ct
                 /\ aesgcm_decrypt key nonce ct = Return data;
  aesgcm_tag :
    forall key nonce ct pt,
      aesgcm_decrypt key nonce ct = Return pt -> 16 <= List.length ct;
  (** [s.encode('utf-8')] and [b.decode('utf-8')] *)
  utf8_encode : str -> bytes;
  utf8_decode : bytes -> outcome str;
  utf8_decode_encode : forall s, utf8_decode (utf8_encode s) = Return s;
  (** [base64.b64encode(raw).decode('ascii')] and [base64.b64decode(text)] *)
  b64encode : bytes -> str;
  b64decode : str -> outcome bytes;
  b64decode_encode : forall raw, b64decode (b64encode raw) = Return raw;
  b64encode_nospace : forall raw, forallb nonspace (b64encode raw) = true
}.

(** [os.urandom]: the operating system's entropy, read in order. *)
Record entropy : Type := { source : nat -> byte; cursor : nat }.

Definition urandom (n : nat) (e : entropy) : bytes * entropy :=
  (map (fun i => source e (cursor e + i)) (seq 0 n),
   {| source := source e; cursor := cursor e + n |}).
Arguments urandom : simpl never.

Definition NONCE_SIZE : nat := 12.
Definition SALT_SIZE : nat := 16.

Definition AUTH_MSG : string :=
  "❌ Mot de passe incorrect ou données corrompues".

Section WithLibrary.
Context {L : Library}.

Definition _derive_key (password : str) (salt : bytes) : bytes :=
  let key_material := utf8_encode password ++ salt in
  sha256 key_material.

Definition encrypt (plaintext password : str) (e : entropy)
  : outcome str * entropy :=
  let (salt, e) := urandom SALT_SIZE e in
  let (nonce, e) := urandom NONCE_SIZE e in
  let key := _derive_key password salt in
  (ct <- aesgcm_encrypt key nonce (utf8_encode plaintext) ;;;
   let raw := salt ++ nonce ++ ct in
   Return (b64encode raw),
   e).

(** The body of the [try] block of [decrypt]. *)
Definition decrypt_try (ciphertext_b64 password : str) : outcome str :=
  raw <- b64decode (strip ciphertext_b64) ;;;
  let salt := firstn SALT_SIZE raw in
  let nonce := firstn NONCE_SIZE (skipn SALT_SIZE raw) in
  let ct := skipn (SALT_SIZE + NONCE_SIZE) raw in
  let key := _derive_key password salt in
  pt <- aesgcm_decrypt key nonce ct ;;;
  utf8_decode pt.

Definition decrypt (ciphertext_b64 password : str) : outcome str :=
  try_except_raise (decrypt_try ciphertext_b64 password)
                   (ValueError AUTH_MSG).
End WithLibrary.

End JDATCrypto.

(** ** [class JDATFile] *)

Module JDATFile.

Import JDATCrypto.

Record t : Type := mk {
  path : option str;
  blocks : list JDATBlock.t;
  comments : list str
}.

(** [JDATFile(path)]: [Path(path) if path else None]. *)
Definition __init__ (p : option str) : t :=
  mk (match p with Some ((_ :: _) as x) => Some x | _ => None end) [] [].

Definition set_path (f : t) (p : option str) : t := mk p (blocks f) (comments f).
Definition set_blocks (f : t) (bs : list JDATBlock.t) : t :=
  mk (path f) bs (comments f).
Definition set_comments (f : t) (cs : list str) : t :=
  mk (path f) (blocks f) cs.

(** [re.compile(r'\(\{<(.*?)>\}\)', re.DOTALL)] *)
Definition comment_pattern : regex :=
  Lit (lit "({<") ;; Group 1 (Rep any 0 false) ;; Lit (lit ">})").

(** [re.compile(r'\(n:(\S+)\s+l:(\S+)\s+t:(\d+)\s*(encrypted)?\s*\{(.*?)\}\)', re.DOTALL)] *)
Definition block_pattern : regex :=
  Lit (lit "(n:") ;; Group 1 (Rep nonspace 1 true) ;; Rep isspace 1 true ;;
  Lit (lit "l:") ;; Group 2 (Rep nonspace 1 true) ;; Rep isspace 1 true ;;
  Lit (lit "t:") ;; Group 3 (Rep isdigit 1 true) ;; Rep isspace 0 true ;;
  Opt (Group 4 (Lit (lit "encrypted"))) ;; Rep isspace 0 true ;;
  Lit (lit "{") ;; Group 5 (Rep any 0 false) ;; Lit (lit "})").

(** A group that always takes part in a match of its pattern. *)
Definition group_text (m : caps) (i : nat) : str :=
  match group m i with Some x => x | None => [] end.

(** The block built from one match of [block_pattern]; [int()] may
    raise. *)
Definition block_of_match (m : caps) : outcome JDATBlock.t :=
  let name := group_text m 1 in
  let link := group_text m 2 in
  btype <- int_from_str (group_text m 3) ;;;
  let enc := match group m 4 with
             | Some ((_ :: _) as x) => str_eqb x (lit "encrypted")
             | _ => false
             end in
  let content := group_text m 5 in
  Return (JDATBlock.__init__ name link btype content enc).

(** The loop over the matches of [block_pattern]: a raise ends it, and
    the blocks appended before stay in the File. *)
Fixpoint append_blocks (ms : list caps) (self : t) : outcome unit * t :=
  match ms with
  | [] => (Return tt, self)
  | m :: ms' =>
      match block_of_match m with
      | Return b => append_blocks ms' (set_blocks self (blocks self ++ [b]))
      | Raise e => (Raise e, self)
      end
  end.

Definition _parse (self : t) (text : str) : outcome unit * t :=
  let self := set_blocks self [] in
  let self := set_comments self [] in
  let self :=
    fold_left (fun f m => set_comments f (comments f ++ [strip (group_text m 1)]))
              (finditer comment_pattern text) self in
  append_blocks (finditer block_pattern text) self.

(** The file system as [load] sees it: nothing at a path, or something
    whose reading as UTF-8 text returns or raises. *)
Definition filesys := str -> option (outcome str).

Definition load (self : t) (p : option str) (fs : filesys) : outcome unit * t :=
  let self := match p with
              | Some ((_ :: _) as x) => set_path self (Some x)
              | _ => self
              end in
  match path self with
  | None => (Raise (FileNotFoundError None), self)
  | Some x =>
      match fs x with
      | None => (Raise (FileNotFoundError (Some x)), self)
      | Some (Raise e) => (Raise e, self)
      | Some (Return text) => _parse self text
      end
  end.

Fixpoint find_by_link (bs : list JDATBlock.t) (link : str) : option JDATBlock.t :=
  match bs with
  | [] => None
  | b :: bs' => if str_eqb (JDATBlock.link b) link then Some b
                else find_by_link bs' link
  end.

Definition get_by_link (self : t) (link : str) : option JDATBlock.t :=
  find_by_link (blocks self) link.

Fixpoint find_by_name (bs : list JDATBlock.t) (name : str) : option JDATBlock.t :=
  match bs with
  | [] => None
  | b :: bs' => if str_eqb (JDATBlock.name b) name then Some b
                else find_by_name bs' name
  end.

Definition get_by_name (self : t) (name : str) : option JDATBlock.t :=
  find_by_name (blocks self) name.

(** The block object returned by [get_by_link] is the first one with
    that link; a mutation of it is a store at that place. *)
Fixpoint store_by_link (bs : list JDATBlock.t) (link : str) (b' : JDATBlock.t)
  : list JDATBlock.t :=
  match bs with
  | [] => []
  | b :: bs' => if str_eqb (JDATBlock.link b) link then b' :: bs'
                else b :: store_by_link bs' link b'
  end.

Definition mutate (self : t) (link : str) (b' : JDATBlock.t) : t :=
  set_blocks self (store_by_link (blocks self) link b').

Definition add_block (self : t) (name link : str) (btype : Z) (content : str)
  : outcome unit * t :=
  match get_by_link self link with
  | Some _ => (Raise (ValueError ("Un bloc avec le lien '"
                              ++ string_of_list_ascii link
                              ++ "' existe déjà")%string), self)
  | None =>
      (Return tt,
       set_blocks self
         (blocks self ++ [JDATBlock.__init__ name link btype content false]))
  end.

Fixpoint remove_first (bs : list JDATBlock.t) (link : str)
  : bool * list JDATBlock.t :=
  match bs with
  | [] => (false, [])
  | b :: bs' =>
      if str_eqb (JDATBlock.link b) link then (true, bs')
      else let (r, bs'') := remove_first bs' link in (r, b :: bs'')
  end.

Definition remove_block (self : t) (link : str) : bool * t :=
  let (r, bs) := remove_first (blocks self) link in (r, set_blocks self bs).

Section WithLibrary.
Context {L : Library}.

Definition encrypt_block (self : t) (link password : str) (e : entropy)
  : outcome bool * t * entropy :=
  match get_by_link self link with
  | None => (Return false, self, e)
  | Some block =>
      if JDATBlock.encrypted block
      then (Raise (ValueError "Bloc déjà chiffré"), self, e)
      else
        let block := if (JDATBlock.type block =? 1)%Z
                     then JDATBlock._rebuild_content block else block in
        match encrypt (JDATBlock.content block) password e with
        | (Return c, e) =>
            let block := JDATBlock.set_content block c in
            let block := JDATBlock.set_encrypted block true in
            (Return true, mutate self link block, e)
        | (Raise x, e) => (Raise x, mutate self link block, e)
        end
  end.

Definition decrypt_block (self : t) (link password : str)
  : outcome bool * t :=
  match get_by_link self link with
  | None => (Return false, self)
  | Some block =>
      if negb (JDATBlock.encrypted block)
      then (Raise (ValueError "Bloc non chiffré"), self)
      else
        match decrypt (JDATBlock.content block) password with
        | Return c =>
            let block := JDATBlock.set_content block c in
            let block := JDATBlock.set_encrypted block false in
            let block := JDATBlock.set_data block None in
            (Return true, mutate self link block)
        | Raise x => (Raise x, self)
        end
  end.
End WithLibrary.

(** [b.to_jdat()] for each block in order: the texts, and the blocks
    afterwards. *)
Fixpoint blocks_to_jdat (bs : list JDATBlock.t) : list str * list JDATBlock.t :=
  match bs with
  | [] => ([], [])
  | b :: bs' =>
      let (s, b') := JDATBlock.to_jdat b in
      let (ss, bs'') := blocks_to_jdat bs' in
      (s :: ss, b' :: bs'')
  end.

Definition to_jdat (self : t) : str * t :=
  let parts := map (fun c => lit "({<" ++ c ++ lit ">})") (comments self) in
  let (bparts, bs) := blocks_to_jdat (blocks self) in
  (join [NL; NL] (parts ++ bparts) ++ [NL], set_blocks self bs).

End JDATFile.

(** ** An inhabitant of [Library]

    Small stand-ins that meet the contract of [JDATCrypto.Library]; they
    show that the contract can be met and let the operations run on
    concrete inputs.  They are not the real primitives: the digest pads
    or cuts its input to 32 bytes, the tag is the first half of the key,
    text is coded one byte per character and binary data two letters
    per byte. *)

Module SampleLibrary.

Import JDATCrypto.

Definition pad_to (n : nat) (m : bytes) : bytes := firstn n (m ++ repeat x00 n).

Definition digest (m : bytes) : bytes := pad_to 32 m.

Definition tag_of (key : bytes) : bytes := pad_to 16 key.

Definition bytes_eqb (a b : bytes) : bool :=
  if list_eq_dec Byte.byte_eq_dec a b then true else false.

Definition seal (key nonce data : bytes) : outcome bytes :=
  Return (data ++ tag_of key).

Definition open (key nonce ct : bytes) : outcome bytes :=
  if List.length ct <? 16 then Raise InvalidTag
  else
    let n := List.length ct - 16 in
    if bytes_eqb (skipn n ct) (tag_of key) then Return (firstn n ct)
    else Raise InvalidTag.

Definition text_encode (s : str) : bytes := map byte_of_ascii s.
Definition text_decode (b : bytes) : outcome str := Return (map ascii_of_byte b).

Definition letter (n : nat) : ascii := ascii_of_nat (65 + n).

Fixpoint armor (raw : bytes) : str :=
  match raw with
  | [] => []
  | b :: raw' =>
      letter (Byte.to_nat b / 16) :: letter (Byte.to_nat b mod 16) :: armor raw'
  end.

Definition unletter (c : ascii) : option nat :=
  let n := code c in
  if (65 <=? n) && (n <=? 80) then Some (n - 65) else None.

Fixpoint dearmor_fuel (fuel : nat) (s : str) : outcome bytes :=
  match fuel with
  | 0 => Raise binascii_Error
  | S fuel' =>
      match s with
      | [] => Return []
      | [_] => Raise binascii_Error
      | c1 :: c2 :: s' =>
          match unletter c1, unletter c2 with
          | Some h, Some l =>
              match Byte.of_nat (16 * h + l) with
              | Some b => raw <- dearmor_fuel fuel' s' ;;; Return (b :: raw)
              | None => Raise binascii_Error
              end
          | _, _ => Raise binascii_Error
          end
      end
  end.

Definition dearmor (s : str) : outcome bytes := dearmor_fuel (S (List.length s)) s.

Lemma pad_to_length (n : nat) (m : bytes) : List.length (pad_to n m) = n.
Proof.
  unfold pad_to. rewrite length_firstn, length_app, repeat_length. lia.
Qed.

Lemma open_seal (key nonce data : bytes) :
  open key nonce (data ++ tag_of key) = Return data.
Proof.
  unfold open, tag_of.
  rewrite length_app, pad_to_length.
  replace (List.length data + 16 <? 16) with false
    by (symmetry; apply Nat.ltb_ge; lia).
  replace (List.length data + 16 - 16) with (List.length data + 0) by lia.
  rewrite skipn_app, firstn_app.
  replace (List.length data + 0 - List.length data) with 0 by lia.
  rewrite Nat.add_0_r, skipn_all, firstn_all. simpl.
  unfold bytes_eqb.
  destruct (list_eq_dec byte_eq_dec (pad_to 16 key) (pad_to 16 key)); [|congruence].
  now rewrite app_nil_r.
Qed.

Lemma open_length (key nonce ct pt : bytes) :
  open key nonce ct = Return pt -> 16 <= List.length ct.
Proof.
  unfold open. destruct (List.length ct <? 16) eqn:E; [discriminate|].
  apply Nat.ltb_ge in E. auto.
Qed.

Lemma text_decode_encode (s : str) : text_decode (text_encode s) = Return s.
Proof.
  unfold text_decode, text_encode. f_equal.
  rewrite map_map. rewrite <- (map_id s) at 2.
  apply map_ext. intros c. apply ascii_of_byte_of_ascii.
Qed.

Lemma dearmor_fuel_armor (raw : bytes) (fuel : nat) :
  List.length raw < fuel -> dearmor_fuel fuel (armor raw) = Return raw.
Proof.
  revert fuel. induction raw as [|b raw IH]; intros fuel Hf.
  - destruct fuel; [lia|reflexivity].
  - destruct fuel as [|fuel]; [lia|]. simpl in Hf.
    cbn [armor dearmor_fuel].
    assert (Hb : exists h l, unletter (letter (Byte.to_nat b / 16)) = Some h
                 /\ unletter (letter (Byte.to_nat b mod 16)) = Some l
                 /\ Byte.of_nat (16 * h + l) = Some b).
    { destruct b; vm_compute; eauto. }
    destruct Hb as (h & l & -> & -> & ->).
    rewrite IH by lia. reflexivity.
Qed.

Lemma armor_length (raw : bytes) : List.length (armor raw) = 2 * List.length raw.
Proof. induction raw; simpl; lia. Qed.

Lemma dearmor_armor (raw : bytes) : dearmor (armor raw) = Return raw.
Proof.
  unfold dearmor. apply dearmor_fuel_armor. rewrite armor_length. lia.
Qed.

Lemma armor_nospace (raw : bytes) : forallb nonspace (armor raw) = true.
Proof.
  induction raw as [|b raw IH]; [reflexivity|].
  cbn [armor forallb]. rewrite IH.
  assert (H : nonspace (letter (Byte.to_nat b / 16))
              && nonspace (letter (Byte.to_nat b mod 16)) = true)
    by (destruct b; vm_compute; reflexivity).
  apply andb_prop in H. destruct H as [-> ->]. reflexivity.
Qed.

#[export] Instance sample : Library := {|
  sha256 := digest;
  sha256_length := pad_to_length 32;
  aesgcm_encrypt := seal;
  aesgcm_decrypt := open;
  aesgcm_encrypt_decrypt := fun key nonce data _ _ =>
    ex_intro _ (data ++ tag_of key) (conj eq_refl (open_seal key nonce data));
  aesgcm_tag := open_length;
  utf8_encode := text_encode;
  utf8_decode := text_decode;
  utf8_decode_encode := text_decode_encode;
  b64encode := armor;
  b64decode := dearmor;
  b64decode_encode := dearmor_armor;
  b64encode_nospace := armor_nospace
|}.

(** An entropy source that counts upwards. *)
Definition counting : entropy :=
  {| source := fun i => match Byte.of_nat (i mod 256) with
                        | Some b => b | None => x00 end;
     cursor := 0 |}.

End SampleLibrary.

(** * Properties *)

Unset Implicit Arguments.

(** ** Text equality *)

Lemma str_eqb_eq (a b : str) : str_eqb a b = true <-> a = b.
Proof.
  revert b. induction a as [|x a IH]; intros [|y b]; simpl; split;
    try congruence; try reflexivity.
  - intros H. apply andb_prop in H. destruct H as [H1 H2].
    apply Ascii.eqb_eq in H1. apply IH in H2. congruence.
  - intros H. injection H as -> ->.
    rewrite Ascii.eqb_refl. now apply IH.
Qed.

Lemma str_eqb_refl (a : str) : str_eqb a a = true.
Proof. now apply str_eqb_eq. Qed.

Lemma str_eqb_neq (a b : str) : str_eqb a b = false <-> a <> b.
Proof.
  split.
  - intros H E. apply str_eqb_eq in E. congruence.
  - intros H. destruct (str_eqb a b) eqn:E; [|reflexivity].
    apply str_eqb_eq in E. contradiction.
Qed.

(** ** Parsing replaces what the File held (C10) *)

Module ParseFacts.
Import JDATFile.

(** The block that [block_of_match] returns when [int()] accepts the
    kind. *)
Definition built (m : caps) : JDATBlock.t :=
  JDATBlock.__init__ (group_text m 1) (group_text m 2)
    (int_of_digits (group_text m 3)) (group_text m 5)
    (match group m 4 with
     | Some ((_ :: _) as x) => str_eqb x (lit "encrypted")
     | _ => false
     end).

Definition accepted (m : caps) : bool := int_accepts (group_text m 3).

(** The matches before the first one whose kind [int()] refuses. *)
Fixpoint kept (ms : list caps) : list caps :=
  match ms with
  | [] => []
  | m :: ms' => if accepted m then m :: kept ms' else []
  end.

(** What [_parse] extracts from a text, whatever the File held before:
    every block of a text whose kinds all convert, and every comment. *)
Definition extracted_blocks (text : str) : list JDATBlock.t :=
  map built (finditer block_pattern text).

Definition extracted_comments (text : str) : list str :=
  map (fun m => strip (group_text m 1)) (finditer comment_pattern text).

(** Every kind of the text has at most 4300 digits. *)
Definition converts (text : str) : bool :=
  forallb accepted (finditer block_pattern text).

(** The path [load] reads: [if path: self.path = Path(path)]. *)
Definition target (f : t) (p : option str) : option str :=
  match p with
  | Some ((_ :: _) as x) => Some x
  | _ => path f
  end.

Lemma block_of_match_eq (m : caps) :
  block_of_match m
  = if accepted m then Return (built m)
    else Raise (int_limit_error (group_text m 3)).
Proof.
  unfold block_of_match, accepted, built, int_from_str, Py.bind.
  destruct (int_accepts (group_text m 3)); reflexivity.
Qed.

Lemma fold_append_comments (ms : list caps) (f : t) :
  fold_left (fun f m => set_comments f (comments f ++ [strip (group_text m 1)])) ms f
  = set_comments f (comments f ++ map (fun m => strip (group_text m 1)) ms).
Proof.
  revert f. induction ms as [|m ms IH]; intros f; simpl.
  - rewrite app_nil_r. now destruct f.
  - rewrite IH. unfold set_comments. simpl. now rewrite <- app_assoc.
Qed.

Lemma append_blocks_state (ms : list caps) (f : t) :
  snd (append_blocks ms f) = set_blocks f (blocks f ++ map built (kept ms)).
Proof.
  revert f. induction ms as [|m ms IH]; intros f; cbn [append_blocks kept].
  - cbn [snd map]. rewrite app_nil_r. now destruct f.
  - rewrite block_of_match_eq. destruct (accepted m).
    + rewrite IH. unfold set_blocks. cbn [path blocks comments map].
      now rewrite <- app_assoc.
    + cbn [snd map]. rewrite app_nil_r. now destruct f.
Qed.

Lemma append_blocks_result (ms : list caps) (f : t) :
  fst (append_blocks ms f)
  = match find (fun m => negb (accepted m)) ms with
    | None => Return tt
    | Some m => Raise (int_limit_error (group_text m 3))
    end.
Proof.
  revert f. induction ms as [|m ms IH]; intros f; cbn [append_blocks find].
  - reflexivity.
  - rewrite block_of_match_eq. destruct (accepted m); cbn [negb]; [apply IH|reflexivity].
Qed.

Lemma kept_all (ms : list caps) : forallb accepted ms = true -> kept ms = ms.
Proof.
  induction ms as [|m ms IH]; [reflexivity|]. cbn [forallb kept].
  intros H. apply andb_prop in H. destruct H as [-> H]. now rewrite IH.
Qed.

Lemma find_refused (ms : list caps) :
  find (fun m => negb (accepted m)) ms = None <-> forallb accepted ms = true.
Proof.
  induction ms as [|m ms IH]; [now split|]. cbn [find forallb].
  destruct (accepted m); cbn [negb andb]; [exact IH|split; discriminate].
Qed.

Lemma kept_prefix (ms : list caps) : exists rest, ms = kept ms ++ rest.
Proof.
  induction ms as [|m ms [rest IH]]; [now exists []|]. cbn [kept].
  destruct (accepted m).
  - exists rest. cbn [app]. now rewrite <- IH.
  - now exists (m :: ms).
Qed.

(** The File that [_parse] leaves, whether it returns or raises. *)
Lemma parse_state (f : t) (text : str) :
  snd (_parse f text)
  = mk (path f) (map built (kept (finditer block_pattern text)))
       (extracted_comments text).
Proof.
  unfold _parse. rewrite append_blocks_state, fold_append_comments. reflexivity.
Qed.

Lemma parse_result (f : t) (text : str) :
  fst (_parse f text)
  = match find (fun m => negb (accepted m)) (finditer block_pattern text) with
    | None => Return tt
    | Some m => Raise (int_limit_error (group_text m 3))
    end.
Proof. unfold _parse. apply append_blocks_result. Qed.

Lemma parse_returns (f : t) (text : str) :
  fst (_parse f text) = Return tt <-> converts text = true.
Proof.
  rewrite parse_result. unfold converts. rewrite <- find_refused.
  destruct (find _ _); split; congruence.
Qed.

Lemma parse_eq (f : t) (text : str) :
  converts text = true ->
  _parse f text
  = (Return tt, mk (path f) (extracted_blocks text) (extracted_comments text)).
Proof.
  intros H. rewrite (surjective_pairing (_parse f text)). f_equal.
  - now apply parse_returns.
  - rewrite parse_state. unfold converts in H. now rewrite (kept_all _ H).
Qed.

Lemma set_path_same (f : t) (x : str) : path f = Some x -> set_path f (Some x) = f.
Proof. destruct f. cbn. now intros ->. Qed.

Lemma load_path (f : t) (p : option str) :
  match p with
  | Some ((_ :: _) as x) => set_path f (Some x)
  | _ => f
  end = set_path f (target f p).
Proof.
  unfold target. destruct p as [[|c x]|]; try reflexivity; now destruct f.
Qed.

End ParseFacts.

(** C10.  [_parse] first empties the File's block and comment lists:
    whatever the File held before, [_parse] returns or raises as it does
    on a new, empty File and leaves the same blocks and comments, which
    are exactly the blocks and comments extracted from the text when it
    returns (when [int()] refuses a kind and [_parse] raises, the blocks
    extracted before that kind, and every comment).  [load] on a readable file does that with the text found at
    the path: the lists the File held are gone, also when [int()] makes
    [_parse] raise.  A [load] that finds no path or no file, or cannot
    read it, raises before parsing and leaves both lists as they
    were. *)
Theorem parse_discards_previous_state
  (f : JDATFile.t) (text : str) (p : option str) (fs : JDATFile.filesys) :
  let fresh := JDATFile._parse (JDATFile.__init__ None) text in
  (fst (JDATFile._parse f text) = fst fresh
   /\ JDATFile.blocks (snd (JDATFile._parse f text)) = JDATFile.blocks (snd fresh)
   /\ JDATFile.comments (snd (JDATFile._parse f text)) = JDATFile.comments (snd fresh)
   /\ JDATFile.path (snd (JDATFile._parse f text)) = JDATFile.path f
   /\ JDATFile.comments (snd fresh) = ParseFacts.extracted_comments text
   /\ (fst fresh = Return tt ->
       JDATFile.blocks (snd fresh) = ParseFacts.extracted_blocks text)
   /\ exists rest,
       ParseFacts.extracted_blocks text = JDATFile.blocks (snd fresh) ++ rest)
  /\ (forall x,
        ParseFacts.target f p = Some x -> fs x = Some (Return text) ->
        fst (JDATFile.load f p fs) = fst fresh
        /\ JDATFile.path (snd (JDATFile.load f p fs)) = Some x
        /\ JDATFile.blocks (snd (JDATFile.load f p fs)) = JDATFile.blocks (snd fresh)
        /\ JDATFile.comments (snd (JDATFile.load f p fs))
           = JDATFile.comments (snd fresh))
  /\ (ParseFacts.target f p = None
      \/ (exists x, ParseFacts.target f p = Some x
                    /\ (fs x = None \/ exists e, fs x = Some (Raise e))) ->
      (exists e, fst (JDATFile.load f p fs) = Raise e)
      /\ JDATFile.blocks (snd (JDATFile.load f p fs)) = JDATFile.blocks f
      /\ JDATFile.comments (snd (JDATFile.load f p fs)) = JDATFile.comments f).
Proof.
  cbv zeta. split; [|split].
  - rewrite !ParseFacts.parse_result, !ParseFacts.parse_state.
    cbn [JDATFile.blocks JDATFile.comments JDATFile.path].
    repeat split.
    + intros H. unfold ParseFacts.extracted_blocks.
      rewrite ParseFacts.kept_all; [reflexivity|].
      apply ParseFacts.find_refused.
      destruct (find _ _); [discriminate|reflexivity].
    + unfold ParseFacts.extracted_blocks.
      destruct (ParseFacts.kept_prefix (finditer JDATFile.block_pattern text))
        as [rest E].
      exists (map ParseFacts.built rest). rewrite <- map_app. now rewrite <- E.
  - intros x Hx Hr. unfold JDATFile.load. rewrite ParseFacts.load_path, Hx.
    cbn [JDATFile.path JDATFile.set_path]. rewrite Hr.
    rewrite !ParseFacts.parse_result, !ParseFacts.parse_state.
    cbn [JDATFile.blocks JDATFile.comments JDATFile.path]. auto.
  - intros H. unfold JDATFile.load. rewrite ParseFacts.load_path.
    destruct H as [Hn | (x & Hx & Hf)].
    + rewrite Hn. cbn [JDATFile.path JDATFile.set_path fst snd
                       JDATFile.blocks JDATFile.comments].
      split; [eexists; reflexivity|]. now destruct (JDATFile.path f).
    + rewrite Hx. cbn [JDATFile.path JDATFile.set_path].
      destruct Hf as [Hf | [e Hf]]; rewrite Hf;
        cbn [fst snd JDATFile.blocks JDATFile.comments];
        (split; [eexists; reflexivity|split; reflexivity]).
Qed.

Lemma parse_discards_previous_state_witness :
  let old := JDATFile.mk None
               [JDATBlock.__init__ (lit "old") (lit "o") 0 (lit "x") false]
               [lit "kept?"] in
  let fs := fun x => if str_eqb x (lit "a.jdat")
                     then Some (Return (lit "({< new >}) (n:new l:n t:2{y})"))
                     else None in
  JDATFile.blocks (snd (JDATFile.load old (Some (lit "a.jdat")) fs))
  = [JDATBlock.__init__ (lit "new") (lit "n") 2 (lit "y") false]
  /\ JDATFile.comments (snd (JDATFile.load old (Some (lit "a.jdat")) fs))
     = [lit "new"]
  /\ JDATFile.blocks (snd (JDATFile.load old (Some (lit "b.jdat")) fs))
     = JDATFile.blocks old.
Proof.
  cbv zeta.
  pose proof (proj1 (proj2 (parse_discards_previous_state
                (JDATFile.mk None
                   [JDATBlock.__init__ (lit "old") (lit "o") 0 (lit "x") false]
                   [lit "kept?"])
                (lit "({< new >}) (n:new l:n t:2{y})") (Some (lit "a.jdat"))
                (fun x => if str_eqb x (lit "a.jdat")
                          then Some (Return (lit "({< new >}) (n:new l:n t:2{y})"))
                          else None)))
              (lit "a.jdat") eq_refl eq_refl) as (_ & _ & Hb & Hc).
  split; [rewrite Hb; reflexivity|]. split; [rewrite Hc; reflexivity|].
  apply (proj2 (proj2 (parse_discards_previous_state
                         (JDATFile.mk None
                            [JDATBlock.__init__ (lit "old") (lit "o") 0 (lit "x") false]
                            [lit "kept?"])
                         [] (Some (lit "b.jdat"))
                         (fun x => if str_eqb x (lit "a.jdat")
                                   then Some (Return (lit "({< new >}) (n:new l:n t:2{y})"))
                                   else None)))).
  right. exists (lit "b.jdat"). split; [reflexivity|]. left. reflexivity.
Defined.

(** ** The registry's cipher operations *)

Module RegistryFacts.
Import JDATFile JDATCrypto.

(** A call signals an error when it raises. *)
Definition signals_error {A} (o : outcome A) : Prop := exists e, o = Raise e.

Lemma find_store_same (bs : list JDATBlock.t) (link : str) (b b' : JDATBlock.t) :
  find_by_link bs link = Some b ->
  JDATBlock.link b' = JDATBlock.link b ->
  find_by_link (store_by_link bs link b') link = Some b'.
Proof.
  induction bs as [|a bs IH]; simpl; [discriminate|].
  destruct (str_eqb (JDATBlock.link a) link) eqn:E; intros H Hl.
  - injection H as ->. simpl. rewrite Hl, E. reflexivity.
  - simpl. rewrite E. now apply IH.
Qed.

(** A one-block File read from text, used in the examples below. *)
Definition file_of (text : string) : t := snd (_parse (__init__ None) (lit text)).

End RegistryFacts.

(** C3, as the code has it.  When no block has the given link,
    [encrypt_block] and [decrypt_block] return [False]: they raise
    nothing, draw no entropy and leave the File as it was. *)
Theorem absent_link_returns_false
  {L : JDATCrypto.Library} (f : JDATFile.t) (link password : str)
  (e : JDATCrypto.entropy) :
  JDATFile.get_by_link f link = None ->
  JDATFile.encrypt_block f link password e = (Return false, f, e)
  /\ JDATFile.decrypt_block f link password = (Return false, f).
Proof.
  intros H. unfold JDATFile.encrypt_block, JDATFile.decrypt_block.
  rewrite H. auto.
Qed.

Lemma absent_link_returns_false_witness :
  let f := RegistryFacts.file_of "(n:a l:b t:2{x})" in
  JDATFile.get_by_link f (lit "zz") = None
  /\ JDATFile.encrypt_block (L := SampleLibrary.sample) f (lit "zz") (lit "pw")
       SampleLibrary.counting = (Return false, f, SampleLibrary.counting)
  /\ JDATFile.decrypt_block (L := SampleLibrary.sample) f (lit "zz") (lit "pw")
     = (Return false, f).
Proof.
  cbv zeta. split; [reflexivity|].
  apply (absent_link_returns_false (L := SampleLibrary.sample)).
  reflexivity.
Defined.

(** C3 as stated fails: on a File without a block linked [zz] neither
    operation signals an error. *)
Lemma absent_link_no_error :
  let f := RegistryFacts.file_of "(n:a l:b t:2{x})" in
  JDATFile.get_by_link f (lit "zz") = None
  /\ ~ RegistryFacts.signals_error
       (fst (fst (JDATFile.encrypt_block (L := SampleLibrary.sample)
                    f (lit "zz") (lit "pw") SampleLibrary.counting)))
  /\ ~ RegistryFacts.signals_error
       (fst (JDATFile.decrypt_block (L := SampleLibrary.sample)
               f (lit "zz") (lit "pw"))).
Proof.
  cbv zeta. split; [reflexivity|].
  split; intros [e He]; vm_compute in He; discriminate He.
Qed.

(** ** Structural access to an encrypted block (C5) *)

(** C5, as the code has it.  [parse_data] and [get] never look at the
    encrypted flag and signal nothing: on an encrypted block they return
    what they return on the same block with the flag cleared.  That is
    the empty mapping for a block whose kind is not 1, cache or not
    (the kind is tested first, and the block is left as it is); for kind
    1 the cached view when there is one; otherwise the key/value lines
    parsed from [content], which then fill the cache.  [get] looks the
    key up in that mapping. *)
Theorem structural_access_ignores_encrypted
  (b : JDATBlock.t) (key : str) (default : option str) :
  let clear := JDATBlock.set_encrypted b false in
  fst (JDATBlock.parse_data b) = fst (JDATBlock.parse_data clear)
  /\ fst (JDATBlock.get b key default) = fst (JDATBlock.get clear key default)
  /\ JDATBlock._data (snd (JDATBlock.parse_data b))
     = JDATBlock._data (snd (JDATBlock.parse_data clear))
  /\ JDATBlock.encrypted (snd (JDATBlock.parse_data b)) = JDATBlock.encrypted b
  /\ (JDATBlock.type b <> 1%Z -> JDATBlock.parse_data b = ([], b))
  /\ (JDATBlock.type b = 1%Z -> forall d, JDATBlock._data b = Some d ->
      JDATBlock.parse_data b = (d, b))
  /\ (JDATBlock.type b = 1%Z -> JDATBlock._data b = None ->
      JDATBlock.parse_data b
      = (JDATBlock.parse_content (JDATBlock.content b),
         JDATBlock.set_data b
           (Some (JDATBlock.parse_content (JDATBlock.content b)))))
  /\ fst (JDATBlock.get b key default)
     = match JDATBlock.dict_get (fst (JDATBlock.parse_data b)) key with
       | Some v => Some v
       | None => default
       end.
Proof.
  cbv zeta. unfold JDATBlock.get, JDATBlock.parse_data, JDATBlock.set_encrypted.
  destruct b as [n l ty c enc [d|]];
    cbn [JDATBlock.type JDATBlock._data JDATBlock.content JDATBlock.encrypted
         JDATBlock.set_data];
    destruct (ty =? 1)%Z eqn:E; cbn [negb fst snd JDATBlock._data JDATBlock.encrypted];
    repeat split; auto; intros H; try discriminate;
    try (apply Z.eqb_eq in E; contradiction);
    try (subst ty; discriminate);
    try (intros d' H'; congruence).
Qed.

Lemma structural_access_ignores_encrypted_witness :
  let b := JDATBlock.__init__ (lit "a") (lit "b") 1 (lit "k: v") true in
  let c := JDATBlock.mk (lit "a") (lit "b") 1 (lit "AAB") true
             (Some [(lit "k", lit "v")]) in
  let r := JDATBlock.mk (lit "a") (lit "b") 2 (lit "k: v") true
             (Some [(lit "k", lit "v")]) in
  fst (JDATBlock.parse_data b) = [(lit "k", lit "v")]
  /\ JDATBlock.parse_data c = ([(lit "k", lit "v")], c)
  /\ JDATBlock.parse_data r = ([], r).
Proof.
  cbv zeta. split; [|split].
  - rewrite (proj1 (proj2 (proj2 (proj2 (proj2 (proj2 (proj2
      (structural_access_ignores_encrypted
         (JDATBlock.__init__ (lit "a") (lit "b") 1 (lit "k: v") true)
         (lit "k") None))))))) eq_refl eq_refl).
    reflexivity.
  - apply (proj1 (proj2 (proj2 (proj2 (proj2 (proj2
      (structural_access_ignores_encrypted
         (JDATBlock.mk (lit "a") (lit "b") 1 (lit "AAB") true
            (Some [(lit "k", lit "v")]))
         (lit "k") None)))))) eq_refl _ eq_refl).
  - apply (proj1 (proj2 (proj2 (proj2 (proj2
      (structural_access_ignores_encrypted
         (JDATBlock.mk (lit "a") (lit "b") 2 (lit "k: v") true
            (Some [(lit "k", lit "v")]))
         (lit "k") None)))))).
    discriminate.
Defined.

(** C5 as stated fails: the block read from this text is encrypted, and
    the structural accessors parse its content as key/value lines and
    return the value, without any error. *)
Lemma encrypted_block_is_parsed :
  let f := RegistryFacts.file_of "(n:a l:b t:1 encrypted{k: v})" in
  exists b,
    JDATFile.get_by_link f (lit "b") = Some b
    /\ JDATBlock.encrypted b = true
    /\ fst (JDATBlock.parse_data b) = [(lit "k", lit "v")]
    /\ fst (JDATBlock.get b (lit "k") None) = Some (lit "v").
Proof.
  cbv zeta. eexists. split; [vm_compute; reflexivity|].
  repeat split; reflexivity.
Qed.

(** ** A failed decryption leaves the block alone (C6) *)

(** C6.  When [decrypt_block] fails with the cipher's error, the File
    is the one it was given: the targeted block is still there, still
    encrypted, with the same content and the same cache. *)
Theorem failed_decrypt_leaves_block
  {L : JDATCrypto.Library} (f f' : JDATFile.t) (link password : str) :
  JDATFile.decrypt_block f link password
  = (Raise (ValueError JDATCrypto.AUTH_MSG), f') ->
  f' = f
  /\ exists b,
      JDATFile.get_by_link f link = Some b
      /\ JDATFile.get_by_link f' link = Some b
      /\ JDATBlock.encrypted b = true
      /\ JDATCrypto.decrypt (JDATBlock.content b) password
         = Raise (ValueError JDATCrypto.AUTH_MSG).
Proof.
  unfold JDATFile.decrypt_block.
  destruct (JDATFile.get_by_link f link) as [b|] eqn:Hb; [|discriminate].
  destruct (JDATBlock.encrypted b) eqn:He; simpl.
  - destruct (JDATCrypto.decrypt (JDATBlock.content b) password) as [c|x] eqn:Hd;
      [discriminate|].
    intros H. injection H as -> ->. split; [reflexivity|].
    exists b. auto.
  - intros H. injection H as H _. discriminate H.
Qed.

Lemma failed_decrypt_leaves_block_witness :
  let f := RegistryFacts.file_of "(n:a l:b t:2 encrypted{AAB})" in
  JDATFile.decrypt_block (L := SampleLibrary.sample) f (lit "b") (lit "pw")
  = (Raise (ValueError JDATCrypto.AUTH_MSG), f)
  /\ exists b,
      JDATFile.get_by_link f (lit "b") = Some b
      /\ JDATBlock.encrypted b = true
      /\ JDATBlock.content b = lit "AAB".
Proof.
  cbv zeta.
  assert (H : JDATFile.decrypt_block (L := SampleLibrary.sample)
                (RegistryFacts.file_of "(n:a l:b t:2 encrypted{AAB})")
                (lit "b") (lit "pw")
              = (Raise (ValueError JDATCrypto.AUTH_MSG),
                 RegistryFacts.file_of "(n:a l:b t:2 encrypted{AAB})"))
    by (vm_compute; reflexivity).
  split; [exact H|].
  destruct (failed_decrypt_leaves_block (L := SampleLibrary.sample) _ _ _ _ H)
    as (_ & b & Hb & _ & He & _).
  exists b. split; [exact Hb|]. split; [exact He|].
  vm_compute in Hb. injection Hb as <-. reflexivity.
Defined.

(** ** The cache after encryption (C4) *)

(** The sibling path: a [decrypt_block] that returns has stored the
    plaintext, cleared the flag and cleared the cache. *)
Lemma decrypt_block_clears_cache
  {L : JDATCrypto.Library} (f f' : JDATFile.t) (link password : str) :
  JDATFile.decrypt_block f link password = (Return true, f') ->
  exists b b',
    JDATFile.get_by_link f link = Some b
    /\ JDATFile.get_by_link f' link = Some b'
    /\ JDATCrypto.decrypt (JDATBlock.content b) password
       = Return (JDATBlock.content b')
    /\ JDATBlock.encrypted b' = false
    /\ JDATBlock._data b' = None.
Proof.
  unfold JDATFile.decrypt_block, JDATFile.get_by_link.
  destruct (JDATFile.find_by_link (JDATFile.blocks f) link) as [b|] eqn:Hb;
    [|discriminate].
  destruct (JDATBlock.encrypted b); simpl; [|discriminate].
  destruct (JDATCrypto.decrypt (JDATBlock.content b) password) as [c|x] eqn:Hd;
    [|discriminate].
  intros H. injection H as <-. eexists. eexists.
  split; [reflexivity|]. split.
  - unfold JDATFile.mutate. cbn [JDATFile.blocks JDATFile.set_blocks].
    apply (RegistryFacts.find_store_same _ _ b); [exact Hb|reflexivity].
  - repeat split. exact Hd.
Qed.

(** C4 fails in [encrypt_block].  A structured block whose view has been
    read keeps that view after it is encrypted: the cache is not
    cleared although [content] is now the ciphertext package, and [get]
    still answers from it.  ([decrypt_block] does clear the cache.) *)
Theorem encrypt_block_keeps_cache
  {L : JDATCrypto.Library} (password : str) (e : JDATCrypto.entropy) :
  let f0 := RegistryFacts.file_of "(n:user l:u1 t:1 {k: v})" in
  let link := lit "u1" in
  exists b0 c f' e' b',
    JDATFile.get_by_link f0 link = Some b0
    /\ JDATFile.encrypt_block
         (JDATFile.mutate f0 link (snd (JDATBlock.parse_data b0)))
         link password e = (Return true, f', e')
    /\ JDATFile.get_by_link f' link = Some b'
    /\ JDATBlock.encrypted b' = true
    /\ fst (JDATCrypto.encrypt (lit "  k: v") password e) = Return c
    /\ JDATBlock.content b' = c
    /\ JDATBlock._data b' = Some [(lit "k", lit "v")]
    /\ fst (JDATBlock.get b' (lit "k") None) = Some (lit "v").
Proof.
  cbv zeta.
  set (b1 := JDATBlock.mk (lit "user") (lit "u1") 1 (lit "k: v") false
               (Some [(lit "k", lit "v")])).
  exists (JDATBlock.mk (lit "user") (lit "u1") 1 (lit "k: v") false None).
  assert (Hc : exists c, fst (JDATCrypto.encrypt (lit "  k: v") password e) = Return c).
  { unfold JDATCrypto.encrypt. simpl.
    destruct (JDATCrypto.aesgcm_encrypt_decrypt
                (JDATCrypto._derive_key password
                   (fst (JDATCrypto.urandom JDATCrypto.SALT_SIZE e)))
                (fst (JDATCrypto.urandom JDATCrypto.NONCE_SIZE
                        (snd (JDATCrypto.urandom JDATCrypto.SALT_SIZE e))))
                (JDATCrypto.utf8_encode (lit "  k: v")))
      as (ct & Hct & _).
    - apply JDATCrypto.sha256_length.
    - simpl. reflexivity.
    - simpl in Hct. rewrite Hct. simpl. eauto. }
  destruct Hc as (c & Hc). exists c.
  assert (Hf : JDATFile.mutate (RegistryFacts.file_of "(n:user l:u1 t:1 {k: v})")
                 (lit "u1")
                 (snd (JDATBlock.parse_data
                         (JDATBlock.mk (lit "user") (lit "u1") 1 (lit "k: v")
                            false None)))
               = JDATFile.mk None [b1] [])
    by (vm_compute; reflexivity).
  rewrite Hf.
  unfold JDATFile.encrypt_block.
  replace (JDATFile.get_by_link (JDATFile.mk None [b1] []) (lit "u1"))
    with (Some b1) by reflexivity.
  cbn [JDATBlock.encrypted JDATBlock.type b1 Z.eqb Pos.eqb].
  replace (JDATBlock.content (JDATBlock._rebuild_content b1))
    with (lit "  k: v") by reflexivity.
  destruct (JDATCrypto.encrypt (lit "  k: v") password e) as [r e1] eqn:Hr.
  simpl in Hc. subst r.
  do 3 eexists. split; [vm_compute; reflexivity|].
  split; [reflexivity|].
  split; [vm_compute; reflexivity|].
  repeat split; reflexivity.
Qed.

(** ** Setting a key twice (C8) *)

Module DictFacts.
Import JDATBlock.



(** A Python [dict] holds each key once. *)
Definition dict_wf (d : dict) : Prop := NoDup (map fst d).

Definition cache_wf (b : t) : Prop :=
  match _data b with Some d => dict_wf d | None => True end.




Lemma dict_set_keys_in (d : dict) (k v x : str) :
  In x (map fst (dict_set d k v)) -> x = k \/ In x (map fst d).
Proof.
  induction d as [|[k' v'] d IH]; simpl.
  - intros [H|[]]. now left.
  - destruct (str_eqb k' k) eqn:E; simpl.
    + intros [H|H]; auto.
    + intros [H|H]; auto. destruct (IH H); auto.
Qed.

Lemma dict_set_wf (d : dict) (k v : str) : dict_wf d -> dict_wf (dict_set d k v).
Proof.
  unfold dict_wf. induction d as [|[k' v'] d IH]; simpl; intros H.
  - constructor; [intros []|constructor].
  - inversion H as [|? ? Hn Hd]; subst.
    destruct (str_eqb k' k) eqn:E; simpl.
    + now constructor.
    + constructor; [|now apply IH].
      intros Hin. apply dict_set_keys_in in Hin. destruct Hin as [->|Hin].
      * rewrite str_eqb_refl in E. discriminate.
      * contradiction.
Qed.





Lemma parse_line_wf (d : dict) (line : str) : dict_wf d -> dict_wf (parse_line d line).
Proof.
  intros H. unfold parse_line. destruct (strip line) as [|c l]; [exact H|].
  destruct (contains_char ":" (c :: l)); [|exact H].
  destruct (partition ":" (c :: l)). now apply dict_set_wf.
Qed.

Lemma parse_content_wf (c : str) : dict_wf (parse_content c).
Proof.
  unfold parse_content.
  assert (H : dict_wf []) by constructor.
  revert H. generalize (@nil (str * str)).
  induction (splitlines (strip c)) as [|l ls IH]; intros d Hd; simpl; [exact Hd|].
  apply IH. now apply parse_line_wf.
Qed.

Lemma parse_data_structured (b : t) :
  type b = 1%Z ->
  exists d, parse_data b = (d, set_data b (Some d))
            /\ (cache_wf b -> dict_wf d).
Proof.
  intros Ht. unfold parse_data, cache_wf. rewrite Ht. simpl.
  destruct (_data b) as [d|] eqn:E.
  - exists d. split; [|auto]. f_equal. destruct b; simpl in *. now subst.
  - eexists. split; [reflexivity|]. intros _. apply parse_content_wf.
Qed.

Lemma set_structured (b : t) (k v : str) (d : dict) :
  type b = 1%Z -> parse_data b = (d, set_data b (Some d)) ->
  set b k v = mk (name b) (link b) 1 (join [NL] (map render_line (dict_set d k v)))
                 (encrypted b) (Some (dict_set d k v)).
Proof.
  intros Ht Hp. unfold set. rewrite Hp.
  unfold _rebuild_content, set_data, set_content. simpl. rewrite Ht. reflexivity.
Qed.

End DictFacts.

(** ** The cipher (C1, C2, C9) *)

Module CryptoFacts.
Import JDATCrypto.

Lemma lstrip_nospace (s : str) : forallb nonspace s = true -> lstrip s = s.
Proof.
  destruct s as [|c s]; simpl; [reflexivity|].
  unfold nonspace at 1. destruct (isspace c); simpl; [discriminate|reflexivity].
Qed.

Lemma forallb_rev {A} (p : A -> bool) (l : list A) :
  forallb p l = true -> forallb p (rev l) = true.
Proof.
  rewrite !forallb_forall. intros H x Hx. apply H. now apply in_rev.
Qed.

(** [strip] leaves a text without white space alone. *)
Lemma strip_nospace (s : str) : forallb nonspace s = true -> strip s = s.
Proof.
  intros H. unfold strip, rstrip.
  rewrite (lstrip_nospace s H).
  rewrite (lstrip_nospace (rev s) (forallb_rev _ _ H)).
  apply rev_involutive.
Qed.

Lemma urandom_length (n : nat) (e : entropy) : List.length (fst (urandom n e)) = n.
Proof. unfold urandom. simpl. now rewrite length_map, length_seq. Qed.

Lemma urandom_cursor (n : nat) (e : entropy) :
  cursor (snd (urandom n e)) = cursor e + n.
Proof. reflexivity. Qed.

Lemma map_seq_from {A} (f : nat -> A) (a m : nat) :
  map f (seq a m) = map (fun i => f (a + i)) (seq 0 m).
Proof.
  revert a. induction m as [|m IH]; intros a; simpl; [reflexivity|].
  f_equal; [f_equal; lia|].
  rewrite IH, <- seq_shift, map_map.
  apply map_ext. intros i. f_equal. lia.
Qed.

(** Drawing [n] bytes and then [m] is drawing [n + m] at once. *)
Lemma urandom_split (n m : nat) (e : entropy) :
  fst (urandom (n + m) e) = fst (urandom n e) ++ fst (urandom m (snd (urandom n e))).
Proof.
  unfold urandom. simpl. rewrite seq_app, map_app. f_equal.
  rewrite map_seq_from. apply map_ext. intros i. f_equal. lia.
Qed.

Lemma firstn_app_exact {A} (a b : list A) (n : nat) :
  List.length a = n -> firstn n (a ++ b) = a.
Proof.
  intros <-. rewrite firstn_app, Nat.sub_diag, firstn_all. simpl.
  apply app_nil_r.
Qed.

Lemma skipn_app_exact {A} (a b : list A) (n : nat) :
  List.length a = n -> skipn n (a ++ b) = b.
Proof.
  intros <-. rewrite skipn_app, Nat.sub_diag, skipn_all. reflexivity.
Qed.

(** The three slices of [decrypt] on a packed blob. *)
Lemma unpack (salt nonce ct : bytes) :
  List.length salt = SALT_SIZE -> List.length nonce = NONCE_SIZE ->
  firstn SALT_SIZE (salt ++ nonce ++ ct) = salt
  /\ firstn NONCE_SIZE (skipn SALT_SIZE (salt ++ nonce ++ ct)) = nonce
  /\ skipn (SALT_SIZE + NONCE_SIZE) (salt ++ nonce ++ ct) = ct.
Proof.
  intros Hs Hn. repeat split.
  - now apply firstn_app_exact.
  - rewrite (skipn_app_exact salt (nonce ++ ct) SALT_SIZE Hs).
    now apply firstn_app_exact.
  - rewrite app_assoc. apply skipn_app_exact.
    rewrite length_app. lia.
Qed.

Section WithLibrary.
Context {L : Library}.

Lemma b64encode_injective (a b : bytes) : b64encode a = b64encode b -> a = b.
Proof.
  intros H. pose proof (b64decode_encode a) as Ha.
  rewrite H, b64decode_encode in Ha. congruence.
Qed.

(** What [encrypt] returns, in terms of the bytes it draws. *)
Lemma encrypt_returns (plaintext password : str) (e : entropy) :
  let salt := fst (urandom SALT_SIZE e) in
  let nonce := fst (urandom NONCE_SIZE (snd (urandom SALT_SIZE e))) in
  let key := _derive_key password salt in
  exists ct,
    aesgcm_encrypt key nonce (utf8_encode plaintext) = Return ct
    /\ aesgcm_decrypt key nonce ct = Return (utf8_encode plaintext)
    /\ encrypt plaintext password e
       = (Return (b64encode (salt ++ nonce ++ ct)),
          snd (urandom NONCE_SIZE (snd (urandom SALT_SIZE e)))).
Proof.
  cbv zeta. unfold encrypt.
  pose proof (urandom_length SALT_SIZE e) as Hs.
  destruct (urandom SALT_SIZE e) as [salt e1]. cbn [fst snd] in *.
  pose proof (urandom_length NONCE_SIZE e1) as Hn.
  destruct (urandom NONCE_SIZE e1) as [nonce e2].
  cbn [fst snd] in *.
  destruct (aesgcm_encrypt_decrypt (_derive_key password salt) nonce
              (utf8_encode plaintext) (sha256_length _) Hn)
    as (ct & Hct & Hdec).
  exists ct. split; [exact Hct|]. split; [exact Hdec|].
  rewrite Hct. reflexivity.
Qed.

(** [decrypt], failure by failure. *)
Lemma decrypt_cases (c password : str) :
  decrypt c password =
  match b64decode (strip c) with
  | Raise _ => Raise (ValueError AUTH_MSG)
  | Return raw =>
      let salt := firstn SALT_SIZE raw in
      let nonce := firstn NONCE_SIZE (skipn SALT_SIZE raw) in
      let ct := skipn (SALT_SIZE + NONCE_SIZE) raw in
      match aesgcm_decrypt (_derive_key password salt) nonce ct with
      | Raise _ => Raise (ValueError AUTH_MSG)
      | Return pt =>
          match utf8_decode pt with
          | Raise _ => Raise (ValueError AUTH_MSG)
          | Return s => Return s
          end
      end
  end.
Proof.
  unfold decrypt, decrypt_try, try_except_raise, Py.bind.
  destruct (b64decode (strip c)) as [raw|x]; [|reflexivity].
  cbv zeta.
  destruct (aesgcm_decrypt _ _ _) as [pt|x]; [|reflexivity].
  destruct (utf8_decode pt); reflexivity.
Qed.

End WithLibrary.
End CryptoFacts.

(** C1.  [encrypt] returns a package, and [decrypt] of that package
    with the same password returns the content, for every content,
    password and state of the entropy source. *)
Theorem decrypt_encrypt_roundtrip
  {L : JDATCrypto.Library} (content password : str) (e : JDATCrypto.entropy) :
  exists c,
    fst (JDATCrypto.encrypt content password e) = Return c
    /\ JDATCrypto.decrypt c password = Return content.
Proof.
  destruct (CryptoFacts.encrypt_returns content password e) as (ct & _ & Hdec & He).
  cbv zeta in He. rewrite He. eexists. split; [reflexivity|].
  rewrite CryptoFacts.decrypt_cases.
  rewrite CryptoFacts.strip_nospace by apply JDATCrypto.b64encode_nospace.
  rewrite JDATCrypto.b64decode_encode. cbv zeta.
  destruct (CryptoFacts.unpack
              (fst (JDATCrypto.urandom JDATCrypto.SALT_SIZE e))
              (fst (JDATCrypto.urandom JDATCrypto.NONCE_SIZE
                      (snd (JDATCrypto.urandom JDATCrypto.SALT_SIZE e))))
              ct)
    as (Hs & Hn & Hc); try apply CryptoFacts.urandom_length.
  rewrite Hs, Hn, Hc, Hdec.
  now rewrite JDATCrypto.utf8_decode_encode.
Qed.

Lemma decrypt_encrypt_roundtrip_witness :
  exists c,
    fst (JDATCrypto.encrypt (L := SampleLibrary.sample)
           (lit "  name: Alice") (lit "secret123") SampleLibrary.counting)
    = Return c
    /\ JDATCrypto.decrypt (L := SampleLibrary.sample) c (lit "secret123")
       = Return (lit "  name: Alice").
Proof.
  apply (decrypt_encrypt_roundtrip (L := SampleLibrary.sample)).
Defined.

(** C2.  [decrypt] has one error: whatever goes wrong inside it (the
    base64 decoding, the tag check of the AEAD, the UTF-8 decoding)
    comes out as the same [ValueError]; a packed blob shorter than salt
    and nonce is refused in that way too; and a text is returned only
    when the AEAD accepted the tag under the key derived from the
    password and the salt of the blob. *)
Theorem decrypt_single_error
  {L : JDATCrypto.Library} (c password : str) :
  (forall x, JDATCrypto.decrypt c password = Raise x
             -> x = ValueError JDATCrypto.AUTH_MSG)
  /\ (forall x, JDATCrypto.decrypt_try c password = Raise x
                -> JDATCrypto.decrypt c password = Raise (ValueError JDATCrypto.AUTH_MSG))
  /\ (forall raw, JDATCrypto.b64decode (strip c) = Return raw ->
                  List.length raw < JDATCrypto.SALT_SIZE + JDATCrypto.NONCE_SIZE ->
                  JDATCrypto.decrypt c password = Raise (ValueError JDATCrypto.AUTH_MSG))
  /\ (forall s, JDATCrypto.decrypt c password = Return s ->
        exists raw pt,
          JDATCrypto.b64decode (strip c) = Return raw
          /\ JDATCrypto.aesgcm_decrypt
               (JDATCrypto._derive_key password (firstn JDATCrypto.SALT_SIZE raw))
               (firstn JDATCrypto.NONCE_SIZE (skipn JDATCrypto.SALT_SIZE raw))
               (skipn (JDATCrypto.SALT_SIZE + JDATCrypto.NONCE_SIZE) raw)
             = Return pt
          /\ JDATCrypto.utf8_decode pt = Return s).
Proof.
  split; [|split; [|split]].
  - unfold JDATCrypto.decrypt, try_except_raise.
    destruct (JDATCrypto.decrypt_try c password); intros x H; congruence.
  - unfold JDATCrypto.decrypt, try_except_raise. intros x ->. reflexivity.
  - intros raw Hraw Hlen. rewrite CryptoFacts.decrypt_cases, Hraw. cbv zeta.
    destruct (JDATCrypto.aesgcm_decrypt _ _ _) as [pt|x] eqn:Hd; [|reflexivity].
    apply JDATCrypto.aesgcm_tag in Hd. rewrite length_skipn in Hd. lia.
  - intros s. rewrite CryptoFacts.decrypt_cases.
    destruct (JDATCrypto.b64decode (strip c)) as [raw|x]; [|discriminate].
    cbv zeta.
    destruct (JDATCrypto.aesgcm_decrypt _ _ _) as [pt|x] eqn:Hd; [|discriminate].
    destruct (JDATCrypto.utf8_decode pt) as [s'|x] eqn:Hu; [|discriminate].
    intros H. injection H as <-. exists raw, pt. auto.
Qed.

Lemma decrypt_single_error_witness :
  let c := lit "AAABACAD" in
  @JDATCrypto.b64decode SampleLibrary.sample (strip c)
  = Return [x00; x01; x02; x03]
  /\ 4 < JDATCrypto.SALT_SIZE + JDATCrypto.NONCE_SIZE
  /\ JDATCrypto.decrypt (L := SampleLibrary.sample) c (lit "pw")
     = Raise (ValueError JDATCrypto.AUTH_MSG).
Proof.
  cbv zeta. split; [reflexivity|]. split; [vm_compute; lia|].
  apply (proj1 (proj2 (proj2
           (decrypt_single_error (L := SampleLibrary.sample)
              (lit "AAABACAD") (lit "pw"))))
           [x00; x01; x02; x03]).
  - reflexivity.
  - vm_compute. lia.
Defined.

(** C9.  Two runs of [encrypt] on the same plaintext with the same
    password give different packages whenever the salt and nonce they
    draw are not both the same; every run draws its own 16 + 12 bytes
    from the entropy source. *)
Theorem fresh_draws_distinct_packages
  {L : JDATCrypto.Library} (plaintext password : str)
  (e1 e2 : JDATCrypto.entropy) (c1 c2 : str) :
  fst (JDATCrypto.encrypt plaintext password e1) = Return c1 ->
  fst (JDATCrypto.encrypt plaintext password e2) = Return c2 ->
  fst (JDATCrypto.urandom (JDATCrypto.SALT_SIZE + JDATCrypto.NONCE_SIZE) e1)
  <> fst (JDATCrypto.urandom (JDATCrypto.SALT_SIZE + JDATCrypto.NONCE_SIZE) e2) ->
  c1 <> c2
  /\ JDATCrypto.cursor (snd (JDATCrypto.encrypt plaintext password e1))
     = JDATCrypto.cursor e1 + (JDATCrypto.SALT_SIZE + JDATCrypto.NONCE_SIZE).
Proof.
  intros H1 H2 Hfresh.
  destruct (CryptoFacts.encrypt_returns plaintext password e1) as (ct1 & _ & _ & E1).
  destruct (CryptoFacts.encrypt_returns plaintext password e2) as (ct2 & _ & _ & E2).
  cbv zeta in E1, E2. rewrite E1 in H1 |- *. rewrite E2 in H2.
  cbn [fst snd] in H1, H2 |- *.
  match type of H1 with Return ?x = _ => assert (c1 = x) by congruence end.
  match type of H2 with Return ?x = _ => assert (c2 = x) by congruence end.
  subst c1 c2. clear H1 H2.
  split.
  - intros Heq. apply CryptoFacts.b64encode_injective in Heq.
    apply Hfresh. rewrite !CryptoFacts.urandom_split.
    apply (f_equal (firstn (JDATCrypto.SALT_SIZE + JDATCrypto.NONCE_SIZE))) in Heq.
    rewrite !app_assoc in Heq.
    rewrite !CryptoFacts.firstn_app_exact in Heq
      by (rewrite length_app, !CryptoFacts.urandom_length; reflexivity).
    exact Heq.
  - rewrite !CryptoFacts.urandom_cursor. lia.
Qed.

Lemma fresh_draws_distinct_packages_witness :
  let e1 := SampleLibrary.counting in
  let r1 := JDATCrypto.encrypt (L := SampleLibrary.sample) (lit "x") (lit "pw") e1 in
  let r2 := JDATCrypto.encrypt (L := SampleLibrary.sample) (lit "x") (lit "pw") (snd r1) in
  exists c1 c2, fst r1 = Return c1 /\ fst r2 = Return c2 /\ c1 <> c2.
Proof.
  cbv zeta. eexists. eexists.
  split; [vm_compute; reflexivity|]. split; [vm_compute; reflexivity|].
  eapply (proj1 (fresh_draws_distinct_packages (L := SampleLibrary.sample)
                   (lit "x") (lit "pw") SampleLibrary.counting
                   (snd (JDATCrypto.encrypt (L := SampleLibrary.sample)
                           (lit "x") (lit "pw") SampleLibrary.counting))
                   _ _ ltac:(vm_compute; reflexivity) ltac:(vm_compute; reflexivity)
                   ltac:(vm_compute; discriminate))).
Defined.

(** ** The matcher on the block pattern *)

Module ReFacts.

(** The longest run of [p] at the head of a text, and what follows. *)
Fixpoint takewhile (p : ascii -> bool) (s : str) : str :=
  match s with
  | c :: s' => if p c then c :: takewhile p s' else []
  | [] => []
  end.

Fixpoint dropwhile (p : ascii -> bool) (s : str) : str :=
  match s with
  | c :: s' => if p c then dropwhile p s' else s
  | [] => []
  end.

Lemma take_drop (p : ascii -> bool) (s : str) :
  takewhile p s ++ dropwhile p s = s.
Proof.
  induction s as [|c s IH]; simpl; [reflexivity|].
  destruct (p c); simpl; [now rewrite IH|reflexivity].
Qed.

Lemma takewhile_all (p : ascii -> bool) (s : str) :
  forallb p (takewhile p s) = true.
Proof.
  induction s as [|c s IH]; simpl; [reflexivity|].
  destruct (p c) eqn:E; simpl; [now rewrite E|reflexivity].
Qed.

Lemma takewhile_app (p : ascii -> bool) (a b : str) :
  forallb p a = true ->
  match b with [] => True | c :: _ => p c = false end ->
  takewhile p (a ++ b) = a /\ dropwhile p (a ++ b) = b.
Proof.
  intros Ha Hb. induction a as [|x a IH]; simpl.
  - destruct b as [|c b]; simpl; [auto|]. now rewrite Hb.
  - simpl in Ha. apply andb_prop in Ha. destruct Ha as [Hx Ha].
    rewrite Hx. destruct (IH Ha) as [-> ->]. auto.
Qed.

Lemma dropwhile_idem (p : ascii -> bool) (s : str) :
  dropwhile p (dropwhile p s) = dropwhile p s.
Proof.
  induction s as [|c s IH]; simpl; [reflexivity|].
  destruct (p c) eqn:E; [exact IH|]. simpl. now rewrite E.
Qed.

Lemma consumed {A} (a b : list A) :
  firstn (List.length (a ++ b) - List.length b) (a ++ b) = a.
Proof.
  rewrite length_app.
  replace (List.length a + List.length b - List.length b) with (List.length a) by lia.
  now apply CryptoFacts.firstn_app_exact.
Qed.

Lemma strip_prefix_split (p s s' : str) : strip_prefix p s = Some s' -> s = p ++ s'.
Proof.
  revert s. induction p as [|x p IH]; intros s; simpl.
  - congruence.
  - destruct s as [|y s]; [discriminate|].
    destruct (Ascii.eqb x y) eqn:E; [|discriminate].
    apply Ascii.eqb_eq in E. subst y. intros H. now rewrite (IH _ H).
Qed.

Lemma strip_prefix_app (p s : str) : strip_prefix p (p ++ s) = Some s.
Proof.
  induction p as [|x p IH]; simpl; [reflexivity|].
  now rewrite Ascii.eqb_refl.
Qed.

(** A literal that starts outside a class cannot start at a character
    of the class. *)
Lemma strip_prefix_class (p : ascii -> bool) (x c : ascii) (l s : str) :
  p x = false -> p c = true -> strip_prefix (x :: l) (c :: s) = None.
Proof.
  intros Hx Hc. simpl. destruct (Ascii.eqb x c) eqn:E; [|reflexivity].
  apply Ascii.eqb_eq in E. congruence.
Qed.

Section Greedy.
Variable R : Type.

(** A greedy repetition whose continuation gains nothing from giving
    characters back takes the whole run. *)
Lemma rep_greedy_run (cls : ascii -> bool) (min : nat) (s : str)
      (k : str -> option R) :
  (forall c s', cls c = true ->
     k (c :: s') = None \/ k (c :: s') = k (dropwhile cls s')) ->
  rep_greedy cls min s k
  = if min <=? List.length (takewhile cls s) then k (dropwhile cls s) else None.
Proof.
  intros Hk. revert min. induction s as [|c s IH]; intros min.
  - simpl. now destruct min.
  - cbn [rep_greedy takewhile dropwhile]. destruct (cls c) eqn:Hc.
    + rewrite IH. destruct min as [|m]; simpl.
      * destruct (k (dropwhile cls s)) eqn:E; [reflexivity|].
        destruct (Hk c s Hc) as [H|H]; congruence.
      * destruct (m <=? List.length (takewhile cls s)); [|reflexivity].
        now destruct (k (dropwhile cls s)).
    + simpl. now destruct min.
Qed.

(** The lazy [.*?] stops at the first place where the continuation
    succeeds. *)
Fixpoint first_success (k : str -> option R) (s : str) : option R :=
  match k s with
  | Some r => Some r
  | None => match s with [] => None | _ :: s' => first_success k s' end
  end.

Lemma rep_lazy_any (s : str) (k : str -> option R) :
  rep_lazy any 0 s k = first_success k s.
Proof.
  induction s as [|c s IH]; simpl; [now destruct (k [])|].
  destruct (k (c :: s)); [reflexivity|]. apply IH.
Qed.
End Greedy.
Arguments first_success {R} k s.

(** Every match reported by [finditer] is a match of the pattern at some
    place of the text. *)
Lemma finditer_from_Forall (r : regex) (P : caps -> Prop) :
  (forall s g rest, match_at r s = Some (g, rest) -> P g) ->
  forall s skip, Forall P (finditer_from r s skip).
Proof.
  intros H s. induction s as [|c s IH]; intros skip; simpl; [constructor|].
  destruct skip as [|n]; [|apply IH].
  destruct (match_at r (c :: s)) as [[g rest]|] eqn:E; [|apply IH].
  constructor; [now apply (H _ _ _ E)|apply IH].
Qed.

Lemma finditer_from_skip (r : regex) (a b : str) :
  finditer_from r (a ++ b) (List.length a) = finditer_from r b 0.
Proof. induction a as [|c a IH]; simpl; [now destruct b|exact IH]. Qed.

(** A match that covers [w] is reported, and the search goes on after it. *)
Lemma finditer_from_match (r : regex) (c : ascii) (w rest : str) (g : caps) :
  match_at r (c :: w ++ rest) = Some (g, rest) ->
  finditer_from r (c :: w ++ rest) 0 = g :: finditer_from r rest 0.
Proof.
  intros H. cbn [finditer_from]. rewrite H. f_equal.
  replace (List.length (c :: w ++ rest) - List.length rest - 1) with (List.length w)
    by (change (List.length (c :: w ++ rest)) with (S (List.length (w ++ rest)));
        rewrite length_app; lia).
  apply finditer_from_skip.
Qed.

Lemma finditer_from_miss (r : regex) (c : ascii) (s : str) :
  match_at r (c :: s) = None ->
  finditer_from r (c :: s) 0 = finditer_from r s 0.
Proof. intros H. cbn [finditer_from]. now rewrite H. Qed.

End ReFacts.

Module BlockMatch.
Import JDATFile ReFacts.

Definition result := option (caps * str).

(** The continuation of a whole match. *)
Definition k0 : str -> caps -> result := fun s' g => Some (g, s').

(** The text up to the first [})], and what follows it. *)
Fixpoint find_close (s : str) : option (str * str) :=
  match strip_prefix (lit "})") s with
  | Some rest => Some ([], rest)
  | None =>
      match s with
      | [] => None
      | c :: s' =>
          match find_close s' with
          | Some (a, rest) => Some (c :: a, rest)
          | None => None
          end
      end
  end.

Definition body (s : str) (g : caps) : result :=
  match find_close s with
  | Some (c, rest) => Some ((5, c) :: g, rest)
  | None => None
  end.

Definition brace (s : str) (g : caps) : result :=
  match strip_prefix (lit "{") s with
  | Some s' => body s' g
  | None => None
  end.

Definition flag (s : str) (g : caps) : result :=
  match strip_prefix (lit "encrypted") s with
  | Some s' =>
      match brace (dropwhile isspace s') ((4, lit "encrypted") :: g) with
      | Some r => Some r
      | None => brace (dropwhile isspace s) g
      end
  | None => brace (dropwhile isspace s) g
  end.

Definition field (cls : ascii -> bool) (i : nat) (s : str) (g : caps)
           (next : str -> caps -> result) : result :=
  if 1 <=? List.length (takewhile cls s)
  then next (dropwhile cls s) ((i, takewhile cls s) :: g)
  else None.

Definition gap (s : str) (g : caps) (next : str -> caps -> result) : result :=
  if 1 <=? List.length (takewhile isspace s)
  then next (dropwhile isspace s) g
  else None.

Definition literal (l : str) (s : str) (g : caps)
           (next : str -> caps -> result) : result :=
  match strip_prefix l s with
  | Some s' => next s' g
  | None => None
  end.

(** The block pattern without backtracking: each field is the longest
    run of its class, the content ends at the first [})]. *)
Definition block_direct (s : str) : result :=
  literal (lit "(n:") s [] (fun s g =>
  field nonspace 1 s g (fun s g =>
  gap s g (fun s g =>
  literal (lit "l:") s g (fun s g =>
  field nonspace 2 s g (fun s g =>
  gap s g (fun s g =>
  literal (lit "t:") s g (fun s g =>
  field isdigit 3 s g (fun s g =>
  flag (dropwhile isspace s) g)))))))).

Lemma isspace_not_digit (c : ascii) : isdigit c = true -> isspace c = false.
Proof.
  unfold isdigit, isspace. intros H. apply andb_prop in H. destruct H as [H1 H2].
  apply Nat.leb_le in H1. apply Nat.leb_le in H2.
  repeat match goal with
         | |- context [?a <=? ?b] =>
             let E := fresh in destruct (a <=? b) eqn:E;
             [apply Nat.leb_le in E|apply Nat.leb_gt in E]
         | |- context [?a =? ?b] =>
             let E := fresh in destruct (a =? b) eqn:E;
             [apply Nat.eqb_eq in E|apply Nat.eqb_neq in E]
         end; simpl; try reflexivity; lia.
Qed.

Section Steps.
Variable rest_r : regex.
Variable next : str -> caps -> result.
Hypothesis run_rest : forall s g, run rest_r s g k0 = next s g.

Lemma run_literal (l s : str) (g : caps) :
  run (Lit l ;; rest_r) s g k0 = literal l s g next.
Proof.
  unfold literal. cbn [run]. destruct (strip_prefix l s); [apply run_rest|reflexivity].
Qed.

Lemma run_field (cls : ascii -> bool) (i : nat) (s : str) (g : caps) :
  (forall c s' g', cls c = true -> next (c :: s') g' = None) ->
  run (Group i (Rep cls 1 true) ;; rest_r) s g k0 = field cls i s g next.
Proof.
  intros Hn. unfold field. cbn [run].
  rewrite rep_greedy_run.
  - destruct (1 <=? List.length (takewhile cls s)); [|reflexivity].
    rewrite run_rest. do 3 f_equal.
    rewrite <- (take_drop cls s) at 1 3. apply consumed.
  - intros c s' Hc. left. rewrite run_rest. now apply Hn.
Qed.

Lemma run_gap (s : str) (g : caps) :
  (forall c s' g', isspace c = true -> next (c :: s') g' = None) ->
  run (Rep isspace 1 true ;; rest_r) s g k0 = gap s g next.
Proof.
  intros Hn. unfold gap. cbn [run].
  rewrite rep_greedy_run.
  - destruct (1 <=? List.length (takewhile isspace s)); [|reflexivity].
    apply run_rest.
  - intros c s' Hc. left. rewrite run_rest. now apply Hn.
Qed.

Lemma run_spaces (s : str) (g : caps) :
  (forall c s' g', isspace c = true ->
     next (c :: s') g' = None \/ next (c :: s') g' = next (dropwhile isspace s') g') ->
  run (Rep isspace 0 true ;; rest_r) s g k0 = next (dropwhile isspace s) g.
Proof.
  intros Hn. cbn [run].
  rewrite rep_greedy_run.
  - cbn [Nat.leb]. apply run_rest.
  - intros c s' Hc. rewrite !run_rest. now apply Hn.
Qed.

Lemma run_optional (i : nat) (l s : str) (g : caps) :
  run (Opt (Group i (Lit l)) ;; rest_r) s g k0
  = match strip_prefix l s with
    | Some s' =>
        match next s' ((i, l) :: g) with
        | Some r => Some r
        | None => next s g
        end
    | None => next s g
    end.
Proof.
  cbn [run].
  destruct (strip_prefix l s) as [s'|] eqn:E.
  - rewrite !run_rest.
    rewrite (strip_prefix_split _ _ _ E), consumed. reflexivity.
  - apply run_rest.
Qed.
End Steps.

Lemma first_success_close (pre s : str) (g : caps) :
  first_success
    (fun s' =>
       match strip_prefix (lit "})") s' with
       | Some s'' =>
           k0 s'' ((5, firstn (List.length (pre ++ s) - List.length s') (pre ++ s)) :: g)
       | None => None
       end) s
  = match find_close s with
    | Some (c, rest) => Some ((5, pre ++ c) :: g, rest)
    | None => None
    end.
Proof.
  revert pre. induction s as [|x s IH]; intros pre.
  - reflexivity.
  - cbn [first_success find_close].
    destruct (strip_prefix (lit "})") (x :: s)) as [rest|] eqn:E.
    + unfold k0. rewrite consumed, app_nil_r. reflexivity.
    + replace (pre ++ x :: s) with ((pre ++ [x]) ++ s)
        by (rewrite <- app_assoc; reflexivity).
      rewrite IH. destruct (find_close s) as [[a rest]|]; [|reflexivity].
      rewrite <- app_assoc. reflexivity.
Qed.

Definition r_body : regex := Group 5 (Rep any 0 false) ;; Lit (lit "})").

Lemma run_body (s : str) (g : caps) : run r_body s g k0 = body s g.
Proof.
  unfold r_body, body. cbn [run]. rewrite rep_lazy_any.
  apply (first_success_close [] s g).
Qed.

Lemma run_brace (s : str) (g : caps) :
  run (Lit (lit "{") ;; r_body) s g k0 = brace s g.
Proof. apply (run_literal r_body body run_body). Qed.

Lemma brace_space (c : ascii) (s : str) (g : caps) :
  isspace c = true -> brace (c :: s) g = None.
Proof.
  intros H. unfold brace, lit.
  cbn [list_ascii_of_string]. now rewrite (strip_prefix_class isspace "{" c [] s).
Qed.

Definition r_ws2 : regex := Rep isspace 0 true ;; Lit (lit "{") ;; r_body.

Lemma run_ws2 (s : str) (g : caps) :
  run r_ws2 s g k0 = brace (dropwhile isspace s) g.
Proof.
  apply (run_spaces (Lit (lit "{") ;; r_body) brace run_brace).
  intros c s' g' Hc. left. now apply brace_space.
Qed.

Definition r_flag : regex := Opt (Group 4 (Lit (lit "encrypted"))) ;; r_ws2.

Lemma run_flag (s : str) (g : caps) : run r_flag s g k0 = flag s g.
Proof.
  apply (run_optional r_ws2 (fun s g => brace (dropwhile isspace s) g) run_ws2).
Qed.

Lemma flag_space (c : ascii) (s : str) (g : caps) :
  isspace c = true ->
  flag (c :: s) g = None \/ flag (c :: s) g = flag (dropwhile isspace s) g.
Proof.
  intros Hc.
  assert (Hf : flag (c :: s) g = brace (dropwhile isspace s) g).
  { unfold flag, lit. cbn [list_ascii_of_string].
    rewrite (strip_prefix_class isspace "e" c _ s eq_refl Hc).
    cbn [dropwhile]. now rewrite Hc. }
  rewrite Hf. unfold flag. rewrite dropwhile_idem.
  destruct (strip_prefix (lit "encrypted") (dropwhile isspace s)) as [s'|] eqn:E;
    [|now right].
  left. apply strip_prefix_split in E. rewrite E. reflexivity.
Qed.

Definition r_ws1 : regex := Rep isspace 0 true ;; r_flag.

Lemma run_ws1 (s : str) (g : caps) :
  run r_ws1 s g k0 = flag (dropwhile isspace s) g.
Proof.
  apply (run_spaces r_flag flag run_flag).
  intros c s' g' Hc. now apply flag_space.
Qed.

Lemma flag_digit (c : ascii) (s : str) (g : caps) :
  isdigit c = true -> flag (dropwhile isspace (c :: s)) g = None.
Proof.
  intros Hc. cbn [dropwhile]. rewrite (isspace_not_digit c Hc).
  unfold flag, lit. cbn [list_ascii_of_string].
  rewrite (strip_prefix_class isdigit "e" c _ s eq_refl Hc).
  cbn [dropwhile]. rewrite (isspace_not_digit c Hc).
  unfold brace, lit. cbn [list_ascii_of_string].
  now rewrite (strip_prefix_class isdigit "{" c _ s eq_refl Hc).
Qed.

Lemma gap_nonspace (c : ascii) (s : str) (g : caps) (next : str -> caps -> result) :
  nonspace c = true -> gap (c :: s) g next = None.
Proof.
  unfold nonspace, gap. intros H. cbn [takewhile].
  destruct (isspace c); [discriminate|reflexivity].
Qed.

Lemma literal_space (x : ascii) (l : str) (c : ascii) (s : str) (g : caps)
      (next : str -> caps -> result) :
  isspace x = false -> isspace c = true -> literal (x :: l) (c :: s) g next = None.
Proof.
  intros Hx Hc. unfold literal. now rewrite (strip_prefix_class isspace x c l s).
Qed.

(** The backtracking matcher on [block_pattern] is [block_direct]. *)
Lemma match_block (s : str) : match_at block_pattern s = block_direct s.
Proof.
  unfold match_at, block_pattern, block_direct.
  fold r_body. fold r_ws2. fold r_flag. fold r_ws1.
  change (fun (s' : str) (g : caps) => Some (g, s')) with k0.
  erewrite run_literal; [reflexivity|]. intros s1 g1.
  erewrite run_field; [reflexivity| |].
  2:{ intros c s' g' Hc. now apply gap_nonspace. }
  intros s2 g2.
  erewrite run_gap; [reflexivity| |].
  2:{ intros c s' g' Hc. now apply literal_space. }
  intros s3 g3.
  erewrite run_literal; [reflexivity|]. intros s4 g4.
  erewrite run_field; [reflexivity| |].
  2:{ intros c s' g' Hc. now apply gap_nonspace. }
  intros s5 g5.
  erewrite run_gap; [reflexivity| |].
  2:{ intros c s' g' Hc. now apply literal_space. }
  intros s6 g6.
  erewrite run_literal; [reflexivity|]. intros s7 g7.
  erewrite run_field; [reflexivity| |].
  2:{ intros c s' g' Hc. now apply flag_digit. }
  intros s8 g8. apply run_ws1.
Qed.

End BlockMatch.

(** ** Serialising and parsing again (C7) *)

Module RoundTrip.
Import JDATFile ReFacts BlockMatch ParseFacts.

(** What [_parse] guarantees of every block it builds. *)
Record parsed (b : JDATBlock.t) : Prop := {
  p_name : JDATBlock.name b <> [] /\ forallb nonspace (JDATBlock.name b) = true;
  p_link : JDATBlock.link b <> [] /\ forallb nonspace (JDATBlock.link b) = true;
  p_type : (0 <= JDATBlock.type b)%Z;
  p_content : occurs (lit "})") (JDATBlock.content b) = false;
  p_data : JDATBlock._data b = None
}.

Lemma nonempty_of_leb {A} (l : list A) : (1 <=? List.length l) = true -> l <> [].
Proof. destruct l; [discriminate|congruence]. Qed.

Lemma find_close_split (s c rest : str) :
  find_close s = Some (c, rest) -> s = c ++ lit "})" ++ rest.
Proof.
  revert c. induction s as [|x s IH]; intros c; cbn [find_close].
  - destruct (strip_prefix (lit "})") []) eqn:E; [discriminate E|discriminate].
  - destruct (strip_prefix (lit "})") (x :: s)) as [r|] eqn:E.
    + intros H. injection H as <- <-. now apply strip_prefix_split in E.
    + destruct (find_close s) as [[a r]|]; [|discriminate].
      intros H. injection H as <- <-. now rewrite (IH a eq_refl).
Qed.

Lemma strip_close_cons (x : ascii) (s : str) :
  strip_prefix (lit "})") (x :: s)
  = if Ascii.eqb "}" x
    then match s with
         | y :: s' => if Ascii.eqb ")" y then Some s' else None
         | [] => None
         end
    else None.
Proof. reflexivity. Qed.

Lemma find_close_clean (s c rest : str) :
  find_close s = Some (c, rest) -> occurs (lit "})") c = false.
Proof.
  revert c. induction s as [|x s IH]; intros c; cbn [find_close].
  - destruct (strip_prefix (lit "})") []) eqn:E; [discriminate E|discriminate].
  - destruct (strip_prefix (lit "})") (x :: s)) as [r|] eqn:E.
    + intros H. injection H as <- <-. reflexivity.
    + destruct (find_close s) as [[a r]|] eqn:F; [|discriminate].
      intros H. injection H as <- <-.
      specialize (IH a eq_refl).
      apply find_close_split in F. subst s.
      cbn [occurs]. rewrite IH.
      replace (strip_prefix (lit "})") (x :: a)) with (@None str);
        [now destruct a|].
      symmetry. rewrite strip_close_cons in E |- *.
      destruct (Ascii.eqb "}" x); [|reflexivity].
      destruct a as [|y a]; [reflexivity|].
      cbn [app] in E. destruct (Ascii.eqb ")" y); [discriminate|reflexivity].
Qed.

Lemma group_text_hd (i : nat) (x : str) (g : caps) : group_text ((i, x) :: g) i = x.
Proof. unfold group_text. cbn [group]. now rewrite Nat.eqb_refl. Qed.

(** A match of the block pattern yields a block with the properties of
    [parsed]. *)
Lemma block_direct_parsed (s : str) (g : caps) (rest : str) :
  block_direct s = Some (g, rest) -> parsed (ParseFacts.built g).
Proof.
  unfold block_direct, literal, field, gap.
  destruct (strip_prefix (lit "(n:") s) as [s1|]; [|discriminate].
  destruct (1 <=? List.length (takewhile nonspace s1)) eqn:Hn; [|discriminate].
  set (s2 := dropwhile nonspace s1).
  destruct (1 <=? List.length (takewhile isspace s2)); [|discriminate].
  destruct (strip_prefix (lit "l:") (dropwhile isspace s2)) as [s4|]; [|discriminate].
  destruct (1 <=? List.length (takewhile nonspace s4)) eqn:Hl; [|discriminate].
  set (s5 := dropwhile nonspace s4).
  destruct (1 <=? List.length (takewhile isspace s5)); [|discriminate].
  destruct (strip_prefix (lit "t:") (dropwhile isspace s5)) as [s7|]; [|discriminate].
  destruct (1 <=? List.length (takewhile isdigit s7)) eqn:Hd; [|discriminate].
  set (s9 := dropwhile isspace (dropwhile isdigit s7)).
  set (g3 := [(3, takewhile isdigit s7); (2, takewhile nonspace s4);
              (1, takewhile nonspace s1)]).
  assert (Hb : forall s g' g rest,
             brace s g' = Some (g, rest) ->
             exists c, g = (5, c) :: g' /\ occurs (lit "})") c = false).
  { intros s0 g' g0 r0. unfold brace, body.
    destruct (strip_prefix (lit "{") s0) as [s'|]; [|discriminate].
    destruct (find_close s') as [[c r]|] eqn:F; [|discriminate].
    intros H. injection H as <- <-. exists c. split; [reflexivity|].
    eapply find_close_clean; eauto. }
  assert (Hfin : forall g' c,
             g' = g3 \/ g' = (4, lit "encrypted") :: g3 ->
             occurs (lit "})") c = false ->
             parsed (ParseFacts.built ((5, c) :: g'))).
  { intros g' c Hg Hc.
    assert (JDATBlock.name (ParseFacts.built ((5, c) :: g')) = takewhile nonspace s1
            /\ JDATBlock.link (ParseFacts.built ((5, c) :: g')) = takewhile nonspace s4
            /\ JDATBlock.content (ParseFacts.built ((5, c) :: g')) = c
            /\ JDATBlock.type (ParseFacts.built ((5, c) :: g'))
               = int_of_digits (takewhile isdigit s7)
            /\ JDATBlock._data (ParseFacts.built ((5, c) :: g')) = None) as (E1 & E2 & E3 & E4 & E5)
      by (destruct Hg as [-> | ->]; repeat split; reflexivity).
    constructor.
    - rewrite E1. split; [now apply nonempty_of_leb|apply takewhile_all].
    - rewrite E2. split; [now apply nonempty_of_leb|apply takewhile_all].
    - rewrite E4. unfold int_of_digits. apply N2Z.is_nonneg.
    - now rewrite E3.
    - exact E5. }
  unfold flag. fold s9.
  destruct (strip_prefix (lit "encrypted") s9) as [s10|].
  - destruct (brace (dropwhile isspace s10) ((4, lit "encrypted") :: g3))
      as [[g0 r0]|] eqn:B.
    + intros H. injection H as <- <-.
      destruct (Hb _ _ _ _ B) as (c & -> & Hc). apply Hfin; auto.
    + intros B'. destruct (Hb _ _ _ _ B') as (c & -> & Hc). apply Hfin; auto.
  - intros B'. destruct (Hb _ _ _ _ B') as (c & -> & Hc). apply Hfin; auto.
Qed.

(** Every block that [_parse] extracts is [parsed]. *)
Lemma extracted_blocks_parsed (text : str) : Forall parsed (extracted_blocks text).
Proof.
  unfold extracted_blocks. apply Forall_map.
  apply finditer_from_Forall. intros s g rest H.
  rewrite match_block in H. eapply block_direct_parsed; eauto.
Qed.

(** Decimal digits. *)
Lemma digits_all (d : Decimal.uint) : forallb isdigit (digits_of_uint d) = true.
Proof. induction d; simpl; auto. Qed.

Lemma uint_of_digits_of_uint (d : Decimal.uint) : uint_of_digits (digits_of_uint d) = d.
Proof. induction d; simpl; try rewrite IHd; reflexivity. Qed.

Lemma str_of_int_nonneg (z : Z) :
  (0 <= z)%Z -> str_of_int z = digits_of_uint (N.to_uint (Z.to_N z)).
Proof. destruct z; simpl; try reflexivity. lia. Qed.

Lemma int_of_str (z : Z) : (0 <= z)%Z -> int_of_digits (str_of_int z) = z.
Proof.
  intros H. rewrite str_of_int_nonneg by exact H.
  unfold int_of_digits. rewrite uint_of_digits_of_uint.
  rewrite DecimalN.Unsigned.of_to. now apply Z2N.id.
Qed.

Lemma str_of_int_digits (z : Z) :
  (0 <= z)%Z -> str_of_int z <> [] /\ forallb isdigit (str_of_int z) = true.
Proof.
  intros H. split.
  - intros E. pose proof (int_of_str z H) as R. rewrite E in R.
    assert (z = 0%Z) by (rewrite <- R; reflexivity). subst z. discriminate E.
  - rewrite str_of_int_nonneg by exact H. apply digits_all.
Qed.

(** *** A serialised block is matched whole *)

(** The block that parsing the serialised text gives back for [b]. *)
Definition wrap (b : JDATBlock.t) : JDATBlock.t :=
  JDATBlock.mk (JDATBlock.name b) (JDATBlock.link b) (JDATBlock.type b)
               (NL :: JDATBlock.content b ++ [NL]) (JDATBlock.encrypted b) None.

Definition caps_of (b : JDATBlock.t) : caps :=
  (5, NL :: JDATBlock.content b ++ [NL])
  :: (if JDATBlock.encrypted b then [(4, lit "encrypted")] else [])
  ++ [(3, str_of_int (JDATBlock.type b)); (2, JDATBlock.link b);
      (1, JDATBlock.name b)].

Lemma block_of_caps (b : JDATBlock.t) :
  parsed b -> ParseFacts.built (caps_of b) = wrap b.
Proof.
  intros [_ _ Ht _ _]. unfold ParseFacts.built, caps_of, wrap, JDATBlock.__init__.
  destruct (JDATBlock.encrypted b); cbn [app group_text group Nat.eqb];
    rewrite (int_of_str _ Ht); reflexivity.
Qed.

Definition render (b : JDATBlock.t) : str := fst (JDATBlock.to_jdat b).

Definition sep_of (b : JDATBlock.t) : str :=
  if JDATBlock.encrypted b then lit " encrypted{"
  else if (JDATBlock.type b =? 1)%Z then lit " {" else lit "{".

(** The serialised block followed by [tail], as one text. *)
Definition text_of (b : JDATBlock.t) (tail : str) : str :=
  lit "(n:" ++ JDATBlock.name b ++ " "%char :: lit "l:" ++ JDATBlock.link b
  ++ " "%char :: lit "t:" ++ str_of_int (JDATBlock.type b) ++ sep_of b
  ++ (NL :: JDATBlock.content b) ++ NL :: lit "})" ++ tail.

Lemma render_text (b : JDATBlock.t) (tail : str) :
  JDATBlock._data b = None -> render b ++ tail = text_of b tail.
Proof.
  intros Hd. unfold render, text_of, sep_of, JDATBlock.to_jdat,
    JDATBlock._rebuild_content.
  rewrite Hd.
  destruct (JDATBlock.encrypted b); [|destruct (JDATBlock.type b =? 1)%Z];
    cbn [fst]; repeat rewrite <- app_assoc; reflexivity.
Qed.

Lemma find_close_content (c tail : str) :
  occurs (lit "})") c = false ->
  find_close (c ++ NL :: lit "})" ++ tail) = Some (c ++ [NL], tail).
Proof.
  induction c as [|x c IH]; intros H.
  - cbn [app]. cbn [find_close]. rewrite strip_close_cons.
    replace (Ascii.eqb "}" NL) with false by reflexivity.
    replace (find_close (lit "})" ++ tail)) with (Some (@nil ascii, tail));
      [reflexivity|].
    destruct tail; reflexivity.
  - cbn [occurs] in H.
    destruct (strip_prefix (lit "})") (x :: c)) eqn:E; [discriminate|].
    assert (Hc : occurs (lit "})") c = false) by (destruct c; exact H).
    cbn [app find_close]. rewrite (IH Hc).
    replace (strip_prefix (lit "})") (x :: c ++ NL :: lit "})" ++ tail))
      with (@None str); [reflexivity|].
    symmetry. rewrite strip_close_cons in E |- *.
    destruct (Ascii.eqb "}" x); [|reflexivity].
    destruct c as [|y c]; [reflexivity|].
    cbn [app]. destruct (Ascii.eqb ")" y); [discriminate|reflexivity].
Qed.

Lemma body_content (c tail : str) (g : caps) :
  occurs (lit "})") c = false ->
  body ((NL :: c) ++ NL :: lit "})" ++ tail) g = Some ((5, NL :: c ++ [NL]) :: g, tail).
Proof.
  intros H. unfold body. rewrite find_close_content; [reflexivity|].
  cbn [occurs]. rewrite strip_close_cons.
  replace (Ascii.eqb "}" NL) with false by reflexivity. exact H.
Qed.

Lemma field_app (cls : ascii -> bool) (i : nat) (v x : str) (g : caps)
      (next : str -> caps -> result) :
  v <> [] -> forallb cls v = true ->
  match x with [] => True | c :: _ => cls c = false end ->
  field cls i (v ++ x) g next = next x ((i, v) :: g).
Proof.
  intros Hv Ha Hx. unfold field.
  destruct (takewhile_app cls v x Ha Hx) as [-> ->].
  destruct v; [contradiction|reflexivity].
Qed.

Lemma gap_space (x : str) (g : caps) (next : str -> caps -> result) :
  match x with [] => True | c :: _ => isspace c = false end ->
  gap (" "%char :: x) g next = next x g.
Proof.
  intros Hx. unfold gap.
  destruct (takewhile_app isspace [" "%char] x eq_refl Hx) as [E1 E2].
  cbn [app] in E1, E2. rewrite E1, E2. reflexivity.
Qed.

Lemma literal_app (l x : str) (g : caps) (next : str -> caps -> result) :
  literal l (l ++ x) g next = next x g.
Proof. unfold literal. now rewrite strip_prefix_app. Qed.

Lemma flag_sep (b : JDATBlock.t) (x : str) (g3 : caps) :
  (forall g, body x g <> None) ->
  flag (dropwhile isspace (sep_of b ++ x)) g3
  = body x ((if JDATBlock.encrypted b then [(4, lit "encrypted")] else []) ++ g3).
Proof.
  intros Hx. unfold sep_of.
  destruct (JDATBlock.encrypted b).
  - change (flag (dropwhile isspace (lit " encrypted{" ++ x)) g3)
      with (match body x ((4, lit "encrypted") :: g3) with
            | Some r => Some r
            | None => brace (dropwhile isspace (lit "encrypted{" ++ x)) g3
            end).
    cbn [app]. destruct (body x ((4, lit "encrypted") :: g3)) eqn:E; [reflexivity|].
    now apply Hx in E.
  - destruct (JDATBlock.type b =? 1)%Z; reflexivity.
Qed.

Lemma sep_head (b : JDATBlock.t) (x : str) :
  match sep_of b ++ x with [] => True | c :: _ => isdigit c = false end.
Proof.
  unfold sep_of.
  destruct (JDATBlock.encrypted b); [|destruct (JDATBlock.type b =? 1)%Z];
    reflexivity.
Qed.

(** The pattern matches a serialised block from its first character to
    its closing [})], whatever follows. *)
Lemma block_direct_render (b : JDATBlock.t) (tail : str) :
  parsed b -> block_direct (render b ++ tail) = Some (caps_of b, tail).
Proof.
  intros [[Hn1 Hn2] [Hl1 Hl2] Ht Hc Hd].
  rewrite (render_text b tail Hd). unfold text_of, block_direct.
  destruct (str_of_int_digits _ Ht) as [Hd1 Hd2].
  rewrite literal_app.
  rewrite field_app; [|exact Hn1|exact Hn2|reflexivity].
  rewrite gap_space; [|reflexivity].
  rewrite literal_app.
  rewrite field_app; [|exact Hl1|exact Hl2|reflexivity].
  rewrite gap_space; [|reflexivity].
  rewrite literal_app.
  rewrite field_app; [|exact Hd1|exact Hd2|apply sep_head].
  rewrite flag_sep.
  - rewrite body_content by exact Hc. unfold caps_of.
    destruct (JDATBlock.encrypted b); reflexivity.
  - intros g. rewrite body_content by exact Hc. discriminate.
Qed.

(** *** Skipping text that opens no block *)

(** [(n:] starts at no place of [a], in the text [a ++ b]. *)
Fixpoint noopen (a b : str) : Prop :=
  match a with
  | [] => True
  | _ :: a' => strip_prefix (lit "(n:") (a ++ b) = None /\ noopen a' b
  end.

Lemma strip_open_cons (x : ascii) (s : str) :
  strip_prefix (lit "(n:") (x :: s)
  = if Ascii.eqb "(" x
    then match s with
         | y :: s' =>
             if Ascii.eqb "n" y
             then match s' with
                  | z :: s'' => if Ascii.eqb ":" z then Some s'' else None
                  | [] => None
                  end
             else None
         | [] => None
         end
    else None.
Proof. reflexivity. Qed.

Lemma miss (s : str) :
  strip_prefix (lit "(n:") s = None -> match_at block_pattern s = None.
Proof.
  intros H. rewrite match_block. unfold block_direct, literal. now rewrite H.
Qed.

Lemma finditer_noopen (a b : str) :
  noopen a b ->
  finditer_from block_pattern (a ++ b) 0 = finditer_from block_pattern b 0.
Proof.
  induction a as [|c a IH]; [reflexivity|].
  intros [H1 H2]. cbn [app] in *.
  rewrite finditer_from_miss by (now apply miss). now apply IH.
Qed.

Lemma noopen_app (a1 a2 b : str) :
  noopen a1 (a2 ++ b) -> noopen a2 b -> noopen (a1 ++ a2) b.
Proof.
  induction a1 as [|c a1 IH]; [auto|].
  intros [H1 H2] H3. cbn [app noopen]. split; [|now apply IH].
  rewrite <- app_assoc. exact H1.
Qed.

Lemma noopen_plain (a b : str) :
  forallb (fun c => negb (Ascii.eqb "(" c)) a = true -> noopen a b.
Proof.
  induction a as [|c a IH]; [constructor|].
  cbn [forallb]. intros H. apply andb_prop in H. destruct H as [Hc Ha].
  split; [|now apply IH].
  cbn [app]. rewrite strip_open_cons.
  destruct (Ascii.eqb "(" c); [discriminate|reflexivity].
Qed.

Lemma noopen_comment (c b : str) :
  occurs (lit "(n:") c = false -> noopen c (">"%char :: b).
Proof.
  induction c as [|x c IH]; [constructor|].
  intros H. cbn [occurs] in H.
  destruct (strip_prefix (lit "(n:") (x :: c)) eqn:E; [discriminate|].
  assert (Hc : occurs (lit "(n:") c = false) by (destruct c; exact H).
  split; [|now apply IH].
  cbn [app]. rewrite strip_open_cons in E |- *.
  destruct (Ascii.eqb "(" x); [|reflexivity].
  destruct c as [|y c]; [reflexivity|]. cbn [app].
  destruct (Ascii.eqb "n" y); [|reflexivity].
  destruct c as [|z c]; [reflexivity|]. cbn [app].
  destruct (Ascii.eqb ":" z); [discriminate|reflexivity].
Qed.

Definition wrap_comment (c : str) : str := lit "({<" ++ c ++ lit ">})".

Lemma noopen_wrap_comment (c b : str) :
  occurs (lit "(n:") c = false -> noopen (wrap_comment c) b.
Proof.
  intros H. unfold wrap_comment.
  apply noopen_app.
  - repeat split; reflexivity.
  - apply noopen_app.
    + apply (noopen_comment c _ H).
    + apply noopen_plain. reflexivity.
Qed.

(** *** Comments without a brace open no block *)

(** No opening brace in [y]. *)
Definition nobrace (y : str) : Prop := contains_char "{"%char y = false.

Lemma nobrace_cons (c : ascii) (y : str) :
  nobrace (c :: y) <-> Ascii.eqb "{" c = false /\ nobrace y.
Proof.
  unfold nobrace, contains_char. cbn [existsb]. apply orb_false_iff.
Qed.

Lemma nobrace_dropwhile (p : ascii -> bool) (y : str) :
  nobrace y -> nobrace (dropwhile p y).
Proof.
  induction y as [|c y IH]; [auto|].
  intros H. cbn [dropwhile]. destruct (p c); [|exact H].
  apply IH. now apply nobrace_cons in H.
Qed.

Lemma nobrace_strip_prefix (l y y' : str) :
  nobrace y -> strip_prefix l y = Some y' -> nobrace y'.
Proof.
  revert y. induction l as [|x l IH]; intros y H; cbn [strip_prefix].
  - congruence.
  - destruct y as [|c y]; [discriminate|].
    destruct (Ascii.eqb x c); [|discriminate].
    apply IH. now apply nobrace_cons in H.
Qed.

Lemma dropwhile_app (p : ascii -> bool) (u v : str) :
  dropwhile p (u ++ v)
  = if forallb p u then dropwhile p v else dropwhile p u ++ v.
Proof.
  induction u as [|c u IH]; [reflexivity|].
  cbn [app dropwhile forallb]. destruct (p c); [exact IH|reflexivity].
Qed.

Lemma takewhile_app_stop (p : ascii -> bool) (u v : str) :
  forallb p u = false -> takewhile p (u ++ v) = takewhile p u.
Proof.
  induction u as [|c u IH]; [discriminate|].
  cbn [app takewhile forallb]. destruct (p c); [|reflexivity].
  intros H. now rewrite IH.
Qed.

Section AfterComment.
(** What follows the closing [>})] of a serialised comment: the final
    line feed, or the blank line and the next segment. *)
Variable X : str.
Hypothesis X_shape : X = [NL] \/ exists Z, X = NL :: NL :: "("%char :: Z.

Let T : str := lit ">})" ++ X.

(** [next] fails wherever a comment without brace is still to be read. *)
Definition doomed (next : str -> caps -> result) : Prop :=
  forall y g, nobrace y -> next (y ++ T) g = None.

Lemma strip_prefix_before (l y : str) :
  forallb (fun c => negb (Ascii.eqb c ">")) l = true ->
  strip_prefix l (y ++ T)
  = match strip_prefix l y with Some y' => Some (y' ++ T) | None => None end.
Proof.
  revert y. induction l as [|x l IH]; intros y Hl; [reflexivity|].
  cbn [forallb] in Hl. apply andb_prop in Hl. destruct Hl as [Hx Hl].
  destruct y as [|c y].
  - cbn [app strip_prefix]. unfold T. cbn [lit list_ascii_of_string app].
    destruct (Ascii.eqb x ">"); [discriminate|reflexivity].
  - cbn [app strip_prefix]. destruct (Ascii.eqb x c); [now apply IH|reflexivity].
Qed.

Lemma dropwhile_before (p : ascii -> bool) (y : str) :
  p ">"%char = false -> dropwhile p (y ++ T) = dropwhile p y ++ T.
Proof.
  intros Hp. rewrite dropwhile_app.
  destruct (forallb p y) eqn:E.
  - replace (dropwhile p y) with (@nil ascii).
    + unfold T. cbn [lit list_ascii_of_string app dropwhile]. now rewrite Hp.
    + clear -E. induction y as [|c y IH]; [reflexivity|].
      cbn [forallb] in E. apply andb_prop in E. destruct E as [Hc Hy].
      cbn [dropwhile]. rewrite Hc. now apply IH.
  - reflexivity.
Qed.

Lemma doomed_literal (l : str) (next : str -> caps -> result) :
  forallb (fun c => negb (Ascii.eqb c ">")) l = true ->
  doomed next -> doomed (fun s g => literal l s g next).
Proof.
  intros Hl Hn y g Hy. unfold literal. rewrite strip_prefix_before by exact Hl.
  destruct (strip_prefix l y) as [y'|] eqn:E; [|reflexivity].
  apply Hn. eapply nobrace_strip_prefix; eauto.
Qed.

Lemma doomed_spaces (next : str -> caps -> result) :
  doomed next -> doomed (fun s g => next (dropwhile isspace s) g).
Proof.
  intros Hn y g Hy. rewrite dropwhile_before by reflexivity.
  apply Hn. now apply nobrace_dropwhile.
Qed.

Lemma doomed_gap (next : str -> caps -> result) :
  doomed next -> doomed (fun s g => gap s g next).
Proof.
  intros Hn y g Hy. unfold gap.
  destruct (1 <=? List.length (takewhile isspace (y ++ T))); [|reflexivity].
  now apply (doomed_spaces next Hn).
Qed.

Lemma doomed_digits (i : nat) (next : str -> caps -> result) :
  doomed next -> doomed (fun s g => field isdigit i s g next).
Proof.
  intros Hn y g Hy. unfold field.
  destruct (1 <=? List.length (takewhile isdigit (y ++ T))); [|reflexivity].
  rewrite dropwhile_before by reflexivity.
  apply Hn. now apply nobrace_dropwhile.
Qed.

(** After [X] only white space and then [(] or nothing can be read. *)
Lemma literal_after (l : str) (g : caps) (next : str -> caps -> result) :
  match l with x :: _ => Ascii.eqb x "(" = false | [] => False end ->
  gap X g (fun s g => literal l s g next) = None.
Proof.
  intros Hl. unfold gap, literal.
  destruct l as [|x l]; [contradiction|].
  destruct X_shape as [-> | [Z ->]]; cbn [takewhile dropwhile];
    replace (isspace NL) with true by reflexivity; cbn [takewhile dropwhile].
  - reflexivity.
  - replace (isspace "(") with false by reflexivity.
    cbn [List.length Nat.leb strip_prefix]. now rewrite Hl.
Qed.

Lemma dropwhile_nonspace_T : dropwhile nonspace T = X.
Proof.
  unfold T. destruct X_shape as [-> | [Z ->]]; reflexivity.
Qed.

(** A name or link field, the gap after it and the literal that must
    follow. *)
Lemma doomed_field (i : nat) (l : str) (next : str -> caps -> result) :
  forallb (fun c => negb (Ascii.eqb c ">")) l = true ->
  match l with x :: _ => Ascii.eqb x "(" = false | [] => False end ->
  doomed next ->
  doomed (fun s g =>
            field nonspace i s g (fun s g =>
            gap s g (fun s g => literal l s g next))).
Proof.
  intros Hl1 Hl2 Hn y g Hy. unfold field.
  destruct (1 <=? List.length (takewhile nonspace (y ++ T))); [|reflexivity].
  rewrite dropwhile_app. destruct (forallb nonspace y) eqn:E.
  - rewrite dropwhile_nonspace_T. now apply literal_after.
  - apply (doomed_gap _ (doomed_literal l next Hl1 Hn)).
    now apply nobrace_dropwhile.
Qed.

Lemma doomed_brace : doomed brace.
Proof.
  intros y g Hy. unfold brace.
  replace (strip_prefix (lit "{") (y ++ T)) with (@None str); [reflexivity|].
  symmetry. destruct y as [|c y].
  - unfold T. reflexivity.
  - apply nobrace_cons in Hy. destruct Hy as [Hc _].
    cbn [app lit list_ascii_of_string strip_prefix]. now rewrite Hc.
Qed.

Lemma doomed_flag : doomed flag.
Proof.
  intros y g Hy. unfold flag.
  rewrite strip_prefix_before by reflexivity.
  pose proof (doomed_spaces brace doomed_brace) as Hb.
  destruct (strip_prefix (lit "encrypted") y) as [y'|] eqn:E.
  - rewrite (Hb y' _ (nobrace_strip_prefix _ _ _ Hy E)).
    now apply Hb.
  - now apply Hb.
Qed.

(** No block is matched from inside a comment that has no brace. *)
Lemma block_direct_in_comment (y : str) :
  nobrace y -> block_direct (y ++ T) = None.
Proof.
  intros Hy. unfold block_direct.
  refine (doomed_literal (lit "(n:") _ eq_refl _ y [] Hy).
  refine (doomed_field 1 (lit "l:") _ eq_refl eq_refl _).
  refine (doomed_field 2 (lit "t:") _ eq_refl eq_refl _).
  refine (doomed_digits 3 _ _).
  exact (doomed_spaces flag doomed_flag).
Qed.

End AfterComment.

(** No block is matched at any place of [a], in the text [a ++ b]. *)
Fixpoint quiet (a b : str) : Prop :=
  match a with
  | [] => True
  | _ :: a' => match_at block_pattern (a ++ b) = None /\ quiet a' b
  end.

Lemma noopen_quiet (a b : str) : noopen a b -> quiet a b.
Proof.
  induction a as [|c a IH]; [auto|].
  intros [H1 H2]. split; [now apply miss|now apply IH].
Qed.

Lemma quiet_app (a1 a2 b : str) :
  quiet a1 (a2 ++ b) -> quiet a2 b -> quiet (a1 ++ a2) b.
Proof.
  induction a1 as [|c a1 IH]; [auto|].
  intros [H1 H2] H3. cbn [app quiet]. split; [|now apply IH].
  rewrite <- app_assoc. exact H1.
Qed.

Lemma finditer_quiet (a b : str) :
  quiet a b ->
  finditer_from block_pattern (a ++ b) 0 = finditer_from block_pattern b 0.
Proof.
  induction a as [|c a IH]; [reflexivity|].
  intros [H1 H2]. cbn [app] in *.
  rewrite finditer_from_miss by exact H1. now apply IH.
Qed.

Lemma quiet_comment (c X : str) :
  X = [NL] \/ (exists Z, X = NL :: NL :: "("%char :: Z) ->
  nobrace c -> quiet c (lit ">})" ++ X).
Proof.
  intros HX. induction c as [|x c IH]; [constructor|].
  intros H. split.
  - rewrite match_block. now apply block_direct_in_comment.
  - apply IH. now apply nobrace_cons in H.
Qed.

(** A comment that cannot hide a block: it has no block opener [(n:],
    or it has no opening brace. *)
Definition harmless (c : str) : Prop :=
  occurs (lit "(n:") c = false \/ contains_char "{"%char c = false.

Lemma quiet_wrap_comment (c X : str) :
  X = [NL] \/ (exists Z, X = NL :: NL :: "("%char :: Z) ->
  harmless c -> quiet (wrap_comment c) X.
Proof.
  intros HX [H|H].
  - apply noopen_quiet. now apply noopen_wrap_comment.
  - unfold wrap_comment. apply quiet_app.
    + apply noopen_quiet. repeat split; reflexivity.
    + apply quiet_app.
      * now apply quiet_comment.
      * apply noopen_quiet. apply noopen_plain. reflexivity.
Qed.

(** *** The whole serialised text *)

Definition sep : str := [NL; NL].

Lemma join_cons (p : str) (ps : list str) (tail : str) :
  join sep (p :: ps) ++ tail
  = p ++ match ps with
         | [] => tail
         | _ => sep ++ join sep ps ++ tail
         end.
Proof.
  destruct ps as [|q ps]; [reflexivity|].
  cbn [join]. now rewrite <- !app_assoc.
Qed.

Lemma finditer_newline :
  finditer_from block_pattern [NL] 0 = [].
Proof. reflexivity. Qed.

Lemma finditer_sep (x : str) :
  finditer_from block_pattern (sep ++ x) 0 = finditer_from block_pattern x 0.
Proof. apply finditer_noopen. apply noopen_plain. reflexivity. Qed.

Lemma render_head (b : JDATBlock.t) : exists Z, render b = "("%char :: Z.
Proof.
  unfold render, JDATBlock.to_jdat.
  destruct (JDATBlock.encrypted b); [|destruct (JDATBlock.type b =? 1)%Z];
    eexists; reflexivity.
Qed.

(** Every part of the serialised text starts with [(]. *)
Lemma join_head (p : str) (ps : list str) (tail : str) :
  (exists Z, p = "("%char :: Z) ->
  exists Z, join sep (p :: ps) ++ tail = "("%char :: Z.
Proof.
  intros [Z ->]. rewrite join_cons. eexists. reflexivity.
Qed.

Lemma finditer_comments (cs : list str) (bs : list JDATBlock.t) :
  Forall harmless cs ->
  finditer_from block_pattern
    (join sep (map wrap_comment cs ++ map render bs) ++ [NL]) 0
  = finditer_from block_pattern (join sep (map render bs) ++ [NL]) 0.
Proof.
  induction cs as [|c cs IH]; [reflexivity|].
  intros H. inversion H as [|? ? Hc Hcs]; subst.
  cbn [map app]. rewrite join_cons.
  destruct (map wrap_comment cs ++ map render bs) as [|q qs] eqn:E.
  - rewrite finditer_quiet by (apply quiet_wrap_comment; auto).
    destruct cs; [|discriminate]. cbn [map app] in E. rewrite E. reflexivity.
  - assert (Hq : exists Z, q = "("%char :: Z).
    { destruct cs as [|c' cs'].
      - cbn [map app] in E. destruct bs as [|b bs']; [discriminate|].
        cbn [map] in E. injection E as <- _. apply render_head.
      - cbn [map app] in E. injection E as <- _. eexists. reflexivity. }
    destruct (join_head q qs [NL] Hq) as [Z HZ].
    rewrite finditer_quiet.
    + rewrite finditer_sep. now apply IH.
    + apply quiet_wrap_comment; [|exact Hc].
      right. exists Z. rewrite HZ. reflexivity.
Qed.

Lemma finditer_match_app (a rest : str) (g : caps) :
  a <> [] ->
  match_at block_pattern (a ++ rest) = Some (g, rest) ->
  finditer_from block_pattern (a ++ rest) 0
  = g :: finditer_from block_pattern rest 0.
Proof.
  destruct a as [|c w]; [contradiction|]. intros _ H.
  now apply finditer_from_match.
Qed.

Lemma render_nonempty (b : JDATBlock.t) : render b <> [].
Proof.
  unfold render, JDATBlock.to_jdat.
  destruct (JDATBlock.encrypted b); [|destruct (JDATBlock.type b =? 1)%Z];
    discriminate.
Qed.

Lemma finditer_blocks (bs : list JDATBlock.t) :
  Forall parsed bs ->
  finditer_from block_pattern (join sep (map render bs) ++ [NL]) 0
  = map caps_of bs.
Proof.
  induction bs as [|b bs IH]; [reflexivity|].
  intros H. inversion H as [|? ? Hb Hbs]; subst.
  cbn [map]. rewrite join_cons.
  rewrite finditer_match_app with (g := caps_of b).
  - f_equal. destruct bs as [|b' bs']; [reflexivity|].
    cbn [map]. rewrite finditer_sep. now apply IH.
  - apply render_nonempty.
  - rewrite match_block. now apply block_direct_render.
Qed.

Lemma blocks_to_jdat_render (bs : list JDATBlock.t) :
  fst (blocks_to_jdat bs) = map render bs.
Proof.
  induction bs as [|b bs IH]; [reflexivity|].
  cbn [blocks_to_jdat map]. unfold render.
  destruct (JDATBlock.to_jdat b) as [s b'].
  destruct (blocks_to_jdat bs) as [ss bs']. cbn [fst] in *. now rewrite IH.
Qed.

(** The fields C7 compares. *)
Definition fields (b : JDATBlock.t) : str * str * Z * str * bool :=
  (JDATBlock.name b, JDATBlock.link b, JDATBlock.type b, JDATBlock.content b,
   JDATBlock.encrypted b).

(** [parse], then [serialize], then [parse] again. *)
Definition parse (text : str) : JDATFile.t := snd (_parse (__init__ None) text).
Definition serialize (f : JDATFile.t) : str := fst (to_jdat f).

End RoundTrip.

Module StripFacts.

Lemma rstrip_snoc_space (s : str) (c : ascii) :
  isspace c = true -> rstrip (s ++ [c]) = rstrip s.
Proof.
  intros H. unfold rstrip. rewrite rev_app_distr. cbn [rev app lstrip].
  now rewrite H.
Qed.

Lemma strip_snoc_space (s : str) (c : ascii) :
  isspace c = true -> strip (s ++ [c]) = strip s.
Proof.
  intros H. unfold strip. induction s as [|x s IH].
  - cbn [app lstrip]. now rewrite H.
  - cbn [app lstrip]. destruct (isspace x); [exact IH|].
    now apply (rstrip_snoc_space (x :: s) c).
Qed.

(** One line feed more at each end is lost when the text is trimmed. *)
Lemma strip_wrapped (s : str) : strip (NL :: s ++ [NL]) = strip s.
Proof.
  unfold strip at 1. cbn [lstrip].
  replace (isspace NL) with true by reflexivity.
  now apply strip_snoc_space.
Qed.

End StripFacts.

(** ** Parsing what [to_jdat] wrote *)

Module Reparse.
Import JDATFile RoundTrip.

Lemma digits_length (u : Decimal.uint) :
  List.length (digits_of_uint u) = Decimal.nb_digits u.
Proof. induction u; cbn [digits_of_uint List.length Decimal.nb_digits]; congruence. Qed.

Lemma uint_of_digits_nonnil (s : str) : s <> [] -> uint_of_digits s <> Decimal.Nil.
Proof.
  destruct s as [|c s]; [contradiction|]. intros _. cbn [uint_of_digits].
  destruct (code c - 48) as [|[|[|[|[|[|[|[|[|n]]]]]]]]]; discriminate.
Qed.

Lemma uint_of_digits_length (s : str) :
  Decimal.nb_digits (uint_of_digits s) = List.length s.
Proof.
  induction s as [|c s IH]; [reflexivity|]. cbn [uint_of_digits List.length].
  destruct (code c - 48) as [|[|[|[|[|[|[|[|[|n]]]]]]]]];
    cbn [Decimal.nb_digits]; now rewrite IH.
Qed.

(** [str(int(s))] has no more digits than [s] (and one for an empty
    run): what [int()] accepted, [str()] accepts. *)
Lemma accepts_shrink (s : str) :
  int_accepts s = true -> str_accepts (int_of_digits s) = true.
Proof.
  unfold str_accepts, int_of_digits.
  rewrite Z.abs_eq by apply N2Z.is_nonneg.
  rewrite (str_of_int_nonneg _ (N2Z.is_nonneg _)), N2Z.id, Unsigned.to_of.
  destruct s as [|c s]; [intros _; reflexivity|].
  unfold int_accepts. rewrite !Nat.leb_le. intros H.
  eapply Nat.le_trans; [|exact H].
  rewrite digits_length, <- (uint_of_digits_length (c :: s)).
  apply DecimalFacts.nb_digits_unorm. now apply uint_of_digits_nonnil.
Qed.

Lemma str_accepts_nonneg (z : Z) :
  (0 <= z)%Z -> str_accepts z = int_accepts (str_of_int z).
Proof. intros H. unfold str_accepts. now rewrite Z.abs_eq. Qed.

Lemma accepted_caps (b : JDATBlock.t) :
  ParseFacts.accepted (caps_of b) = int_accepts (str_of_int (JDATBlock.type b)).
Proof.
  unfold ParseFacts.accepted, caps_of.
  destruct (JDATBlock.encrypted b); reflexivity.
Qed.

(** The kinds of blocks that [_parse] built can be written. *)
Lemma extracted_accepts (ms : list caps) :
  Forall (fun b => str_accepts (JDATBlock.type b) = true)
         (map ParseFacts.built (ParseFacts.kept ms)).
Proof.
  induction ms as [|m ms IH]; cbn [ParseFacts.kept map]; [constructor|].
  destruct (ParseFacts.accepted m) eqn:E; [|constructor].
  cbn [map]. constructor; [|exact IH].
  now apply accepts_shrink.
Qed.

(** The matches of [block_pattern] in the text of a File. *)
Lemma finditer_serialised (pth : option str) (bs : list JDATBlock.t) (cs : list str) :
  Forall harmless cs -> Forall parsed bs ->
  finditer block_pattern (serialize (mk pth bs cs)) = map caps_of bs.
Proof.
  intros Hc Hp. unfold serialize, finditer, to_jdat.
  cbn [comments blocks].
  pose proof (blocks_to_jdat_render bs) as Hr.
  destruct (blocks_to_jdat bs) as [bparts bs'].
  cbn [fst] in Hr |- *. subst bparts.
  change (map (fun c => lit "({<" ++ c ++ lit ">})") cs)
    with (map wrap_comment cs).
  change [NL; NL] with sep.
  rewrite finditer_comments by exact Hc.
  now apply finditer_blocks.
Qed.

(** Parsing the text of a File whose blocks have the shape of parsed
    blocks and kinds that can be written: [_parse] returns, with every
    block. *)
Lemma reparse (pth : option str) (bs : list JDATBlock.t) (cs : list str) :
  Forall harmless cs -> Forall parsed bs ->
  Forall (fun b => str_accepts (JDATBlock.type b) = true) bs ->
  fst (_parse (__init__ None) (serialize (mk pth bs cs))) = Return tt
  /\ blocks (parse (serialize (mk pth bs cs))) = map wrap bs.
Proof.
  intros Hc Hp Ha.
  assert (Hv : ParseFacts.converts (serialize (mk pth bs cs)) = true).
  { unfold ParseFacts.converts. rewrite finditer_serialised by assumption.
    rewrite forallb_forall. intros m Hm. apply in_map_iff in Hm.
    destruct Hm as (b & <- & Hb). rewrite accepted_caps.
    rewrite Forall_forall in Ha, Hp.
    rewrite <- str_accepts_nonneg; [now apply Ha|]. now destruct (Hp b Hb). }
  unfold parse. rewrite (ParseFacts.parse_eq _ _ Hv). cbn [fst snd blocks].
  split; [reflexivity|].
  unfold ParseFacts.extracted_blocks. rewrite finditer_serialised by assumption.
  rewrite map_map. apply map_ext_in. intros b Hb.
  apply block_of_caps. rewrite Forall_forall in Hp. now apply Hp.
Qed.

Lemma kept_parsed (text : str) :
  Forall parsed (map ParseFacts.built (ParseFacts.kept (finditer block_pattern text))).
Proof.
  pose proof (extracted_blocks_parsed text) as H.
  unfold ParseFacts.extracted_blocks in H.
  destruct (ParseFacts.kept_prefix (finditer block_pattern text)) as [rest E].
  rewrite E, map_app in H. now apply Forall_app in H.
Qed.

End Reparse.

(** C7, as the code has it.  Take any text that [_parse] accepts (no
    kind of more than 4300 digits, which [int()] refuses) and in which no
    comment nests a block: each comment has no opening brace, or has no
    block opener [(n:].  [to_jdat] can write every kind of the File
    parsed; parsing the text, serialising the File and parsing the
    result returns and gives the same blocks in the same order, each
    with the same name, link, kind and encrypted flag; the content is
    not the same text: [to_jdat] puts a line feed after the opening
    brace and before the closing one, and the second parse keeps both,
    so each content comes back with one line feed more at each end (and
    is the same once trimmed). *)
Theorem reparse_serialized (T : str) :
  let f := RoundTrip.parse T in
  let f' := RoundTrip.parse (RoundTrip.serialize f) in
  fst (JDATFile._parse (JDATFile.__init__ None) T) = Return tt ->
  Forall RoundTrip.harmless (JDATFile.comments f) ->
  JDATFile.blocks f' = map RoundTrip.wrap (JDATFile.blocks f)
  /\ map JDATBlock.name (JDATFile.blocks f') = map JDATBlock.name (JDATFile.blocks f)
  /\ map JDATBlock.link (JDATFile.blocks f') = map JDATBlock.link (JDATFile.blocks f)
  /\ map JDATBlock.type (JDATFile.blocks f') = map JDATBlock.type (JDATFile.blocks f)
  /\ map JDATBlock.encrypted (JDATFile.blocks f')
     = map JDATBlock.encrypted (JDATFile.blocks f)
  /\ map JDATBlock.content (JDATFile.blocks f')
     = map (fun b => NL :: JDATBlock.content b ++ [NL]) (JDATFile.blocks f)
  /\ map (fun b => strip (JDATBlock.content b)) (JDATFile.blocks f')
     = map (fun b => strip (JDATBlock.content b)) (JDATFile.blocks f)
  /\ JDATFile.blocks f = ParseFacts.extracted_blocks T
  /\ Forall (fun b => str_accepts (JDATBlock.type b) = true) (JDATFile.blocks f)
  /\ fst (JDATFile._parse (JDATFile.__init__ None) (RoundTrip.serialize f))
     = Return tt.
Proof.
  cbv zeta. intros Hr.
  assert (Hv : ParseFacts.converts T = true) by (now apply ParseFacts.parse_returns in Hr).
  assert (Hf : RoundTrip.parse T
               = JDATFile.mk None (ParseFacts.extracted_blocks T)
                             (ParseFacts.extracted_comments T)).
  { unfold RoundTrip.parse.
    now rewrite (ParseFacts.parse_eq (JDATFile.__init__ None) T Hv). }
  rewrite Hf. cbn [JDATFile.comments JDATFile.blocks]. intros Hc.
  assert (Ha : Forall (fun b => str_accepts (JDATBlock.type b) = true)
                      (ParseFacts.extracted_blocks T)).
  { pose proof (Reparse.extracted_accepts (finditer JDATFile.block_pattern T)) as H.
    unfold ParseFacts.converts in Hv. now rewrite (ParseFacts.kept_all _ Hv) in H. }
  destruct (Reparse.reparse None (ParseFacts.extracted_blocks T)
              (ParseFacts.extracted_comments T) Hc
              (RoundTrip.extracted_blocks_parsed T) Ha) as [H1 H2].
  rewrite H2. rewrite !map_map. unfold RoundTrip.wrap.
  cbn [JDATBlock.name JDATBlock.link JDATBlock.type JDATBlock.encrypted
       JDATBlock.content].
  repeat split; try assumption.
  apply map_ext. intros b. apply StripFacts.strip_wrapped.
Qed.

Lemma reparse_serialized_witness :
  let T := lit "({< see (n:a >}) (n:a l:b t:2{x}) (n:c l:d t:1 encrypted{QUJD})" in
  map RoundTrip.fields
      (JDATFile.blocks (RoundTrip.parse (RoundTrip.serialize (RoundTrip.parse T))))
  = [(lit "a", lit "b", 2%Z, NL :: lit "x" ++ [NL], false);
     (lit "c", lit "d", 1%Z, NL :: lit "QUJD" ++ [NL], true)].
Proof.
  cbv zeta.
  assert (H : Forall RoundTrip.harmless
                (JDATFile.comments
                   (RoundTrip.parse
                      (lit "({< see (n:a >}) (n:a l:b t:2{x}) (n:c l:d t:1 encrypted{QUJD})"))))
    by (repeat constructor; right; reflexivity).
  rewrite (proj1 (reparse_serialized
                    (lit "({< see (n:a >}) (n:a l:b t:2{x}) (n:c l:d t:1 encrypted{QUJD})")
                    eq_refl H)).
  vm_compute. reflexivity.
Defined.

(** C7 as stated fails on the content: for the one-block text of the
    specification's own scenario, which has no comment and no brace
    inside its block, the block parsed back from the serialised File
    does not have the content of the block parsed first. *)
Lemma reparse_changes_content :
  let T := lit "(n:user l:u1 t:1 {" ++ [NL] ++ lit "  name: Alice" ++ [NL]
           ++ lit "  age: 30" ++ [NL] ++ lit "})" ++ [NL] in
  JDATFile.comments (RoundTrip.parse T) = []
  /\ map RoundTrip.fields
         (JDATFile.blocks (RoundTrip.parse (RoundTrip.serialize (RoundTrip.parse T))))
     <> map RoundTrip.fields (JDATFile.blocks (RoundTrip.parse T)).
Proof.
  cbv zeta. split; [vm_compute; reflexivity|].
  intros H. vm_compute in H. discriminate H.
Qed.

(** * Further properties of the registry *)

Module Registry.
Import JDATFile.

(** No block of [bs] has the link [l]. *)
Definition absent (l : str) (bs : list JDATBlock.t) : Prop :=
  Forall (fun x => JDATBlock.link x <> l) bs.

(** The links of a File are pairwise different. *)
Definition unique_links (f : t) : Prop :=
  NoDup (map JDATBlock.link (blocks f)).

Lemma find_split (bs : list JDATBlock.t) (l : str) (b : JDATBlock.t) :
  find_by_link bs l = Some b ->
  exists pre post,
    bs = pre ++ b :: post /\ JDATBlock.link b = l /\ absent l pre.
Proof.
  induction bs as [|a bs IH]; cbn [find_by_link]; [discriminate|].
  destruct (str_eqb (JDATBlock.link a) l) eqn:E.
  - intros H. injection H as ->. exists [], bs.
    split; [reflexivity|]. split; [now apply str_eqb_eq|constructor].
  - intros H. destruct (IH H) as (pre & post & -> & Hl & Hp).
    exists (a :: pre), post. split; [reflexivity|]. split; [exact Hl|].
    constructor; [now apply str_eqb_neq|exact Hp].
Qed.

Lemma find_absent (bs : list JDATBlock.t) (l : str) :
  find_by_link bs l = None <-> absent l bs.
Proof.
  induction bs as [|a bs IH]; cbn [find_by_link].
  - split; [constructor|reflexivity].
  - destruct (str_eqb (JDATBlock.link a) l) eqn:E; split.
    + discriminate.
    + intros H. inversion H as [|? ? Ha _]; subst.
      apply str_eqb_eq in E. contradiction.
    + intros H. constructor; [now apply str_eqb_neq|now apply IH].
    + intros H. inversion H; subst. now apply IH.
Qed.

Lemma find_skip (pre rest : list JDATBlock.t) (l : str) :
  absent l pre -> find_by_link (pre ++ rest) l = find_by_link rest l.
Proof.
  induction pre as [|a pre IH]; [reflexivity|].
  intros H. inversion H as [|? ? Ha Hp]; subst. cbn [app find_by_link].
  apply str_eqb_neq in Ha. rewrite Ha. now apply IH.
Qed.

Lemma find_hit (b : JDATBlock.t) (rest : list JDATBlock.t) :
  find_by_link (b :: rest) (JDATBlock.link b) = Some b.
Proof. cbn [find_by_link]. now rewrite str_eqb_refl. Qed.

Lemma find_miss (b : JDATBlock.t) (rest : list JDATBlock.t) (l : str) :
  JDATBlock.link b <> l -> find_by_link (b :: rest) l = find_by_link rest l.
Proof. intros H. cbn [find_by_link]. apply str_eqb_neq in H. now rewrite H. Qed.

Lemma store_split (pre post : list JDATBlock.t) (b b' : JDATBlock.t) (l : str) :
  absent l pre -> JDATBlock.link b = l ->
  store_by_link (pre ++ b :: post) l b' = pre ++ b' :: post.
Proof.
  intros Hp Hb. induction pre as [|a pre IH]; cbn [app store_by_link].
  - subst l. now rewrite str_eqb_refl.
  - inversion Hp as [|? ? Ha Hp']; subst. apply str_eqb_neq in Ha.
    rewrite Ha. now rewrite IH.
Qed.

Lemma remove_split (pre post : list JDATBlock.t) (b : JDATBlock.t) (l : str) :
  absent l pre -> JDATBlock.link b = l ->
  remove_first (pre ++ b :: post) l = (true, pre ++ post).
Proof.
  intros Hp Hb. induction pre as [|a pre IH]; cbn [app remove_first].
  - subst l. now rewrite str_eqb_refl.
  - inversion Hp as [|? ? Ha Hp']; subst. apply str_eqb_neq in Ha.
    rewrite Ha. now rewrite IH.
Qed.

Lemma remove_absent (bs : list JDATBlock.t) (l : str) :
  absent l bs -> remove_first bs l = (false, bs).
Proof.
  induction bs as [|a bs IH]; [reflexivity|].
  intros H. inversion H as [|? ? Ha Hp]; subst. cbn [remove_first].
  apply str_eqb_neq in Ha. rewrite Ha. now rewrite IH.
Qed.

(** A lookup of another link does not see a change at the first block
    linked [l]. *)
Lemma find_other (pre post : list JDATBlock.t) (b b' : JDATBlock.t) (l l' : str) :
  JDATBlock.link b = l -> JDATBlock.link b' = l -> l' <> l ->
  find_by_link (pre ++ b' :: post) l' = find_by_link (pre ++ b :: post) l'.
Proof.
  intros Hb Hb' Hl. induction pre as [|a pre IH]; cbn [app find_by_link].
  - rewrite Hb, Hb'.
    assert (E : str_eqb l l' = false) by (apply str_eqb_neq; congruence).
    now rewrite E.
  - now rewrite IH.
Qed.

Lemma find_other_removed (pre post : list JDATBlock.t) (b : JDATBlock.t) (l l' : str) :
  JDATBlock.link b = l -> l' <> l ->
  find_by_link (pre ++ post) l' = find_by_link (pre ++ b :: post) l'.
Proof.
  intros Hb Hl. induction pre as [|a pre IH]; cbn [app find_by_link].
  - rewrite Hb. assert (E : str_eqb l l' = false) by (apply str_eqb_neq; congruence).
    now rewrite E.
  - now rewrite IH.
Qed.

Lemma find_appended (bs : list JDATBlock.t) (b : JDATBlock.t) (l : str) :
  find_by_link (bs ++ [b]) l
  = match find_by_link bs l with
    | Some x => Some x
    | None => if str_eqb (JDATBlock.link b) l then Some b else None
    end.
Proof.
  induction bs as [|a bs IH]; cbn [app find_by_link]; [reflexivity|].
  destruct (str_eqb (JDATBlock.link a) l); [reflexivity|exact IH].
Qed.

Lemma find_by_name_split (bs : list JDATBlock.t) (n : str) (b : JDATBlock.t) :
  find_by_name bs n = Some b ->
  exists pre post,
    bs = pre ++ b :: post /\ JDATBlock.name b = n
    /\ Forall (fun x => JDATBlock.name x <> n) pre.
Proof.
  induction bs as [|a bs IH]; cbn [find_by_name]; [discriminate|].
  destruct (str_eqb (JDATBlock.name a) n) eqn:E.
  - intros H. injection H as ->. exists [], bs.
    split; [reflexivity|]. split; [now apply str_eqb_eq|constructor].
  - intros H. destruct (IH H) as (pre & post & -> & Hl & Hp).
    exists (a :: pre), post. split; [reflexivity|]. split; [exact Hl|].
    constructor; [now apply str_eqb_neq|exact Hp].
Qed.

Lemma find_by_name_absent (bs : list JDATBlock.t) (n : str) :
  find_by_name bs n = None -> Forall (fun x => JDATBlock.name x <> n) bs.
Proof.
  induction bs as [|a bs IH]; cbn [find_by_name]; [constructor|].
  destruct (str_eqb (JDATBlock.name a) n) eqn:E; [discriminate|].
  intros H. constructor; [now apply str_eqb_neq|now apply IH].
Qed.

End Registry.

(** X1.  [get_by_link] and [get_by_name] return the first block in
    block order whose link (name) is the one asked for: everything
    before it has another link (name); they return [None] exactly when
    no block has it. *)
Theorem lookup_first_match (f : JDATFile.t) (key : str) :
  match JDATFile.get_by_link f key with
  | Some b =>
      exists pre post,
        JDATFile.blocks f = pre ++ b :: post /\ JDATBlock.link b = key
        /\ Forall (fun x => JDATBlock.link x <> key) pre
  | None => Forall (fun x => JDATBlock.link x <> key) (JDATFile.blocks f)
  end
  /\ match JDATFile.get_by_name f key with
     | Some b =>
         exists pre post,
           JDATFile.blocks f = pre ++ b :: post /\ JDATBlock.name b = key
           /\ Forall (fun x => JDATBlock.name x <> key) pre
     | None => Forall (fun x => JDATBlock.name x <> key) (JDATFile.blocks f)
     end.
Proof.
  unfold JDATFile.get_by_link, JDATFile.get_by_name. split.
  - destruct (JDATFile.find_by_link (JDATFile.blocks f) key) eqn:E.
    + now apply Registry.find_split.
    + now apply Registry.find_absent.
  - destruct (JDATFile.find_by_name (JDATFile.blocks f) key) eqn:E.
    + now apply Registry.find_by_name_split.
    + now apply Registry.find_by_name_absent.
Qed.

(** X2.  [add_block] with a link that no block has returns, appends one
    new block (unencrypted, with an empty cache) after the blocks
    already there, and leaves path and comments alone; the new link then
    resolves to the new block and every other link resolves as before. *)
Theorem add_block_then_lookup
  (f : JDATFile.t) (name link : str) (btype : Z) (content : str) :
  JDATFile.get_by_link f link = None ->
  let b := JDATBlock.mk name link btype content false None in
  exists f',
    JDATFile.add_block f name link btype content = (Return tt, f')
    /\ JDATFile.blocks f' = JDATFile.blocks f ++ [b]
    /\ JDATFile.path f' = JDATFile.path f
    /\ JDATFile.comments f' = JDATFile.comments f
    /\ JDATFile.get_by_link f' link = Some b
    /\ forall l', l' <> link ->
         JDATFile.get_by_link f' l' = JDATFile.get_by_link f l'.
Proof.
  intros H. cbv zeta. unfold JDATFile.add_block, JDATBlock.__init__. rewrite H.
  eexists. split; [reflexivity|].
  unfold JDATFile.get_by_link in *. cbn [JDATFile.blocks JDATFile.set_blocks
    JDATFile.path JDATFile.comments].
  repeat split.
  - rewrite Registry.find_appended, H. cbn [JDATBlock.link].
    now rewrite str_eqb_refl.
  - intros l' Hl. rewrite Registry.find_appended. cbn [JDATBlock.link].
    destruct (JDATFile.find_by_link (JDATFile.blocks f) l'); [reflexivity|].
    assert (E : str_eqb link l' = false) by (apply str_eqb_neq; congruence).
    now rewrite E.
Qed.

Lemma add_block_then_lookup_witness :
  let f := RegistryFacts.file_of "(n:a l:b t:2{x})" in
  JDATFile.get_by_link f (lit "c") = None
  /\ exists f',
      JDATFile.add_block f (lit "n") (lit "c") 1 (lit "k: v") = (Return tt, f')
      /\ List.length (JDATFile.blocks f') = 2.
Proof.
  cbv zeta. split; [reflexivity|].
  destruct (add_block_then_lookup (RegistryFacts.file_of "(n:a l:b t:2{x})")
              (lit "n") (lit "c") 1 (lit "k: v") eq_refl)
    as (f' & H1 & H2 & _).
  exists f'. split; [exact H1|]. rewrite H2. reflexivity.
Defined.

(** X3.  [add_block] with a link that some block already has raises
    [ValueError] and leaves the File as it was; in particular adding the
    same link twice fails the second time, whatever name, kind and
    content the second call gives. *)
Theorem add_block_duplicate_rejected
  (f : JDATFile.t) (name link : str) (btype : Z) (content : str) :
  (JDATFile.get_by_link f link <> None ->
   exists msg,
     JDATFile.add_block f name link btype content = (Raise (ValueError msg), f))
  /\ (JDATFile.get_by_link f link = None ->
      forall f1 name' btype' content',
        JDATFile.add_block f name link btype content = (Return tt, f1) ->
        exists msg,
          JDATFile.add_block f1 name' link btype' content'
          = (Raise (ValueError msg), f1)).
Proof.
  split.
  - intros H. unfold JDATFile.add_block.
    destruct (JDATFile.get_by_link f link); [|contradiction].
    eexists. reflexivity.
  - intros H f1 name' btype' content' H1.
    unfold JDATFile.add_block in H1. rewrite H in H1. injection H1 as <-.
    unfold JDATFile.add_block, JDATFile.get_by_link.
    cbn [JDATFile.blocks JDATFile.set_blocks].
    rewrite Registry.find_appended. unfold JDATFile.get_by_link in H. rewrite H.
    cbn [JDATBlock.link JDATBlock.__init__]. rewrite str_eqb_refl.
    eexists. reflexivity.
Qed.

Lemma add_block_duplicate_rejected_witness :
  let f := RegistryFacts.file_of "(n:a l:b t:2{x})" in
  JDATFile.get_by_link f (lit "b") <> None
  /\ exists msg,
      JDATFile.add_block f (lit "n") (lit "b") 1 (lit "k: v")
      = (Raise (ValueError msg), f).
Proof.
  cbv zeta.
  assert (H : JDATFile.get_by_link (RegistryFacts.file_of "(n:a l:b t:2{x})")
                (lit "b") <> None) by (vm_compute; discriminate).
  split; [exact H|].
  exact (proj1 (add_block_duplicate_rejected _ (lit "n") (lit "b") 1 (lit "k: v")) H).
Defined.

Module RegistryFrame.
Import JDATFile Registry.

Lemma set_blocks_same (f : t) : set_blocks f (blocks f) = f.
Proof. now destruct f. Qed.

Lemma absent_in (l : str) (bs : list JDATBlock.t) :
  ~ In l (map JDATBlock.link bs) -> absent l bs.
Proof.
  intros H. apply Forall_forall. intros x Hx E. apply H.
  rewrite <- E. now apply in_map.
Qed.

Lemma nodup_remove_middle {A} (pre post : list A) (x : A) :
  NoDup (pre ++ x :: post) -> NoDup (pre ++ post) /\ ~ In x post.
Proof.
  intros H. split; [now apply NoDup_remove_1 in H|].
  apply NoDup_remove_2 in H. intros Hx. apply H. apply in_or_app. now right.
Qed.

(** What a cipher operation may change: nothing but one block, and of
    that block neither name, link nor kind. *)
Definition outline (b : JDATBlock.t) : str * str * Z :=
  (JDATBlock.name b, JDATBlock.link b, JDATBlock.type b).

Lemma store_outline (bs : list JDATBlock.t) (l : str) (b b' : JDATBlock.t) :
  find_by_link bs l = Some b -> outline b' = outline b ->
  map outline (store_by_link bs l b') = map outline bs
  /\ forall l', l' <> l ->
       find_by_link (store_by_link bs l b') l' = find_by_link bs l'.
Proof.
  intros Hf Ho. destruct (find_split _ _ _ Hf) as (pre & post & -> & Hl & Hp).
  assert (Hl' : JDATBlock.link b' = l).
  { unfold outline in Ho. injection Ho as _ E _. congruence. }
  rewrite (store_split pre post b b' l Hp Hl). split.
  - rewrite !map_app. cbn [map]. now rewrite Ho.
  - intros l' Hne. now apply (find_other pre post b b' l l').
Qed.

Lemma rebuild_outline (b : JDATBlock.t) :
  outline (JDATBlock._rebuild_content b) = outline b.
Proof.
  unfold JDATBlock._rebuild_content.
  destruct (JDATBlock._data b); [|reflexivity].
  destruct (JDATBlock.type b =? 1)%Z; reflexivity.
Qed.

Section WithLibrary.
Context {L : JDATCrypto.Library}.

Lemma encrypt_block_shape (f : t) (l pw : str) (e : JDATCrypto.entropy) :
  (snd (fst (encrypt_block f l pw e)) = f)
  \/ exists b b',
      get_by_link f l = Some b /\ outline b' = outline b
      /\ snd (fst (encrypt_block f l pw e)) = mutate f l b'.
Proof.
  unfold encrypt_block.
  destruct (get_by_link f l) as [b|] eqn:Hb; [|now left].
  destruct (JDATBlock.encrypted b); [now left|].
  right. exists b.
  set (b1 := if (JDATBlock.type b =? 1)%Z then JDATBlock._rebuild_content b else b).
  assert (H1 : outline b1 = outline b).
  { subst b1. destruct (JDATBlock.type b =? 1)%Z; [apply rebuild_outline|reflexivity]. }
  destruct (JDATCrypto.encrypt (JDATBlock.content b1) pw e) as [[c|x] e1].
  - eexists. split; [reflexivity|]. split; [|reflexivity]. exact H1.
  - eexists. split; [reflexivity|]. split; [|reflexivity]. exact H1.
Qed.

Lemma decrypt_block_shape (f : t) (l pw : str) :
  (snd (decrypt_block f l pw) = f)
  \/ exists b b',
      get_by_link f l = Some b /\ outline b' = outline b
      /\ snd (decrypt_block f l pw) = mutate f l b'.
Proof.
  unfold decrypt_block.
  destruct (get_by_link f l) as [b|] eqn:Hb; [|now left].
  destruct (JDATBlock.encrypted b); cbn [negb]; [|now left].
  destruct (JDATCrypto.decrypt (JDATBlock.content b) pw) as [c|x]; [|now left].
  right. exists b. eexists. split; [reflexivity|]. split; [|reflexivity].
  reflexivity.
Qed.
End WithLibrary.

(** The part of a File that cipher operations leave alone. *)
Definition framed (l : str) (f f' : t) : Prop :=
  path f' = path f /\ comments f' = comments f
  /\ map outline (blocks f') = map outline (blocks f)
  /\ forall l', l' <> l -> get_by_link f' l' = get_by_link f l'.

Lemma framed_refl (l : str) (f : t) : framed l f f.
Proof. repeat split. Qed.

Lemma framed_mutate (l : str) (f : t) (b b' : JDATBlock.t) :
  get_by_link f l = Some b -> outline b' = outline b -> framed l f (mutate f l b').
Proof.
  intros Hb Ho. destruct (store_outline _ _ _ _ Hb Ho) as [H1 H2].
  repeat split; assumption.
Qed.

End RegistryFrame.

(** X4.  [remove_block] removes the first block with the given link and
    no other, and returns [True]; when no block has the link it returns
    [False] and leaves the File as it was.  Lookups of other links are
    not affected; a lookup of the removed link afterwards goes on from
    where the removed block was, so a later block with the same link (a
    parsed File may have one) is found. *)
Theorem remove_block_first_match (f : JDATFile.t) (l : str) :
  match JDATFile.get_by_link f l with
  | Some b =>
      exists pre post,
        JDATFile.blocks f = pre ++ b :: post
        /\ Forall (fun x => JDATBlock.link x <> l) pre
        /\ JDATFile.remove_block f l = (true, JDATFile.set_blocks f (pre ++ post))
        /\ JDATFile.get_by_link (snd (JDATFile.remove_block f l)) l
           = JDATFile.find_by_link post l
  | None => JDATFile.remove_block f l = (false, f)
  end
  /\ forall l', l' <> l ->
       JDATFile.get_by_link (snd (JDATFile.remove_block f l)) l'
       = JDATFile.get_by_link f l'.
Proof.
  unfold JDATFile.get_by_link, JDATFile.remove_block.
  destruct (JDATFile.find_by_link (JDATFile.blocks f) l) as [b|] eqn:E.
  - destruct (Registry.find_split _ _ _ E) as (pre & post & Hs & Hl & Hp).
    rewrite Hs, (Registry.remove_split pre post b l Hp Hl).
    cbn [snd JDATFile.blocks JDATFile.set_blocks]. split.
    + exists pre, post. repeat split; [exact Hp|].
      now apply Registry.find_skip.
    + intros l' Hne. now apply (Registry.find_other_removed pre post b l l').
  - apply Registry.find_absent in E.
    rewrite (Registry.remove_absent _ _ E), RegistryFrame.set_blocks_same.
    split; [reflexivity|]. reflexivity.
Qed.

(** X5.  In a File whose links are pairwise different, a removed link is
    gone: after [remove_block] the link resolves to nothing and
    [add_block] with that link returns. *)
Theorem remove_then_add
  (f : JDATFile.t) (l name : str) (btype : Z) (content : str) :
  Registry.unique_links f ->
  let f' := snd (JDATFile.remove_block f l) in
  JDATFile.get_by_link f' l = None
  /\ fst (JDATFile.add_block f' name l btype content) = Return tt
  /\ Registry.unique_links (snd (JDATFile.add_block f' name l btype content)).
Proof.
  intros Hu. cbv zeta.
  assert (H : JDATFile.get_by_link (snd (JDATFile.remove_block f l)) l = None
              /\ Registry.unique_links (snd (JDATFile.remove_block f l))).
  { unfold JDATFile.get_by_link, JDATFile.remove_block, Registry.unique_links in *.
    destruct (JDATFile.find_by_link (JDATFile.blocks f) l) as [b|] eqn:E.
    - destruct (Registry.find_split _ _ _ E) as (pre & post & Hs & Hl & Hp).
      rewrite Hs in Hu |- *. rewrite (Registry.remove_split pre post b l Hp Hl).
      cbn [snd JDATFile.blocks JDATFile.set_blocks].
      rewrite map_app in Hu. cbn [map] in Hu.
      destruct (RegistryFrame.nodup_remove_middle _ _ _ Hu) as [Hn Hi].
      split.
      + rewrite Registry.find_skip by exact Hp.
        apply Registry.find_absent. apply RegistryFrame.absent_in. now rewrite <- Hl.
      + now rewrite map_app.
    - pose proof E as E'. apply Registry.find_absent in E'.
      rewrite (Registry.remove_absent _ _ E'). cbn [snd JDATFile.blocks JDATFile.set_blocks].
      split; assumption. }
  destruct H as [Hn Hu']. split; [exact Hn|].
  unfold JDATFile.add_block. rewrite Hn. cbn [fst snd]. split; [reflexivity|].
  unfold Registry.unique_links in *. cbn [JDATFile.blocks JDATFile.set_blocks].
  rewrite map_app. cbn [map JDATBlock.link JDATBlock.__init__].
  apply NoDup_app; [exact Hu'|repeat constructor; intros []|].
  intros x Hx [<-|[]].
  unfold JDATFile.get_by_link in Hn. apply Registry.find_absent in Hn.
  apply in_map_iff in Hx. destruct Hx as (b & Hb & Hin).
  unfold Registry.absent in Hn. rewrite Forall_forall in Hn. now apply (Hn b Hin).
Qed.

Lemma remove_then_add_witness :
  let f := RegistryFacts.file_of "(n:a l:b t:2{x}) (n:c l:d t:1{k: v})" in
  Registry.unique_links f
  /\ fst (JDATFile.add_block (snd (JDATFile.remove_block f (lit "b")))
            (lit "z") (lit "b") 2 (lit "y")) = Return tt.
Proof.
  cbv zeta.
  assert (H : Registry.unique_links
                (RegistryFacts.file_of "(n:a l:b t:2{x}) (n:c l:d t:1{k: v})")).
  { unfold Registry.unique_links.
    repeat constructor; cbn; intuition discriminate. }
  split; [exact H|].
  exact (proj1 (proj2 (remove_then_add _ (lit "b") (lit "z") 2 (lit "y") H))).
Defined.

(** X6.  The cipher operations touch one block at most.  Whatever
    [encrypt_block] and [decrypt_block] return or raise, the File keeps
    its path, its comments, the number and order of its blocks and every
    block's name, link and kind, and every other link resolves to the
    same block as before. *)
Theorem cipher_operations_frame
  {L : JDATCrypto.Library} (f : JDATFile.t) (l password : str)
  (e : JDATCrypto.entropy) :
  RegistryFrame.framed l f (snd (fst (JDATFile.encrypt_block f l password e)))
  /\ RegistryFrame.framed l f (snd (JDATFile.decrypt_block f l password)).
Proof.
  split.
  - destruct (RegistryFrame.encrypt_block_shape f l password e)
      as [-> | (b & b' & Hb & Ho & ->)];
      [apply RegistryFrame.framed_refl|now apply (RegistryFrame.framed_mutate l f b b')].
  - destruct (RegistryFrame.decrypt_block_shape f l password)
      as [-> | (b & b' & Hb & Ho & ->)];
      [apply RegistryFrame.framed_refl|now apply (RegistryFrame.framed_mutate l f b b')].
Qed.

Module CipherMore.
Import JDATCrypto JDATFile Registry.

Lemma strip_leading (a s : str) : forallb isspace a = true -> strip (a ++ s) = strip s.
Proof.
  intros H. unfold strip. f_equal.
  induction a as [|x a IH]; [reflexivity|].
  cbn [forallb] in H. apply andb_prop in H. destruct H as [Hx Ha].
  cbn [app lstrip]. rewrite Hx. now apply IH.
Qed.

Lemma strip_trailing (s b : str) : forallb isspace b = true -> strip (s ++ b) = strip s.
Proof.
  revert s. induction b as [|x b IH]; intros s H.
  - now rewrite app_nil_r.
  - cbn [forallb] in H. apply andb_prop in H. destruct H as [Hx Hb].
    replace (s ++ x :: b) with ((s ++ [x]) ++ b) by (now rewrite <- app_assoc).
    rewrite IH by exact Hb. now apply StripFacts.strip_snoc_space.
Qed.

Lemma store_store (bs : list JDATBlock.t) (l : str) (b b1 b2 : JDATBlock.t) :
  find_by_link bs l = Some b -> JDATBlock.link b1 = l ->
  store_by_link (store_by_link bs l b1) l b2 = store_by_link bs l b2.
Proof.
  intros Hf H1. destruct (find_split _ _ _ Hf) as (pre & post & -> & Hl & Hp).
  rewrite (store_split pre post b b1 l Hp Hl).
  rewrite (store_split pre post b1 b2 l Hp H1).
  now rewrite (store_split pre post b b2 l Hp Hl).
Qed.

Section WithLibrary.
Context {L : Library}.

(** What [decrypt] makes of a package of [encrypt]. *)
Lemma decrypt_package (plaintext password : str) (e : entropy) (c : str) :
  fst (encrypt plaintext password e) = Return c ->
  decrypt c password = Return plaintext.
Proof.
  destruct (CryptoFacts.encrypt_returns plaintext password e) as (ct & _ & Hdec & He).
  cbv zeta in He. rewrite He. cbn [fst]. intros H.
  match type of H with Return ?x = _ => assert (c = x) by congruence end.
  subst c. clear H.
  rewrite CryptoFacts.decrypt_cases.
  rewrite CryptoFacts.strip_nospace by apply b64encode_nospace.
  rewrite b64decode_encode. cbv zeta.
  destruct (CryptoFacts.unpack (fst (urandom SALT_SIZE e))
              (fst (urandom NONCE_SIZE (snd (urandom SALT_SIZE e)))) ct)
    as (Hs & Hn & Hc); try apply CryptoFacts.urandom_length.
  rewrite Hs, Hn, Hc, Hdec. now rewrite utf8_decode_encode.
Qed.

Lemma decrypt_strip (c password : str) : decrypt c password = decrypt (strip c) password.
Proof.
  rewrite !CryptoFacts.decrypt_cases.
  replace (strip (strip c)) with (strip c); [reflexivity|].
  unfold strip at 2. unfold rstrip.
  set (t := lstrip c).
  assert (Hl : forall s, lstrip (lstrip s) = lstrip s).
  { induction s as [|x s IH]; [reflexivity|]. cbn [lstrip].
    destruct (isspace x) eqn:E; [exact IH|]. cbn [lstrip]. now rewrite E. }
  assert (Hk : forall s, (match s with [] => True | x :: _ => isspace x = false end) ->
                         lstrip s = s).
  { intros [|x s] H; [reflexivity|]. cbn [lstrip]. now rewrite H. }
  assert (Hh : forall s, match lstrip s with [] => True | x :: _ => isspace x = false end).
  { induction s as [|x s IH]; [exact I|]. cbn [lstrip].
    destruct (isspace x) eqn:E; [exact IH|exact E]. }
  (* the trimmed text starts and ends outside white space *)
  set (u := rev (lstrip (rev t))).
  assert (Hu1 : lstrip u = u).
  { apply Hk. subst u.
    destruct (lstrip (rev t)) as [|y r] eqn:Er; [exact I|].
    assert (Ht : match t with [] => True | x :: _ => isspace x = false end)
      by apply Hh.
    (* the head of [rev (y :: r)] is the head of [t] or [y] itself *)
    assert (Hy : isspace y = false).
    { pose proof (Hh (rev t)) as H. now rewrite Er in H. }
    assert (Hsuf : exists w, rev t = w ++ y :: r).
    { clear -Er. induction (rev t) as [|z s IH]; [discriminate|].
      cbn [lstrip] in Er. destruct (isspace z).
      - destruct (IH Er) as [w ->]. now exists (z :: w).
      - exists []. now rewrite Er. }
    destruct Hsuf as [w Hw].
    apply (f_equal (@rev ascii)) in Hw. rewrite rev_involutive in Hw.
    rewrite rev_app_distr in Hw. rewrite Hw in Ht.
    destruct (rev (y :: r)) as [|h q] eqn:Eq.
    - exact I.
    - cbn [app] in Ht. exact Ht. }
  unfold strip, rstrip. fold t. fold u. rewrite Hu1.
  subst u. rewrite rev_involutive. now rewrite Hl.
Qed.
End WithLibrary.

End CipherMore.

(** X7.  [decrypt] does not see white space around the package: the
    text is trimmed first, so a package between line feeds (as [_parse]
    returns the content of a serialised encrypted block) decrypts like
    the package itself. *)
Theorem decrypt_ignores_outer_space
  {L : JDATCrypto.Library} (before c after password : str) :
  forallb isspace before = true -> forallb isspace after = true ->
  JDATCrypto.decrypt (before ++ c ++ after) password = JDATCrypto.decrypt c password.
Proof.
  intros Ha Hb.
  rewrite (CipherMore.decrypt_strip (before ++ c ++ after)).
  rewrite (CipherMore.decrypt_strip c).
  now rewrite CipherMore.strip_leading, CipherMore.strip_trailing.
Qed.

Lemma decrypt_ignores_outer_space_witness :
  exists c,
    fst (JDATCrypto.encrypt (L := SampleLibrary.sample) (lit "text") (lit "pw")
           SampleLibrary.counting) = Return c
    /\ JDATCrypto.decrypt (L := SampleLibrary.sample) ([NL] ++ c ++ [NL]) (lit "pw")
       = Return (lit "text").
Proof.
  eexists. split; [vm_compute; reflexivity|].
  rewrite (decrypt_ignores_outer_space (L := SampleLibrary.sample) [NL] _ [NL] (lit "pw")
             eq_refl eq_refl).
  vm_compute. reflexivity.
Defined.


Module CipherBlocks.
Import JDATCrypto JDATFile Registry.

(** The block [encrypt_block] encrypts: a structured block has its view
    written back into [content] first. *)
Definition flushed (b : JDATBlock.t) : JDATBlock.t :=
  if (JDATBlock.type b =? 1)%Z then JDATBlock._rebuild_content b else b.

Lemma flushed_link (b : JDATBlock.t) : JDATBlock.link (flushed b) = JDATBlock.link b.
Proof.
  unfold flushed, JDATBlock._rebuild_content.
  destruct (JDATBlock.type b =? 1)%Z; [|reflexivity].
  destruct (JDATBlock._data b); reflexivity.
Qed.

Section WithLibrary.
Context {L : Library}.

(** A successful [encrypt_block], spelled out. *)
Lemma encrypt_block_found (f : t) (l pw : str) (e : entropy) (b : JDATBlock.t) :
  get_by_link f l = Some b -> JDATBlock.encrypted b = false ->
  exists c,
    fst (encrypt (JDATBlock.content (flushed b)) pw e) = Return c
    /\ encrypt_block f l pw e
       = (Return true,
          mutate f l (JDATBlock.set_encrypted (JDATBlock.set_content (flushed b) c) true),
          snd (encrypt (JDATBlock.content (flushed b)) pw e)).
Proof.
  intros Hb He. unfold encrypt_block. rewrite Hb, He. fold (flushed b).
  destruct (CryptoFacts.encrypt_returns (JDATBlock.content (flushed b)) pw e)
    as (ct & _ & _ & E).
  cbv zeta in E. rewrite E. cbn [fst snd]. eexists. split; reflexivity.
Qed.

Lemma get_mutated (f : t) (l : str) (b b' : JDATBlock.t) :
  get_by_link f l = Some b -> JDATBlock.link b' = l ->
  get_by_link (mutate f l b') l = Some b'.
Proof.
  intros Hb Hl. unfold get_by_link, mutate in *. cbn [blocks set_blocks].
  apply (RegistryFacts.find_store_same _ _ b); [exact Hb|].
  destruct (find_split _ _ _ Hb) as (_ & _ & _ & E & _). congruence.
Qed.

Lemma found_link (f : t) (l : str) (b : JDATBlock.t) :
  get_by_link f l = Some b -> JDATBlock.link b = l.
Proof.
  intros Hb. destruct (find_split _ _ _ Hb) as (_ & _ & _ & E & _). exact E.
Qed.
End WithLibrary.

End CipherBlocks.

(** X9.  [encrypt_block] and then [decrypt_block] with the same password
    both return [True] and give the block back in clear: its content is
    the content that was encrypted (for a structured block, its view
    written back first), it is not marked encrypted and its cache is
    empty; the rest of the File is as it was. *)
Theorem encrypt_then_decrypt_block
  {L : JDATCrypto.Library} (f : JDATFile.t) (l password : str)
  (e : JDATCrypto.entropy) (b : JDATBlock.t) :
  JDATFile.get_by_link f l = Some b ->
  JDATBlock.encrypted b = false ->
  let clear := JDATBlock.mk (JDATBlock.name b) (JDATBlock.link b) (JDATBlock.type b)
                 (JDATBlock.content (CipherBlocks.flushed b)) false None in
  exists f1 e1 c,
    JDATFile.encrypt_block f l password e = (Return true, f1, e1)
    /\ JDATFile.get_by_link f1 l
       = Some (JDATBlock.mk (JDATBlock.name b) (JDATBlock.link b) (JDATBlock.type b)
                 c true (JDATBlock._data (CipherBlocks.flushed b)))
    /\ JDATFile.decrypt_block f1 l password = (Return true, JDATFile.mutate f l clear)
    /\ JDATFile.get_by_link (JDATFile.mutate f l clear) l = Some clear.
Proof.
  intros Hb He. cbv zeta.
  destruct (CipherBlocks.encrypt_block_found f l password e b Hb He) as (c & Hc & E).
  rewrite E. do 3 eexists. split; [reflexivity|].
  pose proof (CipherBlocks.found_link f l b Hb) as Hl.
  set (b1 := JDATBlock.set_encrypted
               (JDATBlock.set_content (CipherBlocks.flushed b) c) true).
  assert (Hl1 : JDATBlock.link b1 = l).
  { subst b1. cbn [JDATBlock.link JDATBlock.set_encrypted JDATBlock.set_content].
    now rewrite CipherBlocks.flushed_link. }
  assert (Hg : JDATFile.get_by_link (JDATFile.mutate f l b1) l = Some b1)
    by (apply (CipherBlocks.get_mutated f l b b1 Hb Hl1)).
  assert (Ho : RegistryFrame.outline (CipherBlocks.flushed b) = RegistryFrame.outline b).
  { unfold CipherBlocks.flushed.
    destruct (JDATBlock.type b =? 1)%Z; [apply RegistryFrame.rebuild_outline|reflexivity]. }
  unfold RegistryFrame.outline in Ho. injection Ho as Hn Hk Ht.
  split.
  { rewrite Hg. subst b1. unfold JDATBlock.set_encrypted, JDATBlock.set_content.
    cbn [JDATBlock.name JDATBlock.link JDATBlock.type JDATBlock.content
         JDATBlock.encrypted JDATBlock._data].
    now rewrite Hn, Hk, Ht. }
  split.
  { unfold JDATFile.decrypt_block. rewrite Hg.
    subst b1. cbn [JDATBlock.encrypted JDATBlock.set_encrypted negb
                   JDATBlock.content JDATBlock.set_content].
    rewrite (CipherMore.decrypt_package _ _ _ _ Hc).
    f_equal. unfold JDATFile.mutate. cbn [JDATFile.blocks JDATFile.set_blocks
      JDATFile.path JDATFile.comments].
    unfold JDATFile.set_blocks. cbn [JDATFile.path JDATFile.comments]. f_equal.
    rewrite (CipherMore.store_store (JDATFile.blocks f) l b); [|exact Hb|].
    - f_equal. unfold JDATBlock.set_data, JDATBlock.set_encrypted, JDATBlock.set_content.
      cbn [JDATBlock.name JDATBlock.link JDATBlock.type JDATBlock.content
           JDATBlock.encrypted JDATBlock._data].
      now rewrite Hn, Hk, Ht.
    - cbn [JDATBlock.link JDATBlock.set_encrypted JDATBlock.set_content].
      now rewrite CipherBlocks.flushed_link. }
  apply (CipherBlocks.get_mutated f l b); [exact Hb|exact Hl].
Qed.

Lemma encrypt_then_decrypt_block_witness :
  let f := RegistryFacts.file_of "(n:a l:b t:2{x}) (n:c l:d t:1{k: v})" in
  exists b f1 e1 f2 b2,
    JDATFile.get_by_link f (lit "d") = Some b
    /\ JDATBlock.encrypted b = false
    /\ JDATFile.encrypt_block (L := SampleLibrary.sample) f (lit "d") (lit "pw")
         SampleLibrary.counting = (Return true, f1, e1)
    /\ JDATFile.decrypt_block (L := SampleLibrary.sample) f1 (lit "d") (lit "pw")
       = (Return true, f2)
    /\ JDATFile.get_by_link f2 (lit "d") = Some b2
    /\ JDATBlock.content b2 = lit "k: v".
Proof.
  cbv zeta.
  assert (Hb : JDATFile.get_by_link
                 (RegistryFacts.file_of "(n:a l:b t:2{x}) (n:c l:d t:1{k: v})") (lit "d")
               = Some (JDATBlock.mk (lit "c") (lit "d") 1 (lit "k: v") false None))
    by (vm_compute; reflexivity).
  destruct (encrypt_then_decrypt_block (L := SampleLibrary.sample) _ (lit "d") (lit "pw")
              SampleLibrary.counting _ Hb eq_refl)
    as (f1 & e1 & c & H1 & _ & H3 & H4).
  do 5 eexists. split; [exact Hb|]. split; [reflexivity|].
  split; [exact H1|]. split; [exact H3|]. split; [exact H4|]. reflexivity.
Defined.

(** X10.  A block is never encrypted twice nor decrypted twice.  After
    an [encrypt_block] that returned [True], another [encrypt_block] on
    the same link raises [ValueError] and changes neither the File nor
    the entropy source, whatever the password; after a [decrypt_block]
    that returned [True], another [decrypt_block] raises [ValueError]
    and changes nothing. *)
Theorem cipher_state_mismatch
  {L : JDATCrypto.Library} (f f1 : JDATFile.t) (l password password' : str)
  (e e1 e' : JDATCrypto.entropy) :
  (JDATFile.encrypt_block f l password e = (Return true, f1, e1) ->
   JDATFile.encrypt_block f1 l password' e'
   = (Raise (ValueError "Bloc déjà chiffré"), f1, e'))
  /\ (JDATFile.decrypt_block f l password = (Return true, f1) ->
      JDATFile.decrypt_block f1 l password'
      = (Raise (ValueError "Bloc non chiffré"), f1)).
Proof.
  split.
  - unfold JDATFile.encrypt_block at 1.
    destruct (JDATFile.get_by_link f l) as [b|] eqn:Hb; [|discriminate].
    destruct (JDATBlock.encrypted b) eqn:He; [discriminate|].
    destruct (JDATCrypto.encrypt _ password e) as [[c|x] e2]; [|discriminate].
    intros H. injection H as <- _.
    unfold JDATFile.encrypt_block.
    rewrite (CipherBlocks.get_mutated f l b _ Hb).
    + reflexivity.
    + cbn [JDATBlock.link JDATBlock.set_encrypted JDATBlock.set_content].
      rewrite <- (CipherBlocks.found_link f l b Hb).
      apply CipherBlocks.flushed_link.
  - unfold JDATFile.decrypt_block at 1.
    destruct (JDATFile.get_by_link f l) as [b|] eqn:Hb; [|discriminate].
    destruct (JDATBlock.encrypted b) eqn:He; cbn [negb]; [|discriminate].
    destruct (JDATCrypto.decrypt _ password) as [c|x]; [|discriminate].
    intros H. injection H as <-.
    unfold JDATFile.decrypt_block.
    rewrite (CipherBlocks.get_mutated f l b _ Hb).
    + reflexivity.
    + cbn [JDATBlock.link JDATBlock.set_data JDATBlock.set_encrypted
           JDATBlock.set_content].
      apply (CipherBlocks.found_link f l b Hb).
Qed.

Lemma cipher_state_mismatch_witness :
  let f := RegistryFacts.file_of "(n:a l:b t:2{x})" in
  exists f1 e1,
    JDATFile.encrypt_block (L := SampleLibrary.sample) f (lit "b") (lit "pw")
      SampleLibrary.counting = (Return true, f1, e1)
    /\ JDATFile.encrypt_block (L := SampleLibrary.sample) f1 (lit "b") (lit "other")
         SampleLibrary.counting
       = (Raise (ValueError "Bloc déjà chiffré"), f1, SampleLibrary.counting).
Proof.
  cbv zeta. eexists. eexists.
  split; [vm_compute; reflexivity|].
  eapply (proj1 (cipher_state_mismatch (L := SampleLibrary.sample)
                   (RegistryFacts.file_of "(n:a l:b t:2{x})") _ (lit "b")
                   (lit "pw") (lit "other") SampleLibrary.counting _
                   SampleLibrary.counting)).
  vm_compute. reflexivity.
Defined.

(** * Further properties of the block model *)

Module ViewFacts.
Import JDATBlock.

Lemma dict_get_set_same (d : dict) (k v : str) : dict_get (dict_set d k v) k = Some v.
Proof.
  induction d as [|[k' v'] d IH]; cbn [dict_set dict_get].
  - now rewrite str_eqb_refl.
  - destruct (str_eqb k' k) eqn:E; cbn [dict_get]; rewrite E; [reflexivity|exact IH].
Qed.

Lemma dict_get_set_other (d : dict) (k k' v : str) :
  k' <> k -> dict_get (dict_set d k v) k' = dict_get d k'.
Proof.
  intros Hne. induction d as [|[k0 v0] d IH]; cbn [dict_set dict_get].
  - assert (E : str_eqb k k' = false) by (apply str_eqb_neq; congruence).
    now rewrite E.
  - destruct (str_eqb k0 k) eqn:E; cbn [dict_get].
    + apply str_eqb_eq in E. subst k0.
      assert (E' : str_eqb k k' = false) by (apply str_eqb_neq; congruence).
      now rewrite E'.
    + destruct (str_eqb k0 k'); [reflexivity|exact IH].
Qed.

(** [parse_data] and [set] on a block that is not structured. *)
Lemma parse_data_other (b : t) : type b <> 1%Z -> parse_data b = ([], b).
Proof.
  intros H. unfold parse_data.
  destruct (type b =? 1)%Z eqn:E; [apply Z.eqb_eq in E; contradiction|reflexivity].
Qed.

Lemma rebuild_other (b : t) : type b <> 1%Z -> _rebuild_content b = b.
Proof.
  intros H. unfold _rebuild_content.
  destruct (type b =? 1)%Z eqn:E; [apply Z.eqb_eq in E; contradiction|].
  now destruct (_data b).
Qed.

Lemma rebuild_idem (b : t) : _rebuild_content (_rebuild_content b) = _rebuild_content b.
Proof.
  unfold _rebuild_content.
  destruct (_data b) as [d|] eqn:Ed; [|now rewrite Ed].
  destruct (type b =? 1)%Z eqn:Et; cbn [_data set_content type]; rewrite ?Ed, ?Et;
    reflexivity.
Qed.

Lemma to_jdat_idem (b : t) :
  to_jdat (snd (to_jdat b)) = (fst (to_jdat b), snd (to_jdat b)).
Proof.
  unfold to_jdat.
  destruct (encrypted b) eqn:Ee; cbn [fst snd]; [now rewrite Ee|].
  destruct (type b =? 1)%Z eqn:Et; cbn [fst snd].
  - assert (H : encrypted (_rebuild_content b) = false
                /\ type (_rebuild_content b) = type b
                /\ name (_rebuild_content b) = name b
                /\ link (_rebuild_content b) = link b).
    { unfold _rebuild_content. destruct (_data b); [|auto].
      rewrite Et. cbn. auto. }
    destruct H as (H1 & H2 & H3 & H4).
    rewrite H1, H2, Et, rebuild_idem, H3, H4. reflexivity.
  - rewrite Ee, Et. reflexivity.
Qed.

End ViewFacts.

(** X11.  On a structured block a key that was [set] is read back by
    [get], and no other key is affected: [get(k)] after [set(k, v)] is
    [v], and [get(k')] for another key is what it was before. *)
Theorem get_after_set (b : JDATBlock.t) (k k' v : str) (default : option str) :
  JDATBlock.type b = 1%Z ->
  fst (JDATBlock.get (JDATBlock.set b k v) k default) = Some v
  /\ (k' <> k ->
      fst (JDATBlock.get (JDATBlock.set b k v) k' default)
      = fst (JDATBlock.get b k' default)).
Proof.
  intros Ht.
  destruct (DictFacts.parse_data_structured b Ht) as (d & Hp & _).
  rewrite (DictFacts.set_structured b k v d Ht Hp).
  unfold JDATBlock.get. rewrite Hp.
  unfold JDATBlock.parse_data. cbn [JDATBlock.type JDATBlock._data Z.eqb Pos.eqb negb fst].
  split.
  - now rewrite ViewFacts.dict_get_set_same.
  - intros Hne. now rewrite ViewFacts.dict_get_set_other.
Qed.

Lemma get_after_set_witness :
  let b := JDATBlock.__init__ (lit "user") (lit "u1") 1 (lit "name: Alice") false in
  JDATBlock.type b = 1%Z
  /\ fst (JDATBlock.get (JDATBlock.set b (lit "age") (lit "30")) (lit "age") None)
     = Some (lit "30").
Proof.
  cbv zeta. split; [reflexivity|].
  exact (proj1 (get_after_set
                  (JDATBlock.__init__ (lit "user") (lit "u1") 1 (lit "name: Alice") false)
                  (lit "age") (lit "name") (lit "30") None eq_refl)).
Defined.

(** X12.  On a block that is not structured, [set] is lost: it leaves
    name, link, kind, content and flag alone, [get] answers the default
    for every key before and after it, and the block serialises to the
    same text.  (Only the cache field changes, and no reader of a
    non-structured block looks at it.) *)
Theorem set_on_raw_block_is_lost
  (b : JDATBlock.t) (k v k' : str) (default : option str) :
  JDATBlock.type b <> 1%Z ->
  let b' := JDATBlock.set b k v in
  JDATBlock.name b' = JDATBlock.name b /\ JDATBlock.link b' = JDATBlock.link b
  /\ JDATBlock.type b' = JDATBlock.type b
  /\ JDATBlock.content b' = JDATBlock.content b
  /\ JDATBlock.encrypted b' = JDATBlock.encrypted b
  /\ fst (JDATBlock.get b k' default) = default
  /\ fst (JDATBlock.get b' k' default) = default
  /\ fst (JDATBlock.to_jdat b') = fst (JDATBlock.to_jdat b).
Proof.
  intros Ht. cbv zeta.
  assert (Hs : JDATBlock.set b k v = JDATBlock.set_data b (Some [(k, v)])).
  { unfold JDATBlock.set. rewrite (ViewFacts.parse_data_other b Ht).
    cbn [JDATBlock.dict_set]. apply ViewFacts.rebuild_other. exact Ht. }
  rewrite Hs. cbn [JDATBlock.name JDATBlock.link JDATBlock.type JDATBlock.content
                   JDATBlock.encrypted JDATBlock.set_data].
  repeat split.
  - unfold JDATBlock.get. now rewrite (ViewFacts.parse_data_other b Ht).
  - unfold JDATBlock.get.
    now rewrite (ViewFacts.parse_data_other (JDATBlock.set_data b _) Ht).
  - unfold JDATBlock.to_jdat.
    cbn [JDATBlock.name JDATBlock.link JDATBlock.type JDATBlock.content
         JDATBlock.encrypted JDATBlock.set_data].
    destruct (JDATBlock.encrypted b); [reflexivity|].
    destruct (JDATBlock.type b =? 1)%Z eqn:E; [|reflexivity].
    apply Z.eqb_eq in E. contradiction.
Qed.

Lemma set_on_raw_block_is_lost_witness :
  let b := JDATBlock.__init__ (lit "code") (lit "c1") 2 (lit "print(1)") false in
  JDATBlock.type b <> 1%Z
  /\ fst (JDATBlock.get (JDATBlock.set b (lit "k") (lit "v")) (lit "k") None) = None.
Proof.
  cbv zeta.
  assert (H : JDATBlock.type (JDATBlock.__init__ (lit "code") (lit "c1") 2
                                (lit "print(1)") false) <> 1%Z) by discriminate.
  split; [exact H|].
  exact (proj1 (proj2 (proj2 (proj2 (proj2 (proj2 (proj2
    (set_on_raw_block_is_lost _ (lit "k") (lit "v") (lit "k") None H)))))))).
Defined.

(** X13.  Once the view of a structured block has been built, the block
    does not read its content again.  A content assigned afterwards is
    not seen by [parse_data] or [get], and [to_jdat] of the unencrypted
    block overwrites it with the view rendered line by line, producing
    the same text as before the assignment. *)
Theorem cached_view_hides_new_content
  (b : JDATBlock.t) (d : JDATBlock.dict) (c : str) (k : str) (default : option str) :
  JDATBlock.type b = 1%Z ->
  JDATBlock._data b = Some d ->
  let b' := JDATBlock.set_content b c in
  fst (JDATBlock.parse_data b') = d
  /\ fst (JDATBlock.get b' k default) = fst (JDATBlock.get b k default)
  /\ (JDATBlock.encrypted b = false ->
      JDATBlock.content (snd (JDATBlock.to_jdat b'))
      = join [NL] (map JDATBlock.render_line d)
      /\ fst (JDATBlock.to_jdat b') = fst (JDATBlock.to_jdat b)).
Proof.
  intros Ht Hd. cbv zeta.
  unfold JDATBlock.get, JDATBlock.parse_data.
  cbn [JDATBlock.type JDATBlock._data JDATBlock.set_content].
  rewrite Ht, Hd. cbn [Z.eqb Pos.eqb negb fst].
  split; [reflexivity|]. split; [reflexivity|].
  intros He. unfold JDATBlock.to_jdat, JDATBlock._rebuild_content.
  cbn [JDATBlock.type JDATBlock._data JDATBlock.set_content JDATBlock.encrypted
       JDATBlock.name JDATBlock.link JDATBlock.content].
  rewrite He, Ht, Hd. split; reflexivity.
Qed.

Lemma cached_view_hides_new_content_witness :
  let b := snd (JDATBlock.parse_data
                  (JDATBlock.__init__ (lit "user") (lit "u1") 1 (lit "k: v") false)) in
  JDATBlock.type b = 1%Z
  /\ JDATBlock._data b = Some [(lit "k", lit "v")]
  /\ fst (JDATBlock.get (JDATBlock.set_content b (lit "k: new")) (lit "k") None)
     = Some (lit "v").
Proof.
  cbv zeta. split; [reflexivity|]. split; [reflexivity|].
  rewrite (proj1 (proj2 (cached_view_hides_new_content
                           (snd (JDATBlock.parse_data
                                   (JDATBlock.__init__ (lit "user") (lit "u1") 1
                                      (lit "k: v") false)))
                           [(lit "k", lit "v")]
                           (lit "k: new") (lit "k") None eq_refl eq_refl))).
  reflexivity.
Defined.

(** X14.  The structured view never holds a key twice.  The view that
    [parse_data] builds from any content has pairwise different keys,
    and [parse_data], [set], [_rebuild_content] and [to_jdat] keep a
    cache with that property. *)
Theorem view_keys_stay_unique (b : JDATBlock.t) (k v : str) :
  DictFacts.dict_wf (JDATBlock.parse_content (JDATBlock.content b))
  /\ (DictFacts.cache_wf b ->
      DictFacts.dict_wf (fst (JDATBlock.parse_data b))
      /\ DictFacts.cache_wf (snd (JDATBlock.parse_data b))
      /\ DictFacts.cache_wf (JDATBlock.set b k v)
      /\ DictFacts.cache_wf (JDATBlock._rebuild_content b)
      /\ DictFacts.cache_wf (snd (JDATBlock.to_jdat b))).
Proof.
  split; [apply DictFacts.parse_content_wf|].
  intros Hw.
  assert (Hr : forall x, DictFacts.cache_wf x ->
                         DictFacts.cache_wf (JDATBlock._rebuild_content x)).
  { intros x Hx. unfold JDATBlock._rebuild_content, DictFacts.cache_wf in *.
    destruct (JDATBlock._data x) as [d|] eqn:E; [|now rewrite E].
    destruct (JDATBlock.type x =? 1)%Z; cbn [JDATBlock._data JDATBlock.set_content];
      now rewrite E. }
  assert (Hp : DictFacts.dict_wf (fst (JDATBlock.parse_data b))
               /\ DictFacts.cache_wf (snd (JDATBlock.parse_data b))).
  { unfold JDATBlock.parse_data, DictFacts.cache_wf in *.
    destruct (JDATBlock.type b =? 1)%Z; cbn [negb fst snd].
    - destruct (JDATBlock._data b) as [d|] eqn:E; cbn [fst snd].
      + rewrite E. auto.
      + cbn [JDATBlock._data JDATBlock.set_data].
        split; apply DictFacts.parse_content_wf.
    - split; [constructor|exact Hw]. }
  destruct Hp as [Hp1 Hp2].
  repeat split; try assumption.
  - unfold JDATBlock.set.
    destruct (JDATBlock.parse_data b) as [d b1]. cbn [fst snd] in *.
    apply Hr. unfold DictFacts.cache_wf. cbn [JDATBlock._data JDATBlock.set_data].
    now apply DictFacts.dict_set_wf.
  - now apply Hr.
  - unfold JDATBlock.to_jdat.
    destruct (JDATBlock.encrypted b); [exact Hw|].
    destruct (JDATBlock.type b =? 1)%Z; cbn [snd]; [now apply Hr|exact Hw].
Qed.

Lemma view_keys_stay_unique_witness :
  let b := JDATBlock.__init__ (lit "user") (lit "u1") 1
             (lit "a: 1" ++ [NL] ++ lit "a: 2") false in
  DictFacts.cache_wf b
  /\ fst (JDATBlock.parse_data b) = [(lit "a", lit "2")]
  /\ DictFacts.dict_wf (fst (JDATBlock.parse_data b)).
Proof.
  cbv zeta. split; [exact I|]. split; [reflexivity|].
  exact (proj1 (proj2 (view_keys_stay_unique
                         (JDATBlock.__init__ (lit "user") (lit "u1") 1
                            (lit "a: 1" ++ [NL] ++ lit "a: 2") false)
                         (lit "k") (lit "v")) I)).
Defined.

(** * Further properties of parsing and serialising *)

Module TextFacts.
Import JDATFile ReFacts BlockMatch ParseFacts RoundTrip.

Lemma blocks_to_jdat_idem (bs : list JDATBlock.t) :
  blocks_to_jdat (snd (blocks_to_jdat bs))
  = (fst (blocks_to_jdat bs), snd (blocks_to_jdat bs)).
Proof.
  induction bs as [|b bs IH]; [reflexivity|].
  cbn [blocks_to_jdat].
  pose proof (ViewFacts.to_jdat_idem b) as Hb.
  destruct (JDATBlock.to_jdat b) as [s b'].
  destruct (blocks_to_jdat bs) as [ss bs']. cbn [fst snd] in *.
  cbn [blocks_to_jdat]. now rewrite Hb, IH.
Qed.

(** [occurs] along prefixes and suffixes. *)
Lemma occurs_tail (p : str) (x : ascii) (s : str) :
  occurs p (x :: s) = false -> occurs p s = false.
Proof.
  cbn [occurs]. destruct (strip_prefix p (x :: s)); [discriminate|].
  now destruct s.
Qed.

Lemma occurs_suffix (p pre s : str) : occurs p (pre ++ s) = false -> occurs p s = false.
Proof.
  induction pre as [|x pre IH]; [auto|].
  intros H. apply IH. now apply occurs_tail in H.
Qed.

Lemma occurs_here (p s : str) : occurs p (p ++ s) = true.
Proof.
  destruct (p ++ s) as [|x t] eqn:E; cbn [occurs]; rewrite <- E;
    now rewrite strip_prefix_app.
Qed.

(** [t] is what is left of [s] after some prefix. *)
Definition ends (s t : str) : Prop := exists w, s = w ++ t.

Lemma ends_refl (s : str) : ends s s.
Proof. now exists []. Qed.

Lemma ends_trans (a b c : str) : ends a b -> ends b c -> ends a c.
Proof.
  intros [w1 ->] [w2 ->]. exists (w1 ++ w2). now rewrite app_assoc.
Qed.

Lemma ends_strip (l s s' : str) : strip_prefix l s = Some s' -> ends s s'.
Proof. intros H. exists l. now apply strip_prefix_split. Qed.

Lemma ends_drop (p : ascii -> bool) (s : str) : ends s (dropwhile p s).
Proof. exists (takewhile p s). symmetry. apply take_drop. Qed.

(** A match of the block pattern covers a piece of the text that ends
    with [})]. *)
Lemma block_direct_segment (s : str) (g : caps) (rest : str) :
  block_direct s = Some (g, rest) -> ends s (lit "})" ++ rest).
Proof.
  unfold block_direct, literal, field, gap.
  destruct (strip_prefix (lit "(n:") s) as [s1|] eqn:E1; [|discriminate].
  apply ends_strip in E1.
  destruct (1 <=? List.length (takewhile nonspace s1)); [|discriminate].
  pose proof (ends_drop nonspace s1) as T1. set (s2 := dropwhile nonspace s1) in *.
  destruct (1 <=? List.length (takewhile isspace s2)); [|discriminate].
  pose proof (ends_drop isspace s2) as T2.
  destruct (strip_prefix (lit "l:") (dropwhile isspace s2)) as [s4|] eqn:E4;
    [|discriminate].
  apply ends_strip in E4.
  destruct (1 <=? List.length (takewhile nonspace s4)); [|discriminate].
  pose proof (ends_drop nonspace s4) as T4. set (s5 := dropwhile nonspace s4) in *.
  destruct (1 <=? List.length (takewhile isspace s5)); [|discriminate].
  pose proof (ends_drop isspace s5) as T5.
  destruct (strip_prefix (lit "t:") (dropwhile isspace s5)) as [s7|] eqn:E7;
    [|discriminate].
  apply ends_strip in E7.
  destruct (1 <=? List.length (takewhile isdigit s7)); [|discriminate].
  pose proof (ends_drop isdigit s7) as T7. set (s8 := dropwhile isdigit s7) in *.
  pose proof (ends_drop isspace s8) as T8. set (s9 := dropwhile isspace s8) in *.
  assert (Hs9 : ends s s9).
  { repeat (eapply ends_trans; [eassumption|]). apply ends_refl. }
  assert (Hb : forall x g' g0 r0,
             brace (dropwhile isspace x) g' = Some (g0, r0) ->
             ends x (lit "})" ++ r0)).
  { intros x g' g0 r0. unfold brace, body.
    pose proof (ends_drop isspace x) as Tx.
    destruct (strip_prefix (lit "{") (dropwhile isspace x)) as [y|] eqn:Ey;
      [|discriminate].
    apply ends_strip in Ey.
    destruct (find_close y) as [[c r]|] eqn:F; [|discriminate].
    apply find_close_split in F. intros H. injection H as _ <-.
    eapply ends_trans; [exact Tx|]. eapply ends_trans; [exact Ey|].
    now exists c. }
  unfold flag.
  destruct (strip_prefix (lit "encrypted") s9) as [s10|] eqn:E10.
  - apply ends_strip in E10.
    destruct (brace (dropwhile isspace s10) ((4, lit "encrypted") :: _))
      as [[g0 r0]|] eqn:B.
    + intros H. injection H as <- <-.
      eapply ends_trans; [exact Hs9|]. eapply ends_trans; [exact E10|].
      eapply Hb; eauto.
    + intros B'. eapply ends_trans; [exact Hs9|]. eapply Hb; eauto.
  - intros B'. eapply ends_trans; [exact Hs9|]. eapply Hb; eauto.
Qed.

Lemma finditer_none (r : regex) (s : str) :
  (forall pre t, s = pre ++ t -> match_at r t = None) ->
  forall skip, finditer_from r s skip = [].
Proof.
  induction s as [|c s IH]; intros H skip; [reflexivity|].
  cbn [finditer_from].
  assert (Hs : forall pre t, s = pre ++ t -> match_at r t = None).
  { intros pre t E. apply (H (c :: pre) t). now rewrite E. }
  destruct skip as [|n]; [|now apply IH].
  rewrite (H [] (c :: s) eq_refl). now apply IH.
Qed.

Lemma blocks_to_jdat_snd (bs : list JDATBlock.t) :
  snd (blocks_to_jdat bs) = map (fun b => snd (JDATBlock.to_jdat b)) bs.
Proof.
  induction bs as [|b bs IH]; [reflexivity|].
  cbn [blocks_to_jdat map].
  destruct (JDATBlock.to_jdat b) as [s b'].
  destruct (blocks_to_jdat bs) as [ss bs']. cbn [fst snd] in *. now rewrite IH.
Qed.

(** A block before it is flushed and after: the same text. *)
Definition plain (b : JDATBlock.t) : JDATBlock.t :=
  JDATBlock.set_data (snd (JDATBlock.to_jdat b)) None.

Lemma render_plain (b : JDATBlock.t) : render (plain b) = render b.
Proof.
  unfold render, plain.
  pose proof (ViewFacts.to_jdat_idem b) as H.
  destruct (JDATBlock.to_jdat b) as [s x]. cbn [fst snd] in *.
  unfold JDATBlock.to_jdat in *.
  cbn [JDATBlock.encrypted JDATBlock.type JDATBlock.name JDATBlock.link
       JDATBlock.content JDATBlock.set_data].
  destruct (JDATBlock.encrypted x); [now injection H|].
  destruct (JDATBlock.type x =? 1)%Z; [|now injection H].
  unfold JDATBlock._rebuild_content at 1 2.
  cbn [JDATBlock._data JDATBlock.set_data fst].
  injection H as H1 H2. rewrite <- H1. now rewrite H2.
Qed.

End TextFacts.

(** X15.  Serialising a File twice gives the same text: [to_jdat] may
    rewrite the content of structured blocks from their views, and a
    second [to_jdat] finds nothing left to rewrite. *)
Theorem serialise_is_idempotent (f : JDATFile.t) :
  JDATFile.to_jdat (snd (JDATFile.to_jdat f))
  = (fst (JDATFile.to_jdat f), snd (JDATFile.to_jdat f)).
Proof.
  unfold JDATFile.to_jdat.
  pose proof (TextFacts.blocks_to_jdat_idem (JDATFile.blocks f)) as H.
  destruct (JDATFile.blocks_to_jdat (JDATFile.blocks f)) as [ss bs].
  cbn [fst snd JDATFile.blocks JDATFile.comments JDATFile.set_blocks] in *.
  rewrite H. cbn [fst snd]. unfold JDATFile.set_blocks.
  cbn [JDATFile.path JDATFile.comments]. reflexivity.
Qed.

(** X16.  Every block that [_parse] builds, from any text, has a name
    and a link that are not empty and contain no white space, a kind
    that is not negative, a content in which [})] does not occur, and an
    empty cache. *)
Theorem parsed_blocks_wellformed (f : JDATFile.t) (text : str) :
  Forall (fun b =>
            JDATBlock.name b <> [] /\ forallb nonspace (JDATBlock.name b) = true
            /\ JDATBlock.link b <> [] /\ forallb nonspace (JDATBlock.link b) = true
            /\ (0 <= JDATBlock.type b)%Z
            /\ occurs (lit "})") (JDATBlock.content b) = false
            /\ JDATBlock._data b = None)
         (JDATFile.blocks (snd (JDATFile._parse f text))).
Proof.
  rewrite ParseFacts.parse_state. cbn [JDATFile.blocks].
  pose proof (Reparse.kept_parsed text) as H.
  rewrite Forall_forall in *. intros b Hb.
  destruct (H b Hb) as [[H1 H2] [H3 H4] H5 H6 H7]. repeat split; assumption.
Qed.

(** X17.  Text without the opener [(n:], or without the closer [})],
    holds no block: segments that are not opened or not terminated are
    dropped and nothing is raised. *)
Theorem no_opener_or_closer_no_block (f : JDATFile.t) (text : str) :
  occurs (lit "(n:") text = false \/ occurs (lit "})") text = false ->
  fst (JDATFile._parse f text) = Return tt
  /\ JDATFile.blocks (snd (JDATFile._parse f text)) = [].
Proof.
  intros H. rewrite ParseFacts.parse_result, ParseFacts.parse_state.
  cbn [JDATFile.blocks]. unfold finditer.
  rewrite TextFacts.finditer_none; [split; reflexivity|].
  intros pre t E. subst text. rewrite BlockMatch.match_block.
  destruct (BlockMatch.block_direct t) as [[g rest]|] eqn:B; [|reflexivity].
  exfalso. destruct H as [H|H]; apply TextFacts.occurs_suffix in H.
  - unfold BlockMatch.block_direct, BlockMatch.literal in B.
    destruct (strip_prefix (lit "(n:") t) as [t1|] eqn:E1; [|discriminate].
    apply ReFacts.strip_prefix_split in E1. subst t.
    now rewrite TextFacts.occurs_here in H.
  - destruct (TextFacts.block_direct_segment _ _ _ B) as [w Hw]. subst t.
    apply TextFacts.occurs_suffix in H.
    now rewrite TextFacts.occurs_here in H.
Qed.

Lemma no_opener_or_closer_no_block_witness :
  let text := lit "(n:a l:b t:1 { k: v" in
  (occurs (lit "(n:") text = false \/ occurs (lit "})") text = false)
  /\ JDATFile.blocks (snd (JDATFile._parse (JDATFile.__init__ None) text)) = [].
Proof.
  cbv zeta.
  assert (H : occurs (lit "(n:") (lit "(n:a l:b t:1 { k: v") = false
              \/ occurs (lit "})") (lit "(n:a l:b t:1 { k: v") = false)
    by (right; reflexivity).
  split; [exact H|].
  exact (proj2 (no_opener_or_closer_no_block (JDATFile.__init__ None) _ H)).
Defined.

Module TextRoundTrip.

(** What a block must be like for the text to carry it; the last
    condition is the one under which [to_jdat] can format the kind (at
    most 4300 digits). *)
Definition printable (b : JDATBlock.t) : Prop :=
  JDATBlock.name b <> [] /\ forallb nonspace (JDATBlock.name b) = true
  /\ JDATBlock.link b <> [] /\ forallb nonspace (JDATBlock.link b) = true
  /\ (0 <= JDATBlock.type b)%Z
  /\ occurs (lit "})") (JDATBlock.content b) = false
  /\ str_accepts (JDATBlock.type b) = true.

Lemma file_blocks_after (f : JDATFile.t) :
  JDATFile.blocks (snd (JDATFile.to_jdat f))
  = map (fun b => snd (JDATBlock.to_jdat b)) (JDATFile.blocks f).
Proof.
  unfold JDATFile.to_jdat.
  pose proof (TextFacts.blocks_to_jdat_snd (JDATFile.blocks f)) as Hs.
  destruct (JDATFile.blocks_to_jdat (JDATFile.blocks f)) as [ss bs'].
  cbn [fst snd JDATFile.blocks JDATFile.set_blocks] in *. now subst bs'.
Qed.

Lemma finditer_file (f : JDATFile.t) :
  Forall RoundTrip.harmless (JDATFile.comments f) ->
  Forall RoundTrip.parsed (map TextFacts.plain (JDATFile.blocks f)) ->
  finditer JDATFile.block_pattern (RoundTrip.serialize f)
  = map RoundTrip.caps_of (map TextFacts.plain (JDATFile.blocks f)).
Proof.
  intros Hc Hp'.
  unfold RoundTrip.serialize, finditer, JDATFile.to_jdat.
  pose proof (RoundTrip.blocks_to_jdat_render (JDATFile.blocks f)) as Hr.
  destruct (JDATFile.blocks_to_jdat (JDATFile.blocks f)) as [bparts bs'].
  cbn [fst snd JDATFile.blocks JDATFile.set_blocks JDATFile.comments] in *.
  subst bparts.
  change (map (fun c => lit "({<" ++ c ++ lit ">})") (JDATFile.comments f))
    with (map RoundTrip.wrap_comment (JDATFile.comments f)).
  change [NL; NL] with RoundTrip.sep.
  rewrite RoundTrip.finditer_comments by exact Hc.
  assert (Hplain : map RoundTrip.render (JDATFile.blocks f)
                   = map RoundTrip.render (map TextFacts.plain (JDATFile.blocks f))).
  { rewrite map_map. apply map_ext. intros b. now rewrite TextFacts.render_plain. }
  rewrite Hplain.
  now apply RoundTrip.finditer_blocks.
Qed.

Lemma parse_serialised (f : JDATFile.t) :
  let f1 := snd (JDATFile.to_jdat f) in
  Forall RoundTrip.harmless (JDATFile.comments f) ->
  Forall printable (JDATFile.blocks f1) ->
  fst (JDATFile._parse (JDATFile.__init__ None) (RoundTrip.serialize f)) = Return tt
  /\ JDATFile.blocks (RoundTrip.parse (RoundTrip.serialize f))
     = map RoundTrip.wrap (JDATFile.blocks f1).
Proof.
  cbv zeta. intros Hc Hp. rewrite file_blocks_after in *.
  assert (Hp' : Forall RoundTrip.parsed (map TextFacts.plain (JDATFile.blocks f))).
  { apply Forall_map. rewrite Forall_forall in *. intros b Hb.
    destruct (Hp (snd (JDATBlock.to_jdat b))) as (H1 & H2 & H3 & H4 & H5 & H6 & _).
    { apply in_map_iff. now exists b. }
    constructor; unfold TextFacts.plain;
      cbn [JDATBlock.name JDATBlock.link JDATBlock.type JDATBlock.content
           JDATBlock._data JDATBlock.set_data]; auto. }
  assert (Hv : ParseFacts.converts (RoundTrip.serialize f) = true).
  { unfold ParseFacts.converts. rewrite (finditer_file f Hc Hp').
    rewrite forallb_forall. intros m Hm. apply in_map_iff in Hm.
    destruct Hm as (x & <- & Hx). apply in_map_iff in Hx.
    destruct Hx as (b & <- & Hb). rewrite Reparse.accepted_caps.
    rewrite Forall_forall in Hp.
    destruct (Hp (snd (JDATBlock.to_jdat b))) as (_ & _ & _ & _ & H5 & _ & H7).
    { apply in_map_iff. now exists b. }
    unfold TextFacts.plain. cbn [JDATBlock.type JDATBlock.set_data].
    now rewrite <- Reparse.str_accepts_nonneg. }
  unfold RoundTrip.parse.
  rewrite (ParseFacts.parse_eq _ _ Hv). cbn [fst snd JDATFile.blocks].
  split; [reflexivity|].
  unfold ParseFacts.extracted_blocks. rewrite (finditer_file f Hc Hp').
  rewrite !map_map. apply map_ext_in. intros b Hb.
  rewrite RoundTrip.block_of_caps.
  - reflexivity.
  - rewrite Forall_forall in Hp'. apply Hp'. now apply in_map.
Qed.

End TextRoundTrip.

(** X18.  Serialising any File and parsing the text gives its blocks
    back, in order, when the text can carry them: every block (after
    [to_jdat] has flushed structured views) has a non-empty name and
    link without white space, a kind that is not negative and has at
    most 4300 digits (a longer one, [to_jdat] cannot format) and a
    content without [})], and no comment nests a block.  [_parse]
    returns; name, link, kind and flag come back as they are, the
    content with one line feed more at each end, the cache empty. *)
Theorem parse_of_serialised_file (f : JDATFile.t) :
  let f1 := snd (JDATFile.to_jdat f) in
  Forall RoundTrip.harmless (JDATFile.comments f) ->
  Forall (fun b =>
            JDATBlock.name b <> [] /\ forallb nonspace (JDATBlock.name b) = true
            /\ JDATBlock.link b <> [] /\ forallb nonspace (JDATBlock.link b) = true
            /\ (0 <= JDATBlock.type b)%Z
            /\ occurs (lit "})") (JDATBlock.content b) = false
            /\ List.length (str_of_int (JDATBlock.type b)) <= 4300)
         (JDATFile.blocks f1) ->
  JDATFile._parse (JDATFile.__init__ None) (RoundTrip.serialize f)
  = (Return tt, RoundTrip.parse (RoundTrip.serialize f))
  /\ JDATFile.blocks (RoundTrip.parse (RoundTrip.serialize f))
     = map RoundTrip.wrap (JDATFile.blocks f1).
Proof.
  cbv zeta. intros Hc Hp.
  assert (Hp' : Forall TextRoundTrip.printable
                       (JDATFile.blocks (snd (JDATFile.to_jdat f)))).
  { eapply Forall_impl; [|exact Hp]. intros b (H1 & H2 & H3 & H4 & H5 & H6 & H7).
    repeat split; try assumption.
    rewrite (Reparse.str_accepts_nonneg _ H5). now apply Nat.leb_le. }
  destruct (TextRoundTrip.parse_serialised f Hc Hp') as [Hr Hb].
  split; [|exact Hb].
  unfold RoundTrip.parse. rewrite <- Hr. apply surjective_pairing.
Qed.

Lemma parse_of_serialised_file_witness :
  let b := JDATBlock.set
             (JDATBlock.__init__ (lit "user") (lit "u1") 1 (lit "name: Alice") false)
             (lit "age") (lit "30") in
  let f := JDATFile.mk None [b] [lit "note"] in
  Forall RoundTrip.harmless (JDATFile.comments f)
  /\ JDATFile.blocks (RoundTrip.parse (RoundTrip.serialize f))
     = [JDATBlock.mk (lit "user") (lit "u1") 1
          (NL :: (lit "  name: Alice" ++ [NL] ++ lit "  age: 30") ++ [NL]) false None].
Proof.
  cbv zeta.
  assert (Hc : Forall RoundTrip.harmless [lit "note"])
    by (repeat constructor; left; reflexivity).
  split; [exact Hc|].
  assert (Hp : 1 <= 4300) by (apply Nat.leb_le; reflexivity).
  destruct (parse_of_serialised_file
              (JDATFile.mk None
                 [JDATBlock.set
                    (JDATBlock.__init__ (lit "user") (lit "u1") 1 (lit "name: Alice") false)
                    (lit "age") (lit "30")] [lit "note"]) Hc) as [_ H].
  - constructor; [|constructor].
    repeat split; try discriminate; try reflexivity; try exact Hp; cbn; lia.
  - rewrite H. reflexivity.
Defined.

Module CipherText.
Import JDATFile JDATCrypto.

Lemma find_map (g : JDATBlock.t -> JDATBlock.t) (bs : list JDATBlock.t) (l : str) :
  (forall b, JDATBlock.link (g b) = JDATBlock.link b) ->
  find_by_link (map g bs) l
  = match find_by_link bs l with Some b => Some (g b) | None => None end.
Proof.
  intros Hg. induction bs as [|a bs IH]; [reflexivity|].
  cbn [map find_by_link]. rewrite Hg.
  destruct (str_eqb (JDATBlock.link a) l); [reflexivity|exact IH].
Qed.

Lemma to_jdat_link (b : JDATBlock.t) :
  JDATBlock.link (snd (JDATBlock.to_jdat b)) = JDATBlock.link b.
Proof.
  unfold JDATBlock.to_jdat.
  destruct (JDATBlock.encrypted b); [reflexivity|].
  destruct (JDATBlock.type b =? 1)%Z; cbn [snd]; [|reflexivity].
  pose proof (RegistryFrame.rebuild_outline b) as H.
  unfold RegistryFrame.outline in H. now injection H.
Qed.

Lemma to_jdat_encrypted (b : JDATBlock.t) :
  JDATBlock.encrypted b = true -> snd (JDATBlock.to_jdat b) = b.
Proof. intros H. unfold JDATBlock.to_jdat. now rewrite H. Qed.

End CipherText.

(** X19.  An encrypted block survives the text form.  After
    [encrypt_block], serialising the File and parsing the text gives a
    File in which [decrypt_block] with the same password returns [True]
    and leaves the block in clear with the content that was encrypted
    (up to the text carrying the blocks and comments, as in X18: the
    package, like every content, must not contain [})], and every kind
    has at most 4300 digits, so that [to_jdat] can format it and
    [_parse] returns). *)
Theorem encrypted_block_survives_text
  {L : JDATCrypto.Library} (f : JDATFile.t) (l password : str)
  (e : JDATCrypto.entropy) (b : JDATBlock.t) :
  JDATFile.get_by_link f l = Some b ->
  JDATBlock.encrypted b = false ->
  let f1 := snd (fst (JDATFile.encrypt_block f l password e)) in
  Forall RoundTrip.harmless (JDATFile.comments f1) ->
  Forall TextRoundTrip.printable (JDATFile.blocks (snd (JDATFile.to_jdat f1))) ->
  let f2 := RoundTrip.parse (RoundTrip.serialize f1) in
  JDATFile._parse (JDATFile.__init__ None) (RoundTrip.serialize f1) = (Return tt, f2)
  /\ exists f3 b3,
      JDATFile.decrypt_block f2 l password = (Return true, f3)
      /\ JDATFile.get_by_link f3 l = Some b3
      /\ JDATBlock.content b3 = JDATBlock.content (CipherBlocks.flushed b)
      /\ JDATBlock.encrypted b3 = false
      /\ JDATBlock.name b3 = JDATBlock.name b
      /\ JDATBlock.type b3 = JDATBlock.type b.
Proof.
  intros Hb He. cbv zeta.
  destruct (CipherBlocks.encrypt_block_found f l password e b Hb He) as (c & Hc & E).
  rewrite E. cbn [fst snd].
  set (b1 := JDATBlock.set_encrypted
               (JDATBlock.set_content (CipherBlocks.flushed b) c) true).
  pose proof (CipherBlocks.found_link f l b Hb) as Hl.
  assert (Hl1 : JDATBlock.link b1 = l).
  { subst b1. cbn [JDATBlock.link JDATBlock.set_encrypted JDATBlock.set_content].
    now rewrite CipherBlocks.flushed_link. }
  pose proof (CipherBlocks.get_mutated f l b b1 Hb Hl1) as Hg.
  intros Hcm Hpr.
  assert (Hblocks : JDATFile.blocks
                      (RoundTrip.parse (RoundTrip.serialize (JDATFile.mutate f l b1)))
                    = map (fun x => RoundTrip.wrap (snd (JDATBlock.to_jdat x)))
                          (JDATFile.blocks (JDATFile.mutate f l b1))).
  { rewrite (proj2 (TextRoundTrip.parse_serialised _ Hcm Hpr)).
    rewrite TextRoundTrip.file_blocks_after. now rewrite map_map. }
  split.
  { unfold RoundTrip.parse.
    rewrite <- (proj1 (TextRoundTrip.parse_serialised _ Hcm Hpr)).
    apply surjective_pairing. }
  set (f2 := RoundTrip.parse (RoundTrip.serialize (JDATFile.mutate f l b1))) in *.
  assert (Hg2 : JDATFile.get_by_link f2 l = Some (RoundTrip.wrap b1)).
  { unfold JDATFile.get_by_link in *. rewrite Hblocks.
    rewrite CipherText.find_map.
    - rewrite Hg. now rewrite (CipherText.to_jdat_encrypted b1 eq_refl).
    - intros x. unfold RoundTrip.wrap. cbn [JDATBlock.link].
      apply CipherText.to_jdat_link. }
  unfold JDATFile.decrypt_block. rewrite Hg2.
  cbn [RoundTrip.wrap JDATBlock.encrypted JDATBlock.content negb].
  assert (Hd : JDATCrypto.decrypt
                 (NL :: JDATBlock.content b1 ++ [NL]) password
               = Return (JDATBlock.content (CipherBlocks.flushed b))).
  { change (NL :: JDATBlock.content b1 ++ [NL])
      with ([NL] ++ JDATBlock.content b1 ++ [NL]).
    rewrite CipherMore.decrypt_strip.
    rewrite CipherMore.strip_leading, CipherMore.strip_trailing by reflexivity.
    rewrite <- CipherMore.decrypt_strip.
    subst b1. cbn [JDATBlock.content JDATBlock.set_encrypted JDATBlock.set_content].
    now apply (CipherMore.decrypt_package _ _ e). }
  assert (He1 : JDATBlock.encrypted b1 = true) by reflexivity.
  rewrite He1. cbn [negb]. rewrite Hd.
  eexists. eexists. split; [reflexivity|].
  split.
  { apply (CipherBlocks.get_mutated f2 l (RoundTrip.wrap b1)); [exact Hg2|].
    cbn [JDATBlock.link JDATBlock.set_data JDATBlock.set_encrypted
         JDATBlock.set_content RoundTrip.wrap]. exact Hl1. }
  cbn [JDATBlock.content JDATBlock.encrypted JDATBlock.name JDATBlock.type
       JDATBlock.set_data JDATBlock.set_encrypted JDATBlock.set_content RoundTrip.wrap].
  split; [reflexivity|]. split; [reflexivity|].
  subst b1. cbn [JDATBlock.name JDATBlock.type JDATBlock.set_encrypted
                 JDATBlock.set_content].
  unfold CipherBlocks.flushed.
  destruct (JDATBlock.type b =? 1)%Z; [|auto].
  pose proof (RegistryFrame.rebuild_outline b) as H.
  unfold RegistryFrame.outline in H. injection H as H1 _ H3. auto.
Qed.

Lemma encrypted_block_survives_text_witness :
  let f := RegistryFacts.file_of "(n:a l:b t:2{x}) (n:c l:d t:1{k: v})" in
  let f1 := snd (fst (JDATFile.encrypt_block (L := SampleLibrary.sample)
                        f (lit "d") (lit "pw") SampleLibrary.counting)) in
  exists f3 b3,
    JDATFile.decrypt_block (L := SampleLibrary.sample)
      (RoundTrip.parse (RoundTrip.serialize f1)) (lit "d") (lit "pw")
    = (Return true, f3)
    /\ JDATFile.get_by_link f3 (lit "d") = Some b3
    /\ JDATBlock.content b3 = lit "k: v".
Proof.
  cbv zeta.
  destruct (encrypted_block_survives_text (L := SampleLibrary.sample)
              (RegistryFacts.file_of "(n:a l:b t:2{x}) (n:c l:d t:1{k: v})")
              (lit "d") (lit "pw") SampleLibrary.counting
              (JDATBlock.mk (lit "c") (lit "d") 1 (lit "k: v") false None))
    as [_ (f3 & b3 & H1 & H2 & H3 & _)].
  - vm_compute. reflexivity.
  - reflexivity.
  - vm_compute. constructor.
  - vm_compute. repeat constructor; try discriminate.
  - exists f3, b3. split; [exact H1|]. split; [exact H2|]. rewrite H3. reflexivity.
Defined.

(** * Comments *)

Module CommentMatch.
Import JDATFile ReFacts BlockMatch ParseFacts TextFacts.

(** The text up to the first [l], and what follows it. *)
Fixpoint find_lit (l s : str) : option (str * str) :=
  match strip_prefix l s with
  | Some rest => Some ([], rest)
  | None =>
      match s with
      | [] => None
      | c :: s' =>
          match find_lit l s' with
          | Some (a, rest) => Some (c :: a, rest)
          | None => None
          end
      end
  end.

Lemma first_success_lit (i : nat) (l pre s : str) (g : caps) :
  first_success
    (fun s' =>
       match strip_prefix l s' with
       | Some s'' =>
           k0 s'' ((i, firstn (List.length (pre ++ s) - List.length s') (pre ++ s)) :: g)
       | None => None
       end) s
  = match find_lit l s with
    | Some (c, rest) => Some ((i, pre ++ c) :: g, rest)
    | None => None
    end.
Proof.
  revert pre. induction s as [|x s IH]; intros pre.
  - cbn [first_success find_lit].
    destruct (strip_prefix l []) eqn:E; [|reflexivity].
    unfold k0. rewrite consumed, app_nil_r. reflexivity.
  - cbn [first_success find_lit].
    destruct (strip_prefix l (x :: s)) as [rest|] eqn:E.
    + unfold k0. rewrite consumed, app_nil_r. reflexivity.
    + replace (pre ++ x :: s) with ((pre ++ [x]) ++ s)
        by (rewrite <- app_assoc; reflexivity).
      rewrite IH. destruct (find_lit l s) as [[a rest]|]; [|reflexivity].
      rewrite <- app_assoc. reflexivity.
Qed.

Lemma find_lit_split (l s c rest : str) :
  find_lit l s = Some (c, rest) -> s = c ++ l ++ rest.
Proof.
  revert c. induction s as [|x s IH]; intros c; cbn [find_lit].
  - destruct (strip_prefix l []) eqn:E; [|discriminate].
    intros H. injection H as <- <-. now apply strip_prefix_split in E.
  - destruct (strip_prefix l (x :: s)) as [r|] eqn:E.
    + intros H. injection H as <- <-. now apply strip_prefix_split in E.
    + destruct (find_lit l s) as [[a r]|]; [|discriminate].
      intros H. injection H as <- <-. now rewrite (IH a eq_refl).
Qed.

(** The captured text does not contain the closing literal. *)
Lemma find_lit_clean (l s c rest : str) :
  l <> [] -> find_lit l s = Some (c, rest) -> occurs l c = false.
Proof.
  intros Hl. revert c. induction s as [|x s IH]; intros c; cbn [find_lit].
  - destruct (strip_prefix l []) eqn:E; [|discriminate].
    intros H. injection H as <- <-. destruct l; [contradiction|reflexivity].
  - destruct (strip_prefix l (x :: s)) as [r|] eqn:E.
    + intros H. injection H as <- <-. destruct l; [contradiction|reflexivity].
    + destruct (find_lit l s) as [[a r]|] eqn:F; [|discriminate].
      intros H. injection H as <- <-.
      specialize (IH a eq_refl). apply find_lit_split in F. subst s.
      cbn [occurs]. rewrite IH.
      destruct (strip_prefix l (x :: a)) as [q|] eqn:Q; [|now destruct a].
      exfalso. apply strip_prefix_split in Q.
      change (x :: a ++ l ++ r) with ((x :: a) ++ l ++ r) in E.
      rewrite Q, <- app_assoc, strip_prefix_app in E. discriminate.
Qed.

(** The comment pattern without backtracking. *)
Definition comment_direct (s : str) : option (caps * str) :=
  match strip_prefix (lit "({<") s with
  | Some s1 =>
      match find_lit (lit ">})") s1 with
      | Some (c, rest) => Some ([(1, c)], rest)
      | None => None
      end
  | None => None
  end.

Lemma match_comment (s : str) : match_at comment_pattern s = comment_direct s.
Proof.
  unfold match_at, comment_pattern, comment_direct.
  change (fun (s' : str) (g : caps) => Some (g, s')) with k0.
  cbn [run]. destruct (strip_prefix (lit "({<") s) as [s1|]; [|reflexivity].
  rewrite rep_lazy_any. apply (first_success_lit 1 (lit ">})") [] s1 []).
Qed.

(** Trimming. *)
Lemma lstrip_ends (s : str) : ends s (lstrip s).
Proof.
  induction s as [|x s IH]; [apply ends_refl|].
  cbn [lstrip]. destruct (isspace x); [|apply ends_refl].
  destruct IH as [w Hw]. exists (x :: w). cbn [app]. now rewrite <- Hw.
Qed.

Lemma rstrip_prefix (s : str) : exists w, s = rstrip s ++ w.
Proof.
  unfold rstrip. destruct (lstrip_ends (rev s)) as [w Hw].
  exists (rev w). rewrite <- rev_app_distr, <- Hw. symmetry. apply rev_involutive.
Qed.

Lemma lstrip_head (s : str) :
  match lstrip s with [] => True | x :: _ => isspace x = false end.
Proof.
  induction s as [|x s IH]; [exact I|]. cbn [lstrip].
  destruct (isspace x) eqn:E; [exact IH|exact E].
Qed.

Lemma lstrip_fixed (s : str) :
  match s with [] => True | x :: _ => isspace x = false end -> lstrip s = s.
Proof. destruct s as [|x s]; [reflexivity|]. intros H. cbn [lstrip]. now rewrite H. Qed.

Lemma rstrip_head (t : str) :
  match t with [] => True | x :: _ => isspace x = false end ->
  match rstrip t with [] => True | x :: _ => isspace x = false end.
Proof.
  intros Ht. destruct (rstrip_prefix t) as [w Hw].
  destruct (rstrip t) as [|h q]; [exact I|].
  rewrite Hw in Ht. exact Ht.
Qed.

Lemma strip_idem (s : str) : strip (strip s) = strip s.
Proof.
  unfold strip.
  assert (H1 : lstrip (rstrip (lstrip s)) = rstrip (lstrip s)).
  { apply lstrip_fixed. apply rstrip_head. apply lstrip_head. }
  rewrite H1. unfold rstrip. rewrite rev_involutive.
  f_equal. apply lstrip_fixed. apply lstrip_head.
Qed.

Lemma strip_prefix_more (l a r w : str) :
  strip_prefix l a = Some r -> strip_prefix l (a ++ w) = Some (r ++ w).
Proof.
  intros H. apply strip_prefix_split in H. subst a.
  now rewrite <- app_assoc, strip_prefix_app.
Qed.

Lemma occurs_prefix (l a w : str) : occurs l (a ++ w) = false -> occurs l a = false.
Proof.
  induction a as [|x a IH].
  - cbn [app]. intros H. cbn [occurs].
    destruct (strip_prefix l []) as [r|] eqn:E; [|reflexivity].
    apply (strip_prefix_more l [] r w) in E. cbn [app] in E.
    destruct w as [|y w]; cbn [occurs] in H; rewrite E in H; discriminate.
  - cbn [app occurs]. intros H.
    destruct (strip_prefix l (x :: a)) as [r|] eqn:E.
    + apply (strip_prefix_more l (x :: a) r w) in E. cbn [app] in E.
      rewrite E in H. discriminate.
    + destruct (strip_prefix l (x :: a ++ w)); [discriminate|].
      assert (Ha : occurs l a = false).
      { apply IH. now destruct (a ++ w). }
      now destruct a.
Qed.

Lemma occurs_strip (l s : str) : occurs l s = false -> occurs l (strip s) = false.
Proof.
  intros H. unfold strip.
  destruct (lstrip_ends s) as [w Hw]. rewrite Hw in H.
  apply occurs_suffix in H.
  destruct (rstrip_prefix (lstrip s)) as [v Hv]. rewrite Hv in H.
  now apply occurs_prefix in H.
Qed.

(** What [_parse] keeps of a comment: trimmed text without [>})]. *)
Definition tidy (c : str) : Prop := strip c = c /\ occurs (lit ">})") c = false.

Lemma extracted_comments_tidy (text : str) : Forall tidy (extracted_comments text).
Proof.
  unfold extracted_comments. apply Forall_map.
  apply finditer_from_Forall. intros s g rest H.
  rewrite match_comment in H. unfold comment_direct in H.
  destruct (strip_prefix (lit "({<") s) as [s1|]; [|discriminate].
  destruct (find_lit (lit ">})") s1) as [[c r]|] eqn:F; [|discriminate].
  injection H as <- _. unfold group_text. cbn [group Nat.eqb].
  split; [apply strip_idem|].
  apply occurs_strip. eapply find_lit_clean; [|exact F]. discriminate.
Qed.

Lemma comment_direct_segment (s : str) (g : caps) (rest : str) :
  comment_direct s = Some (g, rest) ->
  exists s1, s = lit "({<" ++ s1 /\ ends s1 (lit ">})" ++ rest).
Proof.
  unfold comment_direct.
  destruct (strip_prefix (lit "({<") s) as [s1|] eqn:E; [|discriminate].
  destruct (find_lit (lit ">})") s1) as [[c r]|] eqn:F; [|discriminate].
  intros H. injection H as _ <-.
  exists s1. split; [now apply strip_prefix_split|].
  exists c. now apply find_lit_split.
Qed.

End CommentMatch.

(** X20.  Every comment that [_parse] keeps, from any text, is trimmed
    and does not contain the closer [>})]; and a text without the
    opener [({<] or without the closer holds no comment. *)
Theorem parsed_comments_tidy (f : JDATFile.t) (text : str) :
  Forall (fun c => strip c = c /\ occurs (lit ">})") c = false)
         (JDATFile.comments (snd (JDATFile._parse f text)))
  /\ (occurs (lit "({<") text = false \/ occurs (lit ">})") text = false ->
      JDATFile.comments (snd (JDATFile._parse f text)) = []).
Proof.
  rewrite ParseFacts.parse_state. cbn [JDATFile.comments]. split.
  - apply CommentMatch.extracted_comments_tidy.
  - intros H. unfold ParseFacts.extracted_comments, finditer.
    rewrite TextFacts.finditer_none; [reflexivity|].
    intros pre t E. subst text. rewrite CommentMatch.match_comment.
    destruct (CommentMatch.comment_direct t) as [[g rest]|] eqn:B; [|reflexivity].
    exfalso. destruct (CommentMatch.comment_direct_segment _ _ _ B) as (s1 & Hs & [w Hw]).
    destruct H as [H|H]; apply TextFacts.occurs_suffix in H.
    + subst t. now rewrite TextFacts.occurs_here in H.
    + subst t s1. apply TextFacts.occurs_suffix in H.
      apply TextFacts.occurs_suffix in H.
      now rewrite TextFacts.occurs_here in H.
Qed.

Lemma parsed_comments_tidy_witness :
  JDATFile.comments
    (snd (JDATFile._parse (JDATFile.__init__ None)
            (lit "({< never closed (n:a l:b t:0{x})"))) = [].
Proof.
  apply (proj2 (parsed_comments_tidy (JDATFile.__init__ None)
                  (lit "({< never closed (n:a l:b t:0{x})"))).
  right. reflexivity.
Defined.

Module CommentRoundTrip.
Import JDATFile ReFacts BlockMatch ParseFacts TextFacts RoundTrip CommentMatch.

Lemma strip_closer_cons (x : ascii) (s : str) :
  strip_prefix (lit ">})") (x :: s)
  = if Ascii.eqb ">" x
    then match s with
         | y :: s' =>
             if Ascii.eqb "}" y
             then match s' with
                  | z :: s'' => if Ascii.eqb ")" z then Some s'' else None
                  | [] => None
                  end
             else None
         | [] => None
         end
    else None.
Proof. reflexivity. Qed.

Lemma strip_opener_cons (x : ascii) (s : str) :
  strip_prefix (lit "({<") (x :: s)
  = if Ascii.eqb "(" x
    then match s with
         | y :: s' =>
             if Ascii.eqb "{" y
             then match s' with
                  | z :: s'' => if Ascii.eqb "<" z then Some s'' else None
                  | [] => None
                  end
             else None
         | [] => None
         end
    else None.
Proof. reflexivity. Qed.

(** The closer of a serialised comment is the first [>})] after its
    opener. *)
Lemma find_comment_content (c X : str) :
  occurs (lit ">})") c = false ->
  find_lit (lit ">})") (c ++ lit ">})" ++ X) = Some (c, X).
Proof.
  induction c as [|x c IH]; intros H.
  - cbn [app]. destruct (lit ">})" ++ X) as [|y t] eqn:E; [discriminate|].
    cbn [find_lit]. rewrite <- E. now rewrite strip_prefix_app.
  - pose proof H as H'. cbn [occurs] in H'.
    destruct (strip_prefix (lit ">})") (x :: c)) eqn:E; [discriminate|].
    assert (Hc : occurs (lit ">})") c = false) by (destruct c; exact H').
    cbn [app find_lit]. rewrite (IH Hc).
    replace (strip_prefix (lit ">})") (x :: c ++ lit ">})" ++ X)) with (@None str);
      [reflexivity|].
    symmetry. rewrite strip_closer_cons in E |- *.
    destruct (Ascii.eqb ">" x); [|reflexivity].
    destruct c as [|y c]; [reflexivity|]. cbn [app].
    destruct (Ascii.eqb "}" y); [|reflexivity].
    destruct c as [|z c]; [reflexivity|]. cbn [app].
    destruct (Ascii.eqb ")" z); [discriminate|reflexivity].
Qed.

Lemma match_wrapped_comment (c X : str) :
  occurs (lit ">})") c = false ->
  match_at comment_pattern (wrap_comment c ++ X) = Some ([(1, c)], X).
Proof.
  intros H. rewrite match_comment. unfold comment_direct, wrap_comment.
  rewrite <- !app_assoc, strip_prefix_app.
  now rewrite find_comment_content.
Qed.

(** No comment opens in [a] followed by a line feed. *)
Lemma occurs_opener_app (a b : str) :
  occurs (lit "({<") a = false -> occurs (lit "({<") (NL :: b) = false ->
  occurs (lit "({<") (a ++ NL :: b) = false.
Proof.
  intros Ha Hb. induction a as [|x a IH]; [exact Hb|].
  pose proof Ha as Ha'. cbn [occurs] in Ha'.
  destruct (strip_prefix (lit "({<") (x :: a)) eqn:E; [discriminate|].
  assert (Hc : occurs (lit "({<") a = false) by (destruct a; exact Ha').
  cbn [app occurs]. rewrite (IH Hc).
  replace (strip_prefix (lit "({<") (x :: a ++ NL :: b)) with (@None str);
    [now destruct (a ++ NL :: b)|].
  symmetry. rewrite strip_opener_cons in E |- *.
  destruct (Ascii.eqb "(" x); [|reflexivity].
  destruct a as [|y a]; [reflexivity|]. cbn [app].
  destruct (Ascii.eqb "{" y); [|reflexivity].
  destruct a as [|z a]; [reflexivity|]. cbn [app].
  destruct (Ascii.eqb "<" z); [discriminate|reflexivity].
Qed.

Lemma occurs_opener_nl (b : str) :
  occurs (lit "({<") b = false -> occurs (lit "({<") (NL :: b) = false.
Proof. intros H. cbn [occurs]. rewrite strip_opener_cons. now destruct b. Qed.

Lemma blocks_text_no_opener (bs : list JDATBlock.t) :
  Forall (fun b => occurs (lit "({<") (render b) = false) bs ->
  occurs (lit "({<") (join sep (map render bs) ++ [NL]) = false.
Proof.
  induction bs as [|b bs IH]; [reflexivity|].
  intros H. inversion H as [|? ? Hb Hbs]; subst.
  cbn [map]. rewrite join_cons.
  destruct bs as [|b' bs'].
  - cbn [map]. apply occurs_opener_app; [exact Hb|reflexivity].
  - unfold sep at 1. cbn [app]. apply occurs_opener_app; [exact Hb|].
    apply occurs_opener_nl. apply occurs_opener_nl. now apply IH.
Qed.

Lemma finditer_no_opener (s : str) :
  occurs (lit "({<") s = false -> finditer_from comment_pattern s 0 = [].
Proof.
  intros H. apply finditer_none. intros pre t E. subst s.
  apply occurs_suffix in H. rewrite match_comment. unfold comment_direct.
  destruct (strip_prefix (lit "({<") t) as [t1|] eqn:E1; [|reflexivity].
  apply strip_prefix_split in E1. subst t. now rewrite occurs_here in H.
Qed.

Lemma finditer_comment_sep (x : str) :
  finditer_from comment_pattern (sep ++ x) 0 = finditer_from comment_pattern x 0.
Proof.
  unfold sep. cbn [app].
  rewrite !finditer_from_miss; [reflexivity| |];
    rewrite match_comment; reflexivity.
Qed.

Lemma finditer_match_nonempty (r : regex) (a rest : str) (g : caps) :
  a <> [] ->
  match_at r (a ++ rest) = Some (g, rest) ->
  finditer_from r (a ++ rest) 0 = g :: finditer_from r rest 0.
Proof.
  destruct a as [|c w]; [contradiction|]. intros _ H.
  now apply finditer_from_match.
Qed.

Lemma finditer_wrapped (cs : list str) (bs : list JDATBlock.t) :
  Forall tidy cs ->
  Forall (fun b => occurs (lit "({<") (render b) = false) bs ->
  finditer_from comment_pattern
    (join sep (map wrap_comment cs ++ map render bs) ++ [NL]) 0
  = map (fun c => [(1, c)]) cs.
Proof.
  intros Hc Hb. induction cs as [|c cs IH].
  - cbn [map app]. apply finditer_no_opener. now apply blocks_text_no_opener.
  - inversion Hc as [|? ? [_ Hcl] Hcs]; subst.
    cbn [map app]. rewrite join_cons.
    set (tail := match map wrap_comment cs ++ map render bs with
                 | [] => [NL]
                 | _ :: _ => sep ++ join sep (map wrap_comment cs ++ map render bs) ++ [NL]
                 end).
    assert (Hm : match_at comment_pattern (wrap_comment c ++ tail) = Some ([(1, c)], tail))
      by (now apply match_wrapped_comment).
    assert (Hf : finditer_from comment_pattern (wrap_comment c ++ tail) 0
                 = [(1, c)] :: finditer_from comment_pattern tail 0).
    { apply finditer_match_nonempty; [discriminate|exact Hm]. }
    rewrite Hf. f_equal. subst tail.
    destruct (map wrap_comment cs ++ map render bs) as [|q qs] eqn:E.
    + destruct cs; [reflexivity|discriminate].
    + rewrite finditer_comment_sep. now apply IH.
Qed.

End CommentRoundTrip.

(** X21.  The comments of a File come back from its text.  When every
    comment is trimmed and free of [>})] (as the comments that [_parse]
    keeps are), every kind has at most 4300 digits (so that [to_jdat]
    can format it) and no serialised block contains the opener [({<],
    parsing the serialised File leaves exactly the comments of the File,
    in order, whether the block loop of [_parse] returns or raises. *)
Theorem comments_survive_text (f : JDATFile.t) :
  Forall (fun c => strip c = c /\ occurs (lit ">})") c = false) (JDATFile.comments f) ->
  Forall (fun b => str_accepts (JDATBlock.type b) = true
                   /\ occurs (lit "({<") (fst (JDATBlock.to_jdat b)) = false)
         (JDATFile.blocks f) ->
  JDATFile.comments (snd (JDATFile._parse (JDATFile.__init__ None)
                            (RoundTrip.serialize f)))
  = JDATFile.comments f.
Proof.
  intros Hc Hb'.
  assert (Hb : Forall (fun b => occurs (lit "({<") (fst (JDATBlock.to_jdat b)) = false)
                      (JDATFile.blocks f))
    by (eapply Forall_impl; [|exact Hb']; now intros b [_ H]).
  unfold RoundTrip.serialize.
  rewrite ParseFacts.parse_state. cbn [JDATFile.comments].
  unfold ParseFacts.extracted_comments, finditer, JDATFile.to_jdat.
  pose proof (RoundTrip.blocks_to_jdat_render (JDATFile.blocks f)) as Hr.
  destruct (JDATFile.blocks_to_jdat (JDATFile.blocks f)) as [bparts bs'].
  cbn [fst] in *. subst bparts.
  change (map (fun c => lit "({<" ++ c ++ lit ">})") (JDATFile.comments f))
    with (map RoundTrip.wrap_comment (JDATFile.comments f)).
  change [NL; NL] with RoundTrip.sep.
  rewrite CommentRoundTrip.finditer_wrapped; [|exact Hc|exact Hb].
  rewrite map_map. rewrite <- (map_id (JDATFile.comments f)) at 2.
  apply map_ext_in. intros c Hin.
  unfold JDATFile.group_text. cbn [group Nat.eqb].
  rewrite Forall_forall in Hc. now apply Hc.
Qed.

Lemma comments_survive_text_witness :
  let f := RoundTrip.parse
             (lit "({< first >}) (n:a l:b t:2{x}) ({<second>})") in
  JDATFile.comments f = [lit "first"; lit "second"]
  /\ JDATFile.comments (RoundTrip.parse (RoundTrip.serialize f))
     = [lit "first"; lit "second"].
Proof.
  cbv zeta. split; [reflexivity|]. unfold RoundTrip.parse at 1.
  rewrite (comments_survive_text
             (RoundTrip.parse (lit "({< first >}) (n:a l:b t:2{x}) ({<second>})"))).
  - reflexivity.
  - repeat constructor.
  - repeat constructor.
Defined.

(** * The view and its text *)

Module ViewText.
Import JDATBlock CommentMatch.

(** [splitlines] with a line under way. *)
Lemma splitlines_from_cur (cur s : str) :
  splitlines_from cur s
  = match splitlines_from [] s with
    | [] => match cur with [] => [] | _ => [rev cur] end
    | l :: ls => (rev cur ++ l) :: ls
    end.
Proof.
  revert cur. induction s as [|c s IH]; intros cur.
  - cbn [splitlines_from]. destruct cur; reflexivity.
  - cbn [splitlines_from]. destruct (is_linebreak c).
    + cbn [rev app]. now rewrite app_nil_r.
    + rewrite (IH (c :: cur)), (IH [c]).
      destruct (splitlines_from [] s) as [|l ls]; cbn [rev app].
      * reflexivity.
      * now rewrite <- app_assoc.
Qed.

Definition nolb (s : str) : Prop := forallb (fun c => negb (is_linebreak c)) s = true.

Lemma splitlines_from_line (l cur rest : str) :
  nolb l -> splitlines_from cur (l ++ rest) = splitlines_from (rev l ++ cur) rest.
Proof.
  unfold nolb. revert cur. induction l as [|c l IH]; intros cur H; [reflexivity|].
  cbn [forallb] in H. apply andb_prop in H. destruct H as [Hc Hl].
  cbn [app splitlines_from]. destruct (is_linebreak c); [discriminate|].
  rewrite IH by exact Hl. cbn [rev]. now rewrite <- app_assoc.
Qed.

(** The lines of a text joined with line feeds are its lines. *)
Lemma splitlines_join (lines : list str) :
  Forall (fun l => nolb l /\ l <> []) lines ->
  splitlines (join [NL] lines) = lines.
Proof.
  unfold splitlines. induction lines as [|l ls IH]; [reflexivity|].
  intros H. inversion H as [|? ? [Hl Hne] Hls]; subst.
  destruct ls as [|l2 ls'].
  - cbn [join]. rewrite <- (app_nil_r l) at 1.
    rewrite splitlines_from_line by exact Hl. cbn [splitlines_from].
    rewrite app_nil_r.
    destruct (rev l) eqn:E.
    + apply (f_equal (@rev ascii)) in E. rewrite rev_involutive in E. contradiction.
    + rewrite <- E. now rewrite rev_involutive.
  - change (join [NL] (l :: l2 :: ls')) with (l ++ [NL] ++ join [NL] (l2 :: ls')).
    rewrite splitlines_from_line by exact Hl. rewrite app_nil_r.
    cbn [app splitlines_from].
    replace (is_linebreak NL) with true by reflexivity.
    rewrite rev_involutive.
    replace (code NL =? 13) with false by reflexivity. cbn [andb].
    f_equal. specialize (IH Hls).
    destruct (join [NL] (l2 :: ls')); exact IH.
Qed.

(** Trimming, by lengths. *)
Lemma lstrip_length (s : str) : List.length (lstrip s) <= List.length s.
Proof.
  induction s as [|x s IH]; [auto|]. cbn [lstrip].
  destruct (isspace x); cbn [List.length]; lia.
Qed.

Lemma lstrip_same (s : str) :
  lstrip s = s -> match s with [] => True | x :: _ => isspace x = false end.
Proof.
  destruct s as [|x s]; [auto|]. cbn [lstrip].
  destruct (isspace x); [|reflexivity].
  intros H. pose proof (lstrip_length s) as L. rewrite H in L. cbn in L. lia.
Qed.

Lemma rstrip_length (s : str) : List.length (rstrip s) <= List.length s.
Proof.
  unfold rstrip. rewrite length_rev.
  pose proof (lstrip_length (rev s)) as L. now rewrite length_rev in L.
Qed.

(** A text is trimmed when it neither starts nor ends with white
    space. *)
Lemma strip_same (s : str) :
  strip s = s <-> lstrip s = s /\ lstrip (rev s) = rev s.
Proof.
  split.
  - intros H.
    assert (Hl : lstrip s = s).
    { destruct (lstrip_ends s) as [w Hw].
      pose proof (rstrip_length (lstrip s)) as L1. unfold strip in H.
      rewrite H in L1.
      assert (Lw : List.length s = List.length w + List.length (lstrip s))
        by (rewrite Hw at 1; apply length_app).
      destruct w; [now rewrite Hw at 2|]. cbn [List.length] in Lw. lia. }
    split; [exact Hl|].
    unfold strip in H. rewrite Hl in H. unfold rstrip in H.
    apply (f_equal (@rev ascii)) in H. now rewrite rev_involutive in H.
  - intros [H1 H2]. unfold strip, rstrip. now rewrite H1, H2, rev_involutive.
Qed.

Lemma strip_core (a core b : str) :
  forallb isspace a = true -> forallb isspace b = true ->
  lstrip core = core -> lstrip (rev core) = rev core ->
  strip (a ++ core ++ b) = core.
Proof.
  intros Ha Hb H1 H2.
  rewrite CipherMore.strip_leading, CipherMore.strip_trailing by assumption.
  now apply strip_same.
Qed.

(** One rendered line, parsed. *)
Definition clean_key (k : str) : Prop :=
  strip k = k /\ contains_char ":"%char k = false /\ nolb k.

Definition clean_value (v : str) : Prop := strip v = v /\ nolb v.

Lemma partition_key (k rest : str) :
  contains_char ":"%char k = false ->
  partition ":"%char (k ++ ":"%char :: rest) = (k, rest).
Proof.
  unfold contains_char. induction k as [|x k IH]; intros H.
  - reflexivity.
  - cbn [existsb] in H. apply orb_false_iff in H. destruct H as [Hx Hk].
    cbn [app partition].
    replace (Ascii.eqb x ":") with false
      by (symmetry; rewrite Ascii.eqb_sym; exact Hx).
    now rewrite (IH Hk).
Qed.

Lemma contains_colon (k rest : str) :
  contains_char ":"%char (k ++ ":"%char :: rest) = true.
Proof.
  unfold contains_char. rewrite existsb_app. cbn [existsb].
  rewrite Ascii.eqb_refl. now rewrite orb_true_r.
Qed.

Lemma parse_rendered_line (acc : dict) (k v : str) :
  clean_key k -> clean_value v ->
  parse_line acc (render_line (k, v)) = dict_set acc k v.
Proof.
  intros (Hk1 & Hk2 & _) (Hv1 & _).
  apply strip_same in Hk1. destruct Hk1 as [Hk1 Hk3].
  apply strip_same in Hv1. destruct Hv1 as [Hv1 Hv3].
  set (rest := match v with [] => [] | _ => " "%char :: v end).
  set (core := k ++ ":"%char :: rest).
  assert (Hline : strip (render_line (k, v)) = core).
  { replace (render_line (k, v))
      with (lit "  " ++ core ++ match v with [] => [" "%char] | _ => [] end).
    - apply strip_core.
      + reflexivity.
      + destruct v; reflexivity.
      + subst core. destruct k as [|x k']; [reflexivity|].
        apply lstrip_same in Hk1. cbn [app lstrip]. now rewrite Hk1.
      + subst core rest. rewrite rev_app_distr. cbn [rev].
        destruct v as [|y v'] eqn:Ev.
        * reflexivity.
        * rewrite <- Ev in *. 
          assert (Hr : rev v <> []).
          { intros E. apply (f_equal (@rev ascii)) in E.
            rewrite rev_involutive in E. rewrite Ev in E. discriminate. }
          apply lstrip_same in Hv3.
          destruct (rev v) as [|z r] eqn:Er; [contradiction|].
          replace (rev (" "%char :: v)) with (z :: r ++ [" "%char])
            by (cbn [rev]; now rewrite Er).
          cbn [app lstrip]. now rewrite Hv3.
    - unfold render_line, core, rest. cbn [fst snd].
      destruct v; cbn [lit list_ascii_of_string app];
        rewrite ?app_nil_r, <- ?app_assoc; cbn [app]; reflexivity. }
  unfold parse_line. rewrite Hline.
  assert (Hne : core <> []) by (subst core; now destruct k).
  destruct core as [|c0 core'] eqn:Ec; [contradiction|]. rewrite <- Ec.
  subst core. rewrite contains_colon, (partition_key k rest Hk2).
  f_equal.
  - apply strip_same. auto.
  - subst rest. destruct v as [|y v'] eqn:Ev; [reflexivity|].
    rewrite <- Ev in *.
    change (" "%char :: v) with ([" "%char] ++ v).
    rewrite CipherMore.strip_leading by reflexivity.
    apply strip_same. auto.
Qed.

Lemma rendered_line_ok (k v : str) :
  clean_key k -> clean_value v ->
  nolb (render_line (k, v)) /\ render_line (k, v) <> [].
Proof.
  intros (_ & _ & Hk) (_ & Hv). split; [|discriminate].
  unfold nolb, render_line in *. cbn [fst snd].
  rewrite !forallb_app, Hk, Hv. reflexivity.
Qed.

(** Setting new keys one after the other builds the mapping. *)
Lemma dict_set_new (acc : dict) (k v : str) :
  ~ In k (map fst acc) -> dict_set acc k v = acc ++ [(k, v)].
Proof.
  induction acc as [|[k' v'] acc IH]; intros H; [reflexivity|].
  cbn [dict_set map fst In] in *.
  destruct (str_eqb k' k) eqn:E.
  - apply str_eqb_eq in E. exfalso. apply H. now left.
  - cbn [app]. f_equal. apply IH. intros Hin. apply H. now right.
Qed.

Definition clean (d : dict) : Prop :=
  NoDup (map fst d)
  /\ Forall (fun kv => clean_key (fst kv) /\ clean_value (snd kv)) d.

Lemma fold_rendered (d acc : dict) :
  NoDup (map fst (acc ++ d)) ->
  Forall (fun kv => clean_key (fst kv) /\ clean_value (snd kv)) d ->
  fold_left parse_line (map render_line d) acc = acc ++ d.
Proof.
  revert acc. induction d as [|[k v] d IH]; intros acc Hn Hc.
  - cbn. now rewrite app_nil_r.
  - inversion Hc as [|? ? [Hk Hv] Hd]; subst. cbn [fst snd] in *.
    cbn [map fold_left]. rewrite (parse_rendered_line acc k v Hk Hv).
    rewrite dict_set_new.
    + rewrite IH; [now rewrite <- app_assoc| |exact Hd].
      now rewrite <- app_assoc.
    + rewrite map_app in Hn. cbn [map fst] in Hn.
      apply NoDup_remove_2 in Hn. intros Hin. apply Hn.
      apply in_or_app. now left.
Qed.

(** The outer trimming of [parse_data] changes nothing once every line
    is trimmed on its own. *)
Lemma blank_line (acc : dict) (l : str) :
  forallb isspace l = true -> parse_line acc l = acc.
Proof.
  intros H. unfold parse_line.
  replace (strip l) with (@nil ascii); [reflexivity|].
  symmetry. rewrite <- (app_nil_r l).
  now rewrite (CipherMore.strip_leading l []).
Qed.

Lemma parse_line_leading (acc : dict) (x : ascii) (l : str) :
  isspace x = true -> parse_line acc (x :: l) = parse_line acc l.
Proof.
  intros H. unfold parse_line.
  change (x :: l) with ([x] ++ l).
  rewrite CipherMore.strip_leading; [reflexivity|]. cbn. now rewrite H.
Qed.

Lemma parse_line_trailing (acc : dict) (x : ascii) (l : str) :
  isspace x = true -> parse_line acc (l ++ [x]) = parse_line acc l.
Proof.
  intros H. unfold parse_line.
  rewrite CipherMore.strip_trailing; [reflexivity|]. cbn. now rewrite H.
Qed.

Lemma linebreak_is_space (c : ascii) : is_linebreak c = true -> isspace c = true.
Proof.
  unfold is_linebreak, isspace. intros H.
  repeat match goal with
         | H : context [?a <=? ?b] |- _ =>
             let E := fresh in destruct (a <=? b) eqn:E;
             [apply Nat.leb_le in E|apply Nat.leb_gt in E]
         | H : context [?a =? ?b] |- _ =>
             let E := fresh in destruct (a =? b) eqn:E;
             [apply Nat.eqb_eq in E|apply Nat.eqb_neq in E]
         end; cbn in H; try discriminate;
  repeat match goal with
         | |- context [?a <=? ?b] =>
             let E := fresh in destruct (a <=? b) eqn:E;
             [apply Nat.leb_le in E|apply Nat.leb_gt in E]
         | |- context [?a =? ?b] =>
             let E := fresh in destruct (a =? b) eqn:E;
             [apply Nat.eqb_eq in E|apply Nat.eqb_neq in E]
         end; cbn; try reflexivity; lia.
Qed.

Lemma fold_leading (x : ascii) (s : str) (acc : dict) :
  isspace x = true ->
  fold_left parse_line (splitlines (x :: s)) acc
  = fold_left parse_line (splitlines s) acc.
Proof.
  intros Hx. unfold splitlines. cbn [splitlines_from].
  destruct (is_linebreak x) eqn:Hl.
  - cbn [rev fold_left]. change (parse_line acc []) with acc.
    destruct s as [|d s'']; [reflexivity|].
    destruct ((code x =? 13) && (code d =? 10)) eqn:E; [|reflexivity].
    apply andb_prop in E. destruct E as [_ Ed]. apply Nat.eqb_eq in Ed.
    cbn [splitlines_from]. unfold is_linebreak at 1. rewrite Ed.
    cbn [Nat.leb Nat.eqb andb orb rev fold_left].
    change (parse_line acc []) with acc.
    destruct s''; reflexivity.
  - rewrite splitlines_from_cur.
    destruct (splitlines_from [] s) as [|l ls].
    + cbn [fold_left]. apply blank_line. cbn. now rewrite Hx.
    + cbn [rev app fold_left]. now rewrite parse_line_leading.
Qed.

Lemma fold_trailing (x : ascii) (n : nat) :
  isspace x = true ->
  forall (s cur : str) (acc : dict),
    List.length s <= n ->
    fold_left parse_line (splitlines_from cur (s ++ [x])) acc
    = fold_left parse_line (splitlines_from cur s) acc.
Proof.
  intros Hx. induction n as [|n IH]; intros s cur acc Hn.
  - destruct s; [|cbn in Hn; lia].
    cbn [app splitlines_from].
    destruct (is_linebreak x).
    + destruct cur; [reflexivity|reflexivity].
    + destruct cur as [|y cur'].
      * cbn [rev app fold_left]. apply blank_line. cbn. now rewrite Hx.
      * cbn [fold_left]. change (rev (x :: y :: cur')) with (rev (y :: cur') ++ [x]).
        now rewrite parse_line_trailing.
  - destruct s as [|c s'].
    + apply (IH [] cur acc). cbn. lia.
    + cbn [List.length] in Hn. cbn [app splitlines_from].
      destruct (is_linebreak c).
      * cbn [fold_left]. destruct s' as [|d s''].
        -- cbn [app].
           destruct ((code c =? 13) && (code x =? 10)); [reflexivity|].
           apply (IH [] [] _). cbn. lia.
        -- cbn [app]. cbn [List.length] in Hn.
           destruct ((code c =? 13) && (code d =? 10)).
           ++ apply IH. lia.
           ++ apply (IH (d :: s'') [] _). cbn. lia.
      * apply IH. lia.
Qed.

Lemma fold_trailing_all (w s : str) (acc : dict) :
  forallb isspace w = true ->
  fold_left parse_line (splitlines (s ++ w)) acc
  = fold_left parse_line (splitlines s) acc.
Proof.
  induction w as [|x w IH] using rev_ind; intros H.
  - now rewrite app_nil_r.
  - rewrite forallb_app in H. apply andb_prop in H. destruct H as [Hw Hx].
    cbn in Hx. rewrite andb_true_r in Hx.
    rewrite app_assoc. unfold splitlines in *.
    rewrite (fold_trailing x (List.length (s ++ w)) Hx) by lia.
    now apply IH.
Qed.

Lemma lstrip_spaces (s : str) :
  exists w, s = w ++ lstrip s /\ forallb isspace w = true.
Proof.
  induction s as [|x s (w & Hw & Hs)]; [now exists []|].
  cbn [lstrip]. destruct (isspace x) eqn:E.
  - exists (x :: w). cbn [app forallb]. rewrite E, Hs. now rewrite <- Hw.
  - now exists [].
Qed.

Lemma rstrip_spaces (s : str) :
  exists w, s = rstrip s ++ w /\ forallb isspace w = true.
Proof.
  unfold rstrip. destruct (lstrip_spaces (rev s)) as (w & Hw & Hs).
  exists (rev w). split.
  - rewrite <- rev_app_distr, <- Hw. symmetry. apply rev_involutive.
  - apply forallb_forall. intros c Hc. apply in_rev in Hc.
    rewrite forallb_forall in Hs. now apply Hs.
Qed.

Lemma outer_strip (c : str) (acc : dict) :
  fold_left parse_line (splitlines (strip c)) acc
  = fold_left parse_line (splitlines c) acc.
Proof.
  unfold strip.
  destruct (rstrip_spaces (lstrip c)) as (w & Hw & Hs).
  rewrite <- (fold_trailing_all w (rstrip (lstrip c)) acc Hs), <- Hw.
  clear. induction c as [|x c IH]; [reflexivity|].
  cbn [lstrip]. destruct (isspace x) eqn:E; [|reflexivity].
  now rewrite fold_leading.
Qed.

(** A clean mapping is read back from its text. *)
Lemma rebuild_parse (d : dict) :
  clean d -> parse_content (join [NL] (map render_line d)) = d.
Proof.
  intros [Hn Hc]. unfold parse_content. rewrite outer_strip.
  rewrite splitlines_join.
  - now apply (fold_rendered d []).
  - apply Forall_map. apply Forall_forall. intros [k v] Hin.
    rewrite Forall_forall in Hc. destruct (Hc _ Hin) as [Hk Hv].
    now apply rendered_line_ok.
Qed.

(** What [parse_data] builds is clean. *)
Lemma strip_segment (s : str) : exists a b, s = a ++ strip s ++ b.
Proof.
  unfold strip. destruct (lstrip_ends s) as [a Ha].
  destruct (rstrip_prefix (lstrip s)) as [b Hb].
  exists a, b. now rewrite <- Hb.
Qed.

Lemma nolb_strip (s : str) : nolb s -> nolb (strip s).
Proof.
  unfold nolb. destruct (strip_segment s) as (a & b & E).
  rewrite E at 1. rewrite !forallb_app. intros H.
  apply andb_prop in H. destruct H as [_ H].
  apply andb_prop in H. now destruct H.
Qed.

Lemma colon_strip (s : str) :
  contains_char ":"%char s = false -> contains_char ":"%char (strip s) = false.
Proof.
  unfold contains_char. destruct (strip_segment s) as (a & b & E).
  rewrite E at 1. rewrite !existsb_app. intros H.
  apply orb_false_iff in H. destruct H as [_ H].
  apply orb_false_iff in H. now destruct H.
Qed.

Lemma partition_split (ch : ascii) (s : str) :
  contains_char ch s = true ->
  s = fst (partition ch s) ++ ch :: snd (partition ch s)
  /\ contains_char ch (fst (partition ch s)) = false.
Proof.
  unfold contains_char. induction s as [|c s IH]; [discriminate|].
  cbn [existsb partition]. destruct (Ascii.eqb c ch) eqn:E.
  - apply Ascii.eqb_eq in E. subst c. intros _. now split.
  - rewrite Ascii.eqb_sym, E. cbn [orb]. intros H.
    destruct (IH H) as [H1 H2].
    destruct (partition ch s) as [a b]. cbn [fst snd] in *. split.
    + cbn [app]. now rewrite <- H1.
    + cbn [existsb]. rewrite Ascii.eqb_sym, E. exact H2.
Qed.

Definition all_clean (d : dict) : Prop :=
  Forall (fun kv => clean_key (fst kv) /\ clean_value (snd kv)) d.

Lemma dict_set_clean (d : dict) (k v : str) :
  all_clean d -> clean_key k -> clean_value v -> all_clean (dict_set d k v).
Proof.
  unfold all_clean. intros H Hk Hv.
  induction d as [|[k' v'] d IH]; cbn [dict_set].
  - constructor; [now split|constructor].
  - inversion H as [|? ? [H1 H2] H3]; subst. cbn [fst snd] in *.
    destruct (str_eqb k' k); constructor; auto.
Qed.

Lemma parse_line_clean (acc : dict) (line : str) :
  all_clean acc -> nolb line -> all_clean (parse_line acc line).
Proof.
  intros Ha Hl. unfold parse_line.
  apply nolb_strip in Hl.
  destruct (strip line) as [|c0 l0] eqn:E; [exact Ha|]. rewrite <- E in *.
  destruct (contains_char ":" (strip line)) eqn:Hc; [|exact Ha].
  destruct (partition_split ":"%char (strip line) Hc) as [Hs Hk].
  destruct (partition ":" (strip line)) as [a b]. cbn [fst snd] in *.
  assert (Hab : nolb a /\ nolb b).
  { unfold nolb in *. rewrite Hs, forallb_app in Hl. cbn [forallb] in Hl.
    apply andb_prop in Hl. destruct Hl as [H1 H2].
    apply andb_prop in H2. now destruct H2. }
  destruct Hab as [Hna Hnb].
  apply dict_set_clean; [exact Ha| |].
  - repeat split; [apply strip_idem|now apply colon_strip|now apply nolb_strip].
  - split; [apply strip_idem|now apply nolb_strip].
Qed.

Lemma splitlines_nolb (n : nat) :
  forall s cur, List.length s <= n -> nolb cur ->
                Forall nolb (splitlines_from cur s).
Proof.
  assert (Hrev : forall cur, nolb cur -> nolb (rev cur)).
  { unfold nolb. intros cur H. apply forallb_forall. intros c Hc.
    apply in_rev in Hc. rewrite forallb_forall in H. now apply H. }
  induction n as [|n IH]; intros s cur Hn Hc.
  - destruct s; [|cbn in Hn; lia]. cbn [splitlines_from].
    destruct cur; [constructor|]. constructor; [now apply Hrev|constructor].
  - destruct s as [|c s'].
    + cbn [splitlines_from].
      destruct cur; [constructor|]. constructor; [now apply Hrev|constructor].
    + cbn [List.length] in Hn. cbn [splitlines_from].
      destruct (is_linebreak c) eqn:E.
      * constructor; [now apply Hrev|].
        destruct s' as [|d s'']; [constructor|].
        cbn [List.length] in Hn.
        destruct ((code c =? 13) && (code d =? 10));
          apply IH; cbn [List.length]; try lia; reflexivity.
      * apply IH; [lia|]. unfold nolb in *. cbn [forallb]. now rewrite E, Hc.
Qed.

Lemma parse_content_clean (c : str) : clean (parse_content c).
Proof.
  split; [apply DictFacts.parse_content_wf|].
  unfold parse_content.
  assert (H : all_clean []) by constructor.
  assert (Hl : Forall nolb (splitlines (strip c)))
    by (apply (splitlines_nolb (List.length (strip c))); [lia|reflexivity]).
  revert H Hl. generalize (@nil (str * str)).
  induction (splitlines (strip c)) as [|l ls IH]; intros d Hd Hl; [exact Hd|].
  inversion Hl; subst. cbn [fold_left]. apply IH; [|assumption].
  now apply parse_line_clean.
Qed.

Lemma dict_set_keeps_clean (d : dict) (k v : str) :
  clean d -> clean_key k -> clean_value v -> clean (dict_set d k v).
Proof.
  intros [Hn Hc] Hk Hv. split.
  - now apply DictFacts.dict_set_wf.
  - now apply dict_set_clean.
Qed.

(** The cache of a block, when there is one, is clean. *)
Definition cache_clean (b : t) : Prop :=
  match _data b with Some d => clean d | None => True end.

Lemma parse_data_clean (b : t) :
  type b = 1%Z -> cache_clean b -> clean (fst (parse_data b)).
Proof.
  intros Ht Hc. unfold parse_data, cache_clean in *. rewrite Ht. cbn [Z.eqb Pos.eqb negb].
  destruct (_data b); [exact Hc|]. apply parse_content_clean.
Qed.

End ViewText.

(** X22.  What [parse_data] reads from any content is a canonical
    mapping: keys are distinct, trimmed, without colon or line break,
    values are trimmed and without line break; and the content rebuilt
    from it reads back as the same mapping. *)
Theorem parsed_view_is_canonical (c : str) :
  let d := JDATBlock.parse_content c in
  NoDup (map fst d)
  /\ Forall (fun kv => strip (fst kv) = fst kv
                       /\ contains_char ":"%char (fst kv) = false
                       /\ forallb (fun x => negb (is_linebreak x)) (fst kv) = true
                       /\ strip (snd kv) = snd kv
                       /\ forallb (fun x => negb (is_linebreak x)) (snd kv) = true) d
  /\ JDATBlock.parse_content (join [NL] (map JDATBlock.render_line d)) = d.
Proof.
  cbv zeta. pose proof (ViewText.parse_content_clean c) as H.
  split; [apply H|]. split.
  - destruct H as [_ H]. eapply Forall_impl; [|exact H].
    intros [k v] [(H1 & H2 & H3) (H4 & H5)]. cbn [fst snd] in *. auto.
  - now apply ViewText.rebuild_parse.
Qed.

(** X23.  On a structured block whose cache is absent or canonical,
    [set] with a trimmed key without colon or line break and a trimmed
    value without line break writes a content that holds the whole view:
    parsed anew with the cache dropped, it gives the mapping that the
    cache holds, and the cache is canonical again. *)
Theorem set_writes_whole_view (b : JDATBlock.t) (k v : str) :
  JDATBlock.type b = 1%Z ->
  ViewText.cache_clean b ->
  ViewText.clean_key k -> ViewText.clean_value v ->
  let b' := JDATBlock.set b k v in
  fst (JDATBlock.parse_data (JDATBlock.set_data b' None))
  = fst (JDATBlock.parse_data b')
  /\ JDATBlock._data b' = Some (fst (JDATBlock.parse_data b'))
  /\ ViewText.cache_clean b'.
Proof.
  intros Ht Hc Hk Hv. cbv zeta.
  pose proof (ViewText.parse_data_clean b Ht Hc) as Hd.
  destruct (DictFacts.parse_data_structured b Ht) as (d & Hp & _).
  rewrite Hp in Hd. cbn [fst] in Hd.
  rewrite (DictFacts.set_structured b k v d Ht Hp).
  pose proof (ViewText.dict_set_keeps_clean d k v Hd Hk Hv) as Hs.
  unfold JDATBlock.parse_data, ViewText.cache_clean.
  cbn [JDATBlock.type JDATBlock._data JDATBlock.set_data JDATBlock.content
       Z.eqb Pos.eqb negb fst].
  split; [now apply ViewText.rebuild_parse|]. split; [reflexivity|exact Hs].
Qed.

Lemma set_writes_whole_view_witness :
  let b := JDATBlock.__init__ (lit "user") (lit "u1") 1
             (lit "name: Alice" ++ [NL] ++ lit "age : 30") false in
  let b' := JDATBlock.set b (lit "city") (lit "New York") in
  fst (JDATBlock.parse_data (JDATBlock.set_data b' None))
  = [(lit "name", lit "Alice"); (lit "age", lit "30"); (lit "city", lit "New York")].
Proof.
  cbv zeta.
  pose proof (set_writes_whole_view
                (JDATBlock.__init__ (lit "user") (lit "u1") 1
                   (lit "name: Alice" ++ [NL] ++ lit "age : 30") false)
                (lit "city") (lit "New York") eq_refl I) as H.
  cbv zeta in H. destruct H as [H _].
  - repeat split; reflexivity.
  - split; reflexivity.
  - rewrite H. reflexivity.
Defined.

Module ViewRoundTrip.
Import JDATBlock.

(** A block whose cache, if any, is canonical and not left over from
    before an encryption. *)
Definition settled (b : t) : Prop :=
  match _data b with
  | Some d => encrypted b = false /\ ViewText.clean d
  | None => True
  end.

Definition view (b : t) : dict := fst (parse_data b).

Lemma view_wrapped (b : t) :
  settled b -> view (RoundTrip.wrap (snd (to_jdat b))) = view b.
Proof.
  intros Hs. unfold view, parse_data, RoundTrip.wrap.
  cbn [type _data content].
  assert (Ht : type (snd (to_jdat b)) = type b).
  { unfold to_jdat, _rebuild_content.
    destruct (encrypted b); [reflexivity|].
    destruct (type b =? 1)%Z eqn:E; [|reflexivity].
    destruct (_data b); reflexivity. }
  rewrite Ht. destruct (type b =? 1)%Z eqn:E; cbn [negb fst]; [|reflexivity].
  unfold parse_content at 1. rewrite StripFacts.strip_wrapped.
  fold (parse_content (content (snd (to_jdat b)))).
  unfold settled in Hs. unfold to_jdat, _rebuild_content. rewrite E.
  destruct (_data b) as [d|] eqn:Ed.
  - destruct Hs as [He Hd]. rewrite He. cbn [snd content set_content fst].
    now apply ViewText.rebuild_parse.
  - destruct (encrypted b); reflexivity.
Qed.

End ViewRoundTrip.

(** X24.  The views survive the text.  When a File is serialised and
    the text parsed, [_parse] returns and every block gives through
    [parse_data] the mapping it gave before, provided the text can carry the blocks (names and
    links not empty and without white space, kinds not negative and of
    at most 4300 digits, no [})] in a content, no block nested in a
    comment) and every cache is absent, or canonical and on a block that
    is not encrypted. *)
Theorem views_survive_text (f : JDATFile.t) :
  let f1 := snd (JDATFile.to_jdat f) in
  Forall RoundTrip.harmless (JDATFile.comments f) ->
  Forall TextRoundTrip.printable (JDATFile.blocks f1) ->
  Forall ViewRoundTrip.settled (JDATFile.blocks f) ->
  fst (JDATFile._parse (JDATFile.__init__ None) (RoundTrip.serialize f)) = Return tt
  /\ map (fun b => fst (JDATBlock.parse_data b))
         (JDATFile.blocks (RoundTrip.parse (RoundTrip.serialize f)))
     = map (fun b => fst (JDATBlock.parse_data b)) (JDATFile.blocks f).
Proof.
  cbv zeta. intros Hc Hp Hs.
  split; [exact (proj1 (TextRoundTrip.parse_serialised f Hc Hp))|].
  rewrite (proj2 (TextRoundTrip.parse_serialised f Hc Hp)).
  rewrite TextRoundTrip.file_blocks_after.
  rewrite !map_map. apply map_ext_in. intros b Hin.
  rewrite Forall_forall in Hs.
  exact (ViewRoundTrip.view_wrapped b (Hs b Hin)).
Qed.

Lemma views_survive_text_witness :
  let b := JDATBlock.set
             (JDATBlock.__init__ (lit "user") (lit "u1") 1 (lit "name: Alice") false)
             (lit "age") (lit "30") in
  let f := JDATFile.mk None [b; JDATBlock.__init__ (lit "raw") (lit "r1") 0 (lit "a: b") false]
                       [lit "note"] in
  map (fun b => fst (JDATBlock.parse_data b))
      (JDATFile.blocks (RoundTrip.parse (RoundTrip.serialize f)))
  = [[(lit "name", lit "Alice"); (lit "age", lit "30")]; []].
Proof.
  cbv zeta.
  destruct (views_survive_text
             (JDATFile.mk None
                [JDATBlock.set
                   (JDATBlock.__init__ (lit "user") (lit "u1") 1 (lit "name: Alice") false)
                   (lit "age") (lit "30");
                 JDATBlock.__init__ (lit "raw") (lit "r1") 0 (lit "a: b") false]
                [lit "note"])) as [_ H]; [| | |rewrite H; reflexivity].
  - repeat constructor; left; reflexivity.
  - repeat constructor; cbn; try discriminate; try lia.
  - constructor; [|constructor; [exact I|constructor]].
    split; [reflexivity|]. split.
    + repeat constructor; cbn; intuition discriminate.
    + repeat constructor.
Defined.

Module LinkInvariant.
Import JDATFile Registry RegistryFrame.

Lemma nodup_snoc {A} (l : list A) (x : A) :
  NoDup l -> ~ In x l -> NoDup (l ++ [x]).
Proof.
  induction l as [|a l IH]; intros Hn Hx; cbn [app].
  - constructor; [intros []|constructor].
  - inversion Hn as [|? ? Ha Hl]; subst. constructor.
    + intros Hin. apply in_app_or in Hin. destruct Hin as [Hin|[->|[]]].
      * now apply Ha.
      * apply Hx. now left.
    + apply IH; [exact Hl|]. intros Hin. apply Hx. now right.
Qed.

Lemma absent_not_in (l : str) (bs : list JDATBlock.t) :
  absent l bs -> ~ In l (map JDATBlock.link bs).
Proof.
  unfold absent. intros H Hin. apply in_map_iff in Hin.
  destruct Hin as (b & Hb & Hin). rewrite Forall_forall in H.
  now apply (H b Hin).
Qed.

Lemma links_of_outline (bs bs' : list JDATBlock.t) :
  map outline bs' = map outline bs -> map JDATBlock.link bs' = map JDATBlock.link bs.
Proof.
  intros H. apply (f_equal (map (fun o : str * str * Z => snd (fst o)))) in H.
  now rewrite !map_map in H.
Qed.

Lemma framed_unique (l : str) (f f' : t) :
  framed l f f' -> unique_links f -> unique_links f'.
Proof.
  intros (_ & _ & Ho & _) Hu. unfold unique_links in *.
  now rewrite (links_of_outline _ _ Ho).
Qed.

End LinkInvariant.

(** X25.  No operation of the registry breaks the uniqueness of links:
    when the links of a File are pairwise different, they still are
    after [add_block], [remove_block], [encrypt_block] and
    [decrypt_block], whatever these return or raise. *)
Theorem links_stay_unique
  {L : JDATCrypto.Library} (f : JDATFile.t) (name link content password : str)
  (btype : Z) (e : JDATCrypto.entropy) :
  Registry.unique_links f ->
  Registry.unique_links (snd (JDATFile.add_block f name link btype content))
  /\ Registry.unique_links (snd (JDATFile.remove_block f link))
  /\ Registry.unique_links (snd (fst (JDATFile.encrypt_block f link password e)))
  /\ Registry.unique_links (snd (JDATFile.decrypt_block f link password)).
Proof.
  intros Hu. split; [|split; [|split]].
  - unfold JDATFile.add_block, JDATFile.get_by_link.
    destruct (JDATFile.find_by_link (JDATFile.blocks f) link) eqn:E; [exact Hu|].
    apply Registry.find_absent in E. apply LinkInvariant.absent_not_in in E.
    unfold Registry.unique_links in *. cbn [snd JDATFile.blocks JDATFile.set_blocks].
    rewrite map_app. now apply LinkInvariant.nodup_snoc.
  - unfold JDATFile.remove_block.
    destruct (JDATFile.find_by_link (JDATFile.blocks f) link) as [b|] eqn:E.
    + destruct (Registry.find_split _ _ _ E) as (pre & post & Hb & Hl & Hp).
      unfold Registry.unique_links in *. rewrite Hb in *.
      rewrite (Registry.remove_split pre post b link Hp Hl).
      cbn [snd JDATFile.blocks JDATFile.set_blocks].
      rewrite map_app in *. cbn [map] in Hu. now apply NoDup_remove_1 in Hu.
    + apply Registry.find_absent in E.
      rewrite (Registry.remove_absent _ _ E). cbn [snd].
      now rewrite RegistryFrame.set_blocks_same.
  - destruct (RegistryFrame.encrypt_block_shape f link password e)
      as [-> | (b & b' & Hb & Ho & ->)]; [exact Hu|].
    exact (LinkInvariant.framed_unique link f _
             (RegistryFrame.framed_mutate link f b b' Hb Ho) Hu).
  - destruct (RegistryFrame.decrypt_block_shape f link password)
      as [-> | (b & b' & Hb & Ho & ->)]; [exact Hu|].
    exact (LinkInvariant.framed_unique link f _
             (RegistryFrame.framed_mutate link f b b' Hb Ho) Hu).
Qed.

Lemma links_stay_unique_witness :
  let f := RegistryFacts.file_of "(n:a l:b t:2{x}) (n:c l:d t:1{k: v})" in
  Registry.unique_links
    (snd (JDATFile.add_block (snd (JDATFile.remove_block f (lit "b")))
            (lit "n") (lit "b") 0 (lit "y"))).
Proof.
  cbv zeta.
  assert (H : Registry.unique_links
                (RegistryFacts.file_of "(n:a l:b t:2{x}) (n:c l:d t:1{k: v})")).
  { unfold Registry.unique_links. repeat constructor; cbn; intuition discriminate. }
  pose proof (proj1 (proj2 (links_stay_unique
                              (L := SampleLibrary.sample) _ [] (lit "b") [] [] 0
                              SampleLibrary.counting H))) as H1.
  exact (proj1 (links_stay_unique
                  (L := SampleLibrary.sample) _ (lit "n") (lit "b") (lit "y") [] 0
                  SampleLibrary.counting H1)).
Defined.

(** * Setting a key twice (C8) *)

Module SetTwice.
Import JDATBlock.



End SetTwice.



